(** * Dimacza ERP: the document issuance handlers of [index.js]

    A shallow embedding of the Express handlers that create, list, update,
    delete and render commercial documents, together with the part of the
    relational store they talk to (the tables declared in [initDB], the
    statements the handlers send, transactions), and of the handlers of
    companies and contacts, which share the companies with the documents.

    Modelling domain.  JavaScript numbers are embedded as [Z]: amounts are
    whole pesos and quantities are integers, the range in which the double
    arithmetic of the handlers is exact.  Strings are Rocq strings; the
    case folding of ILIKE is the ASCII one. *)

From Stdlib Require Import ZArith List String Ascii Bool Lia Sorted.
From Stdlib Require Import QArith Qround DecimalString Permutation.
Import ListNotations.
Open Scope string_scope.
Open Scope list_scope.
Open Scope Z_scope.


(* ================================================================== *)
(** ** JavaScript values of a JSON request body *)

Module Js.

Inductive value : Type :=
| Undefined
| Null
| Bool (b : bool)
| Num (n : Z)
| Str (s : string).

(** ToBoolean: what [if (v)], [!v] and [v || d] test. *)
Definition truthy (v : value) : bool :=
  match v with
  | Undefined | Null => false
  | Bool b => b
  | Num n => negb (n =? 0)
  | Str s => negb (s =? "")%string
  end.

(** [a || b]. *)
Definition or (a b : value) : value := if truthy a then a else b.

End Js.

Notation "a '|||' b" := (Js.or a b) (at level 50, left associativity).

(* ================================================================== *)
(** ** Text helpers *)

Definition chars (s : string) : list ascii := list_ascii_of_string s.

Definition text_of_Z (z : Z) : string := NilZero.string_of_int (Z.to_int z).

Definition is_space (c : ascii) : bool :=
  let n := nat_of_ascii c in
  ((n =? 32) || ((9 <=? n) && (n <=? 13)))%nat.

Fixpoint drop_spaces (l : list ascii) : list ascii :=
  match l with
  | c :: l' => if is_space c then drop_spaces l' else l
  | [] => []
  end.

Definition trim (s : string) : string :=
  string_of_list_ascii
    (rev (drop_spaces (rev (drop_spaces (chars s))))).

Definition lower_char (c : ascii) : ascii :=
  let n := nat_of_ascii c in
  if ((65 <=? n) && (n <=? 90))%nat then ascii_of_nat (n + 32) else c.

Definition lower (l : list ascii) : list ascii := map lower_char l.

(** The escape character of LIKE patterns. *)
Definition backslash : ascii := ascii_of_nat 92.

Definition all_spaces (l : list ascii) : bool :=
  forallb (fun c => Ascii.eqb c " "%char) l.

(* ================================================================== *)
(** ** The store: how a query parameter reaches a column

    The driver sends every parameter as text ([null] and [undefined] as
    NULL); the store then reads the text with the input function of the
    column's type and raises an error when it cannot. *)

Module Pg.

Inductive error : Type :=
| InvalidText (column : string)
| OutOfRange (column : string)
| TooLong (column : string)
| ForeignKey (column : string)
| BadPattern.

(** The driver's serialisation of a parameter; [None] is NULL. *)
Definition text_of (v : Js.value) : option string :=
  match v with
  | Js.Undefined | Js.Null => None
  | Js.Bool true => Some "true"
  | Js.Bool false => Some "false"
  | Js.Num n => Some (text_of_Z n)
  | Js.Str s => Some s
  end.

(** Decimal integer text: blanks around it, an optional sign, digits. *)
Definition integer_of_text (s : string) : option Z :=
  match trim s with
  | String "+" rest =>
      match rest with
      | String "-" _ => None
      | _ => option_map Z.of_int (NilZero.int_of_string rest)
      end
  | t => option_map Z.of_int (NilZero.int_of_string t)
  end.

(** The integer a parameter denotes once its text is read back: a
    number is its own decimal text, [true] and [false] are no integers. *)
Definition integer_of (v : Js.value) : option Z :=
  match v with
  | Js.Num n => Some n
  | Js.Str s => integer_of_text s
  | _ => None
  end.

Definition int4_min : Z := - 2147483648.
Definition int4_max : Z := 2147483647.
Definition in_int4 (z : Z) : bool := (int4_min <=? z) && (z <=? int4_max).

(** NUMERIC(12,2) holds absolute values below 10^10. *)
Definition in_numeric_12_2 (z : Z) : bool := Z.abs z <? 10000000000.

Definition cell (A : Type) : Type := option A.   (* [None] is NULL *)

Definition ranged_in (ok : Z -> bool) (col : string) (v : Js.value)
  : error + cell Z :=
  match text_of v with
  | None => inr None
  | Some _ =>
      match integer_of v with
      | None => inl (InvalidText col)
      | Some z => if ok z then inr (Some z) else inl (OutOfRange col)
      end
  end.

(** INTEGER column. *)
Definition int4_in : string -> Js.value -> error + cell Z :=
  ranged_in in_int4.

(** DECIMAL(12,2) column, on whole amounts. *)
Definition numeric_in : string -> Js.value -> error + cell Z :=
  ranged_in in_numeric_12_2.

(** VARCHAR(n) column: longer text is an error unless only spaces
    exceed the limit, which are then cut off. *)
Definition varchar_in (n : nat) (col : string) (v : Js.value)
  : error + cell string :=
  match text_of v with
  | None => inr None
  | Some t =>
      if (String.length t <=? n)%nat then inr (Some t)
      else if all_spaces (skipn n (chars t))
           then inr (Some (string_of_list_ascii (firstn n (chars t))))
           else inl (TooLong col)
  end.

(** TEXT column. *)
Definition text_in (v : Js.value) : error + cell string := inr (text_of v).

End Pg.

(* ================================================================== *)
(** ** The tables of [initDB] *)

Record Company : Type := {
  co_id : Z;
  co_name : Pg.cell string;
  co_industry : Pg.cell string;
  co_city : Pg.cell string;
  co_address : Pg.cell string;
  co_status : Pg.cell string;
  co_type : Pg.cell string;
  co_rut : Pg.cell string;
  co_giro : Pg.cell string
}.

Record Document : Type := {
  doc_id : Z;
  doc_type : Pg.cell string;
  doc_folio : Pg.cell Z;
  doc_company_id : Pg.cell Z;
  doc_date : Pg.cell string;
  doc_expiration_date : Pg.cell string;
  doc_status : Pg.cell string;
  doc_neto : Pg.cell Z;
  doc_tax : Pg.cell Z;
  doc_total : Pg.cell Z;
  doc_notes : Pg.cell string;
  doc_payment_terms : Pg.cell string;
  doc_delivery_time : Pg.cell string;
  doc_warranty : Pg.cell string;
  doc_reference : Pg.cell string;
  doc_parent_id : Pg.cell Z;
  doc_driver : Pg.cell string;
  doc_plate : Pg.cell string;
  doc_dispatch_type : Pg.cell string;
  doc_file_url : Pg.cell string
}.

Record DocumentItem : Type := {
  it_id : Z;
  it_document_id : Pg.cell Z;
  it_product_id : Pg.cell Z;
  it_name : Pg.cell string;
  it_description : Pg.cell string;
  it_quantity : Pg.cell Z;
  it_price : Pg.cell Z;
  it_total : Pg.cell Z
}.

Record Tables : Type := {
  companies : list Company;
  documents : list Document;            (* in insertion order *)
  document_items : list DocumentItem    (* in insertion order *)
}.

(** The store seen through one connection: the tables, the two SERIAL
    sequences (which a ROLLBACK does not rewind) and, while a transaction
    is open, the tables as they were at BEGIN. *)
Record Store : Type := {
  tables : Tables;
  documents_id_seq : Z;
  document_items_id_seq : Z;
  at_begin : option Tables
}.

Definition fresh_store (cs : list Company) : Store :=
  {| tables := {| companies := cs; documents := []; document_items := [] |};
     documents_id_seq := 1;
     document_items_id_seq := 1;
     at_begin := None |}.

(* ================================================================== *)
(** ** Requests and responses *)

(** One entry of [req.body.items]. *)
Record Item : Type := {
  product_id : Js.value;
  name : Js.value;
  description : Js.value;
  quantity : Z;
  price : Z
}.

(** [req.body] of POST /api/documents; [items] is [None] when the field is
    absent or null, else the array. *)
Record Body : Type := {
  type : Js.value;
  company_id : Js.value;
  date : Js.value;
  expiration_date : Js.value;
  items : option (list Item);
  notes : Js.value;
  payment_terms : Js.value;
  delivery_time : Js.value;
  warranty : Js.value;
  reference : Js.value;
  parent_id : Js.value;
  status : Js.value;
  driver : Js.value;
  plate : Js.value;
  dispatch_type : Js.value;
  file_url : Js.value;
  total : Js.value;
  folio : Js.value
}.

(** A row of the list and of the rendered view: [d.*] joined with the
    company's fiscal columns. *)
Record JoinedDocument : Type := {
  jd_doc : Document;
  company_name : Pg.cell string;
  company_rut : Pg.cell string;
  company_giro : Pg.cell string;
  company_address : Pg.cell string;
  company_city : Pg.cell string
}.

(** The values the SII page interpolates into its fixed markup. *)
Record SiiLine : Type := {
  line_name : Pg.cell string;
  line_quantity : Pg.cell Z;
  line_price : Pg.cell Z;
  line_amount : Pg.cell Z
}.

Record SiiPage : Type := {
  page_title_folio : Pg.cell Z;
  page_date : Pg.cell string;
  page_folio : Pg.cell Z;
  page_company_name : Pg.cell string;
  page_rut : string;
  page_giro : string;
  page_address : string;
  page_city : string;
  page_lines : list SiiLine;
  page_neto : Pg.cell Z;
  page_tax : Pg.cell Z;
  page_total : Pg.cell Z
}.

Inductive Response : Type :=
| Created (message : string) (document : Document)     (* res.json, 200 *)
| Message (message : string)                          (* res.json, 200 *)
| Listing (docs : list (JoinedDocument * list DocumentItem))
| Page (html : SiiPage)                               (* res.send, 200 *)
| NotFound (text : string)                            (* status 404 *)
| Failure (error : Pg.error).                         (* status 500 *)

(* ================================================================== *)
(** ** Computations against the store *)

Definition Db (A : Type) : Type := Store -> (Pg.error + A) * Store.

Definition ret {A} (a : A) : Db A := fun s => (inr a, s).

Definition throw {A} (e : Pg.error) : Db A := fun s => (inl e, s).

Definition bind {A B} (m : Db A) (k : A -> Db B) : Db B :=
  fun s =>
    match m s with
    | (inl e, s') => (inl e, s')
    | (inr a, s') => k a s'
    end.

(** [try { m } catch (e) { h e }]. *)
Definition try_catch {A} (m : Db A) (h : Pg.error -> Db A) : Db A :=
  fun s =>
    match m s with
    | (inl e, s') => h e s'
    | (inr a, s') => (inr a, s')
    end.

Declare Scope db_scope.
Delimit Scope db_scope with db.
Notation "x <- m ;; k" := (bind m (fun x => k))
  (at level 61, m at next level, right associativity) : db_scope.
Notation "m ;;; k" := (bind m (fun _ => k))
  (at level 61, right associativity) : db_scope.

(** The same sequencing for input conversions alone. *)
Definition and_then {A B} (r : Pg.error + A) (k : A -> Pg.error + B)
  : Pg.error + B :=
  match r with
  | inl e => inl e
  | inr a => k a
  end.

Notation "'conv' x <- r 'in' k" := (and_then r (fun x => k))
  (at level 10, x name, k at level 200).

(* ================================================================== *)
(** ** SQL expressions the statements use *)

Module Sql.

(** [a = b] on nullable text; unknown counts as not selected. *)
Definition eq_text (a b : Pg.cell string) : bool :=
  match a, b with
  | Some x, Some y => String.eqb x y
  | _, _ => false
  end.

Definition eq_int (a b : Pg.cell Z) : bool :=
  match a, b with
  | Some x, Some y => x =? y
  | _, _ => false
  end.

(** MAX over a column: NULL cells are skipped, no cell gives NULL. *)
Definition max (col : list (Pg.cell Z)) : Pg.cell Z :=
  fold_right
    (fun c acc =>
       match c, acc with
       | Some x, Some m => Some (Z.max x m)
       | Some x, None => Some x
       | None, _ => acc
       end)
    None col.

Definition coalesce {A} (c : Pg.cell A) (d : A) : A :=
  match c with
  | Some x => x
  | None => d
  end.

(** [a + b] on INTEGER raises when the sum leaves the type. *)
Definition add_int4 (a b : Z) : Pg.error + Z :=
  if Pg.in_int4 (a + b) then inr (a + b) else inl (Pg.OutOfRange "integer").

Definition greatest (a b : Z) : Z := Z.max a b.

(** Three-valued OR and AND; [None] is unknown. *)
Definition or3 (a b : Pg.cell bool) : Pg.cell bool :=
  match a, b with
  | Some true, _ | _, Some true => Some true
  | Some false, Some false => Some false
  | _, _ => None
  end.

Definition and3 (a b : Pg.cell bool) : Pg.cell bool :=
  match a, b with
  | Some false, _ | _, Some false => Some false
  | Some true, Some true => Some true
  | _, _ => None
  end.

Definition is_true (a : Pg.cell bool) : bool := Sql.coalesce a false.

(** *** LIKE patterns *)

Inductive token : Type :=
| AnyRun                   (* [%] *)
| AnyOne                   (* [_] *)
| Lit (c : ascii).         (* a character, possibly after the escape *)

Fixpoint tokens (p : list ascii) : option (list token) :=
  match p with
  | [] => Some []
  | c :: p' =>
      if Ascii.eqb c "%" then option_map (cons AnyRun) (tokens p')
      else if Ascii.eqb c "_" then option_map (cons AnyOne) (tokens p')
      else if Ascii.eqb c backslash then
        match p' with
        | [] => None                (* the pattern ends with the escape *)
        | c' :: p'' => option_map (cons (Lit c')) (tokens p'')
        end
      else option_map (cons (Lit c)) (tokens p')
  end.

Fixpoint matches (p : list token) (t : list ascii) {struct p} : bool :=
  match p with
  | [] => match t with [] => true | _ => false end
  | AnyRun :: p' =>
      (fix from (u : list ascii) : bool :=
         matches p' u ||
         match u with
         | [] => false
         | _ :: u' => from u'
         end) t
  | AnyOne :: p' =>
      match t with
      | [] => false
      | _ :: t' => matches p' t'
      end
  | Lit c :: p' =>
      match t with
      | [] => false
      | c' :: t' => Ascii.eqb c c' && matches p' t'
      end
  end.

(** [text ILIKE pattern]: both sides folded to lower case. *)
Definition ilike (text : Pg.cell string) (pattern : string)
  : Pg.error + Pg.cell bool :=
  match text with
  | None => inr None
  | Some t =>
      match tokens (lower (chars pattern)) with
      | None => inl Pg.BadPattern
      | Some p => inr (Some (matches p (lower (chars t))))
      end
  end.

End Sql.

(* ================================================================== *)
(** ** Arithmetic of the handlers *)

Module Math.

(** [Math.round]: the nearest integer, a half going up.  The argument
    is an exact rational: the handler calls it on [neto * 0.19], taken here
    as 19/100 of an integer neto, which is the integer the double product
    rounds to for every neto a DECIMAL(12,2) column can hold. *)
Definition round (x : Q) : Z := Qfloor (x + (1 # 2)).

End Math.

(** [Array.prototype.forEach] / [for ... of] with a store effect. *)
Fixpoint for_each {A} (l : list A) (f : A -> Db unit) : Db unit :=
  match l with
  | [] => ret tt
  | x :: l' => bind (f x) (fun _ => for_each l' f)
  end.

(** [v || d] on a column read back from the store. *)
Definition or_text (c : Pg.cell string) (d : string) : string :=
  match c with
  | Some s => if (s =? "")%string then d else s
  | None => d
  end.

(* ================================================================== *)
(** ** Statements and handlers *)

Section Handlers.

(** The input function of the DATE type: the texts the store reads as a
    calendar date. *)
Variable date_ok : string -> bool.

Local Open Scope db_scope.

Definition date_in (col : string) (v : Js.value) : Pg.error + Pg.cell string :=
  match Pg.text_of v with
  | None => inr None
  | Some t => if date_ok t then inr (Some t) else inl (Pg.InvalidText col)
  end.

(** *** Transaction control *)

Definition BEGIN : Db unit :=
  fun s =>
    (inr tt,
     {| tables := tables s;
        documents_id_seq := documents_id_seq s;
        document_items_id_seq := document_items_id_seq s;
        at_begin := Some (tables s) |}).

Definition COMMIT : Db unit :=
  fun s =>
    (inr tt,
     {| tables := tables s;
        documents_id_seq := documents_id_seq s;
        document_items_id_seq := document_items_id_seq s;
        at_begin := None |}).

Definition ROLLBACK : Db unit :=
  fun s =>
    (inr tt,
     {| tables := match at_begin s with
                  | Some t => t
                  | None => tables s
                  end;
        documents_id_seq := documents_id_seq s;
        document_items_id_seq := document_items_id_seq s;
        at_begin := None |}).

(** *** Reads *)

Definition query {A} (f : Tables -> Pg.error + A) : Db A :=
  fun s => (f (tables s), s).

(** SELECT GREATEST(COALESCE(MAX(folio), 0) + 1, 6060) as next_folio
    FROM documents WHERE type = $1 *)
Definition select_next_folio (params : list Js.value) : Db Z :=
  match params with
  | [p1] =>
      query (fun t =>
        let rows :=
          filter (fun d => Sql.eq_text (doc_type d) (Pg.text_of p1))
                 (documents t) in
        conv n <- Sql.add_int4 (Sql.coalesce (Sql.max (map doc_folio rows)) 0) 1 in
        inr (Sql.greatest n 6060))
  | _ => throw (Pg.InvalidText "parameters")
  end.

(** The statement of the older copy of the server:
    SELECT COALESCE(MAX(folio), 0) + 1 as next_folio
    FROM documents WHERE type = $1 *)
Definition select_next_folio_older (params : list Js.value) : Db Z :=
  match params with
  | [p1] =>
      query (fun t =>
        let rows :=
          filter (fun d => Sql.eq_text (doc_type d) (Pg.text_of p1))
                 (documents t) in
        Sql.add_int4 (Sql.coalesce (Sql.max (map doc_folio rows)) 0) 1)
  | _ => throw (Pg.InvalidText "parameters")
  end.

(** SELECT * FROM document_items WHERE document_id = $1 *)
Definition select_items (document_id : Pg.cell Z) (t : Tables)
  : list DocumentItem :=
  filter (fun i => Sql.eq_int (it_document_id i) document_id)
         (document_items t).

(** SELECT d.*, c.name as company_name, ... FROM documents d
    JOIN companies c ON d.company_id = c.id *)
Definition join_company (d : Document) (c : Company) : JoinedDocument :=
  {| jd_doc := d;
     company_name := co_name c;
     company_rut := co_rut c;
     company_giro := co_giro c;
     company_address := co_address c;
     company_city := co_city c |}.

Definition documents_join_companies (t : Tables) : list JoinedDocument :=
  flat_map
    (fun d =>
       map (join_company d)
           (filter (fun c => Sql.eq_int (doc_company_id d) (Some (co_id c)))
                   (companies t)))
    (documents t).

(** ORDER BY d.id DESC *)
Fixpoint insert_desc (r : JoinedDocument) (l : list JoinedDocument)
  : list JoinedDocument :=
  match l with
  | [] => [r]
  | x :: l' =>
      if doc_id (jd_doc x) <? doc_id (jd_doc r)
      then r :: l
      else x :: insert_desc r l'
  end.

Definition order_by_id_desc (l : list JoinedDocument) : list JoinedDocument :=
  fold_right insert_desc [] l.

(** *** Writes *)

(** INSERT INTO documents (type, folio, company_id, date, expiration_date,
    status, neto, tax, total, notes, payment_terms, delivery_time,
    warranty, reference, parent_id, driver, plate, dispatch_type, file_url)
    VALUES ($1, ..., $19) RETURNING * *)
Definition document_of_params (id : Z) (params : list Js.value)
  : Pg.error + Document :=
  match params with
  | [p1; p2; p3; p4; p5; p6; p7; p8; p9; p10;
     p11; p12; p13; p14; p15; p16; p17; p18; p19] =>
      conv c1 <- Pg.varchar_in 20 "type" p1 in
      conv c2 <- Pg.int4_in "folio" p2 in
      conv c3 <- Pg.int4_in "company_id" p3 in
      conv c4 <- date_in "date" p4 in
      conv c5 <- date_in "expiration_date" p5 in
      conv c6 <- Pg.varchar_in 50 "status" p6 in
      conv c7 <- Pg.numeric_in "neto" p7 in
      conv c8 <- Pg.numeric_in "tax" p8 in
      conv c9 <- Pg.numeric_in "total" p9 in
      conv c10 <- Pg.text_in p10 in
      conv c11 <- Pg.varchar_in 255 "payment_terms" p11 in
      conv c12 <- Pg.varchar_in 255 "delivery_time" p12 in
      conv c13 <- Pg.varchar_in 255 "warranty" p13 in
      conv c14 <- Pg.varchar_in 255 "reference" p14 in
      conv c15 <- Pg.int4_in "parent_id" p15 in
      conv c16 <- Pg.varchar_in 255 "driver" p16 in
      conv c17 <- Pg.varchar_in 255 "plate" p17 in
      conv c18 <- Pg.varchar_in 255 "dispatch_type" p18 in
      conv c19 <- Pg.varchar_in 500 "file_url" p19 in
      inr {| doc_id := id; doc_type := c1; doc_folio := c2;
             doc_company_id := c3; doc_date := c4;
             doc_expiration_date := c5; doc_status := c6;
             doc_neto := c7; doc_tax := c8; doc_total := c9;
             doc_notes := c10; doc_payment_terms := c11;
             doc_delivery_time := c12; doc_warranty := c13;
             doc_reference := c14; doc_parent_id := c15;
             doc_driver := c16; doc_plate := c17;
             doc_dispatch_type := c18; doc_file_url := c19 |}
  | _ => inl (Pg.InvalidText "parameters")
  end.

(** company_id INTEGER REFERENCES companies(id) *)
Definition references_company (t : Tables) (c : Pg.cell Z) : bool :=
  match c with
  | None => true
  | Some id => existsb (fun co => co_id co =? id) (companies t)
  end.

Definition insert_document (params : list Js.value) : Db Document :=
  fun s =>
    match document_of_params (documents_id_seq s) params with
    | inl e => (inl e, s)
    | inr row =>
        if references_company (tables s) (doc_company_id row) then
          (inr row,
           {| tables :=
                {| companies := companies (tables s);
                   documents := documents (tables s) ++ [row];
                   document_items := document_items (tables s) |};
              documents_id_seq := documents_id_seq s + 1;
              document_items_id_seq := document_items_id_seq s;
              at_begin := at_begin s |})
        else (inl (Pg.ForeignKey "company_id"), s)
    end.

(** INSERT INTO document_items (document_id, product_id, name,
    description, quantity, price, total) VALUES ($1, ..., $7) *)
Definition item_of_params (id : Z) (params : list Js.value)
  : Pg.error + DocumentItem :=
  match params with
  | [p1; p2; p3; p4; p5; p6; p7] =>
      conv c1 <- Pg.int4_in "document_id" p1 in
      conv c2 <- Pg.int4_in "product_id" p2 in
      conv c3 <- Pg.varchar_in 255 "name" p3 in
      conv c4 <- Pg.text_in p4 in
      conv c5 <- Pg.int4_in "quantity" p5 in
      conv c6 <- Pg.numeric_in "price" p6 in
      conv c7 <- Pg.numeric_in "total" p7 in
      inr {| it_id := id; it_document_id := c1; it_product_id := c2;
             it_name := c3; it_description := c4; it_quantity := c5;
             it_price := c6; it_total := c7 |}
  | _ => inl (Pg.InvalidText "parameters")
  end.

(** document_id INTEGER REFERENCES documents(id) ON DELETE CASCADE *)
Definition references_document (t : Tables) (c : Pg.cell Z) : bool :=
  match c with
  | None => true
  | Some id => existsb (fun d => doc_id d =? id) (documents t)
  end.

Definition insert_document_item (params : list Js.value) : Db unit :=
  fun s =>
    match item_of_params (document_items_id_seq s) params with
    | inl e => (inl e, s)
    | inr row =>
        if references_document (tables s) (it_document_id row) then
          (inr tt,
           {| tables :=
                {| companies := companies (tables s);
                   documents := documents (tables s);
                   document_items := document_items (tables s) ++ [row] |};
              documents_id_seq := documents_id_seq s;
              document_items_id_seq := document_items_id_seq s + 1;
              at_begin := at_begin s |})
        else (inl (Pg.ForeignKey "document_id"), s)
    end.

Definition with_tables (s : Store) (t : Tables) : Store :=
  {| tables := t;
     documents_id_seq := documents_id_seq s;
     document_items_id_seq := document_items_id_seq s;
     at_begin := at_begin s |}.

Definition set_status (d : Document) (st : Pg.cell string) : Document :=
  {| doc_id := doc_id d; doc_type := doc_type d; doc_folio := doc_folio d;
     doc_company_id := doc_company_id d; doc_date := doc_date d;
     doc_expiration_date := doc_expiration_date d; doc_status := st;
     doc_neto := doc_neto d; doc_tax := doc_tax d; doc_total := doc_total d;
     doc_notes := doc_notes d; doc_payment_terms := doc_payment_terms d;
     doc_delivery_time := doc_delivery_time d;
     doc_warranty := doc_warranty d; doc_reference := doc_reference d;
     doc_parent_id := doc_parent_id d; doc_driver := doc_driver d;
     doc_plate := doc_plate d; doc_dispatch_type := doc_dispatch_type d;
     doc_file_url := doc_file_url d |}.

(** UPDATE documents SET status = $1 WHERE id = $2 *)
Definition update_status (params : list Js.value) : Db unit :=
  match params with
  | [p1; p2] =>
      fun s =>
        match Pg.int4_in "id" p2 with
        | inl e => (inl e, s)
        | inr id =>
            let hit := fun d => Sql.eq_int (Some (doc_id d)) id in
            if existsb hit (documents (tables s)) then
              match Pg.varchar_in 50 "status" p1 with
              | inl e => (inl e, s)
              | inr st =>
                  (inr tt,
                   with_tables s
                     {| companies := companies (tables s);
                        documents :=
                          map (fun d => if hit d then set_status d st else d)
                              (documents (tables s));
                        document_items := document_items (tables s) |})
              end
            else (inr tt, s)
        end
  | _ => throw (Pg.InvalidText "parameters")
  end.

(** DELETE FROM documents WHERE id = $1, with the cascade onto
    document_items. *)
Definition delete_from_documents (params : list Js.value) : Db unit :=
  match params with
  | [p1] =>
      fun s =>
        match Pg.int4_in "id" p1 with
        | inl e => (inl e, s)
        | inr id =>
            let hit := fun d => Sql.eq_int (Some (doc_id d)) id in
            let gone := filter hit (documents (tables s)) in
            (inr tt,
             with_tables s
               {| companies := companies (tables s);
                  documents :=
                    filter (fun d => negb (hit d)) (documents (tables s));
                  document_items :=
                    filter
                      (fun i =>
                         negb (existsb
                                 (fun d => Sql.eq_int (it_document_id i)
                                                      (Some (doc_id d)))
                                 gone))
                      (document_items (tables s)) |})
        end
  | _ => throw (Pg.InvalidText "parameters")
  end.

(** *** POST /api/documents *)

(** Determinar Folio *)
Definition resolve_folio (body : Body) : Db Js.value :=
  let nextFolio := folio body in
  if negb (Js.truthy nextFolio) then
    next_folio <- select_next_folio [type body] ;;
    ret (Js.Num next_folio)
  else ret nextFolio.

(** Determinar Totales: [(neto, tax, finalTotal)] *)
Definition resolve_totals (body : Body) : Z * Z * Js.value :=
  let finalTotal := total body ||| Js.Num 0 in
  match items body with
  | Some ((_ :: _) as its) =>
      let neto :=
        fold_left (fun neto item => neto + quantity item * price item) its 0 in
      let tax := Math.round (inject_Z neto * (19 # 100)) in
      (neto, tax, Js.Num (neto + tax))
  | _ => (0, 0, finalTotal)
  end.

Definition item_params (docId : Z) (item : Item) : list Js.value :=
  [Js.Num docId; product_id item; name item;
   description item ||| Js.Str ""; Js.Num (quantity item);
   Js.Num (price item); Js.Num (quantity item * price item)].

Definition document_params (body : Body) (nextFolio : Js.value)
           (neto tax : Z) (finalTotal : Js.value) : list Js.value :=
  [type body; nextFolio; company_id body; date body;
   expiration_date body ||| Js.Null; status body ||| Js.Str "Emitida";
   Js.Num neto; Js.Num tax; finalTotal; notes body; payment_terms body;
   delivery_time body; warranty body; reference body ||| Js.Str "";
   parent_id body ||| Js.Null; driver body ||| Js.Str "";
   plate body ||| Js.Str ""; dispatch_type body ||| Js.Str "";
   file_url body ||| Js.Str ""].

(** Guardar items (si existen) *)
Definition save_items (docId : Z) (body : Body) : Db unit :=
  match items body with
  | Some ((_ :: _) as its) =>
      for_each its (fun item => insert_document_item (item_params docId item))
  | _ => ret tt
  end.

Definition post_documents_with (folio_of : Body -> Db Js.value)
           (body : Body) : Db Response :=
  try_catch
    (BEGIN ;;;
     nextFolio <- folio_of body ;;
     let '(neto, tax, finalTotal) := resolve_totals body in
     docRes <- insert_document
                 (document_params body nextFolio neto tax finalTotal) ;;
     let docId := doc_id docRes in
     save_items docId body ;;;
     COMMIT ;;;
     ret (Created "Documento creado exitosamente" docRes))
    (fun e => ROLLBACK ;;; ret (Failure e)).

Definition post_documents : Body -> Db Response :=
  post_documents_with resolve_folio.

(** The older copy of the server differs in the folio statement only. *)
Definition resolve_folio_older (body : Body) : Db Js.value :=
  let nextFolio := folio body in
  if negb (Js.truthy nextFolio) then
    next_folio <- select_next_folio_older [type body] ;;
    ret (Js.Num next_folio)
  else ret nextFolio.

Definition post_documents_older : Body -> Db Response :=
  post_documents_with resolve_folio_older.

(** *** GET /api/documents *)

(** The two fragments the handler pushes onto [conditions]; [n] is the
    placeholder [$n] written into the fragment. *)
Inductive condition : Type :=
| TypeEquals (n : nat)       (* d.type = $n *)
| SearchMatches (n : nat).   (* (c.name ILIKE $n OR CAST(d.folio AS TEXT)
                                 ILIKE $n OR d.reference ILIKE $n) *)

Definition placeholder (params : list Js.value) (n : nat)
  : Pg.error + Js.value :=
  match n with
  | O => inl (Pg.InvalidText "parameters")
  | S k =>
      match nth_error params k with
      | Some v => inr v
      | None => inl (Pg.InvalidText "parameters")
      end
  end.

Definition eval_condition (params : list Js.value) (c : condition)
           (r : JoinedDocument) : Pg.error + Pg.cell bool :=
  let d := jd_doc r in
  match c with
  | TypeEquals n =>
      conv v <- placeholder params n in
      inr (match doc_type d, Pg.text_of v with
           | Some a, Some b => Some (String.eqb a b)
           | _, _ => None
           end)
  | SearchMatches n =>
      conv v <- placeholder params n in
      match Pg.text_of v with
      | None => inr None
      | Some pattern =>
          conv a <- Sql.ilike (company_name r) pattern in
          conv b <- Sql.ilike (option_map text_of_Z (doc_folio d)) pattern in
          conv c <- Sql.ilike (doc_reference d) pattern in
          inr (Sql.or3 (Sql.or3 a b) c)
      end
  end.

(** [conditions.join(' AND ')] *)
Fixpoint eval_where (params : list Js.value) (cs : list condition)
         (r : JoinedDocument) : Pg.error + Pg.cell bool :=
  match cs with
  | [] => inr (Some true)
  | c :: cs' =>
      conv a <- eval_condition params c r in
      conv b <- eval_where params cs' r in
      inr (Sql.and3 a b)
  end.

Fixpoint select_where (cond : JoinedDocument -> Pg.error + Pg.cell bool)
         (rows : list JoinedDocument) : Pg.error + list JoinedDocument :=
  match rows with
  | [] => inr []
  | r :: rows' =>
      conv keep <- cond r in
      conv rest <- select_where cond rows' in
      inr (if Sql.is_true keep then r :: rest else rest)
  end.

Definition select_documents (cs : list condition) (params : list Js.value)
  : Db (list JoinedDocument) :=
  query (fun t =>
    conv rows <- select_where (eval_where params cs)
                              (documents_join_companies t) in
    inr (order_by_id_desc rows)).

Definition with_items (t : Tables) (doc : JoinedDocument)
  : JoinedDocument * list DocumentItem :=
  (doc, select_items (Some (doc_id (jd_doc doc))) t).

Definition get_documents (type search : option string) : Db Response :=
  try_catch
    (let params : list Js.value := [] in
     let conditions : list condition := [] in
     let '(conditions, params) :=
       match type with
       | Some t =>
           if Js.truthy (Js.Str t)
           then ((conditions ++ [TypeEquals (List.length params + 1)])%list,
                 (params ++ [Js.Str t])%list)
           else (conditions, params)
       | None => (conditions, params)
       end in
     let '(conditions, params) :=
       match search with
       | Some q =>
           if Js.truthy (Js.Str q)
           then ((conditions ++ [SearchMatches (List.length params + 1)])%list,
                 (params ++ [Js.Str ("%" ++ q ++ "%")%string])%list)
           else (conditions, params)
       | None => (conditions, params)
       end in
     docs <- select_documents conditions params ;;
     items <- query (fun t => inr (map (with_items t) docs)) ;;
     ret (Listing items))
    (fun e => ret (Failure e)).

(** *** PUT /api/documents/:id/status *)

Definition put_document_status (id : string) (status : Js.value)
  : Db Response :=
  try_catch
    (update_status [status; Js.Str id] ;;;
     ret (Message "Estado actualizado"))
    (fun e => ret (Failure e)).

(** *** DELETE /api/documents/:id *)

Definition delete_document (id : string) : Db Response :=
  try_catch
    (delete_from_documents [Js.Str id] ;;;
     ret (Message "Documento eliminado correctamente"))
    (fun e => ret (Failure e)).

(** *** GET /api/documents/:id/ver *)

(** SELECT d.*, c.name as company_name, ... FROM documents d
    JOIN companies c ON d.company_id = c.id WHERE d.id = $1 *)
Definition select_document (params : list Js.value)
  : Db (list JoinedDocument) :=
  match params with
  | [p1] =>
      query (fun t =>
        conv id <- Pg.int4_in "id" p1 in
        inr (filter (fun r => Sql.eq_int (Some (doc_id (jd_doc r))) id)
                    (documents_join_companies t)))
  | _ => throw (Pg.InvalidText "parameters")
  end.

(** SELECT * FROM document_items WHERE document_id = $1 *)
Definition select_document_items (params : list Js.value)
  : Db (list DocumentItem) :=
  match params with
  | [p1] =>
      query (fun t =>
        conv id <- Pg.int4_in "document_id" p1 in
        inr (select_items id t))
  | _ => throw (Pg.InvalidText "parameters")
  end.

Definition times (a b : Pg.cell Z) : Pg.cell Z :=
  match a, b with
  | Some x, Some y => Some (x * y)
  | _, _ => None
  end.

Definition sii_line (item : DocumentItem) : SiiLine :=
  {| line_name := it_name item;
     line_quantity := it_quantity item;
     line_price := it_price item;
     line_amount := times (it_quantity item) (it_price item) |}.

Definition sii_page (doc : JoinedDocument) (items : list DocumentItem)
  : SiiPage :=
  {| page_title_folio := doc_folio (jd_doc doc);
     page_date := doc_date (jd_doc doc);
     page_folio := doc_folio (jd_doc doc);
     page_company_name := company_name doc;
     page_rut := or_text (company_rut doc) "Sin RUT";
     page_giro := or_text (company_giro doc) "Comercial";
     page_address := or_text (company_address doc) "Sin dirección";
     page_city := or_text (company_city doc) "";
     page_lines := map sii_line items;
     page_neto := doc_neto (jd_doc doc);
     page_tax := doc_tax (jd_doc doc);
     page_total := doc_total (jd_doc doc) |}.

Definition get_document_ver (id : string) : Db Response :=
  try_catch
    (docRes <- select_document [Js.Str id] ;;
     match docRes with
     | [] => ret (NotFound "Documento no encontrado")
     | doc :: _ =>
         items <- select_document_items [Js.Str id] ;;
         ret (Page (sii_page doc items))
     end)
    (fun e => ret (Failure e)).

End Handlers.

(* ================================================================== *)
(** ** Vocabulary of the statements: items and amounts *)

Definition items_of (body : Body) : list Item :=
  match items body with
  | Some l => l
  | None => []
  end.

(** [row] is what the store made of [item] when it was saved for
    document [docId]. *)
Definition item_row (docId : Z) (item : Item) (row : DocumentItem) : Prop :=
  exists id, item_of_params id (item_params docId item) = inr row.

(** The store refuses [item] whatever document it is saved for. *)
Definition item_rejected (item : Item) : Prop :=
  forall id docId row, item_of_params id (item_params docId item) <> inr row.

(** The store refuses the header row of [body] whatever folio and id it
    is given. *)
Definition header_rejected (date_ok : string -> bool) (body : Body) : Prop :=
  forall id nextFolio row,
    document_of_params date_ok id
      (document_params body nextFolio
                       (fst (fst (resolve_totals body)))
                       (snd (fst (resolve_totals body)))
                       (snd (resolve_totals body))) <> inr row.



(* ================================================================== *)
(** ** The outcomes of a creation *)

(** How POST /api/documents can end, for a folio step [folio_of]: rolled
    back, with the tables as before, or committed, with the header row and
    the item rows added. *)
Inductive outcome (date_ok : string -> bool) (folio_of : Body -> Db Js.value)
          (body : Body) (s : Store)
  : (Pg.error + Response) * Store -> Prop :=
| Rolled_back (e : Pg.error) (s' : Store) :
    tables s' = tables s ->
    at_begin s' = None ->
    outcome date_ok folio_of body s (inr (Failure e), s')
| Committed (nextFolio finalTotal : Js.value) (neto tax : Z)
            (d : Document) (rows : list DocumentItem) (s' : Store) :
    fst (folio_of body (snd (BEGIN s))) = inr nextFolio ->
    resolve_totals body = (neto, tax, finalTotal) ->
    document_of_params date_ok (documents_id_seq s)
      (document_params body nextFolio neto tax finalTotal) = inr d ->
    references_company (tables s) (doc_company_id d) = true ->
    companies (tables s') = companies (tables s) ->
    documents (tables s') = documents (tables s) ++ [d] ->
    document_items (tables s') = document_items (tables s) ++ rows ->
    Forall2 (item_row (doc_id d)) (items_of body) rows ->
    at_begin s' = None ->
    outcome date_ok folio_of body s
            (inr (Created "Documento creado exitosamente" d), s').

(* ================================================================== *)
(** ** Folios in the store *)

Definition non_null {A} (col : list (Pg.cell A)) : list A :=
  flat_map (fun c => match c with Some x => [x] | None => [] end) col.

(** The folios carried by the documents whose type is [ty]. *)
Definition folios_of_type (ty : Pg.cell string) (t : Tables) : list Z :=
  non_null
    (map doc_folio
         (filter (fun d => Sql.eq_text (doc_type d) ty) (documents t))).

(** greatest(max existing folio + 1, 6060), 6060 when there is none. *)
Definition next_after (fs : list Z) : Z :=
  match fs with
  | [] => 6060
  | f :: fs' => Z.max (fold_right Z.max f fs' + 1) 6060
  end.

(** The claim as the specification words it: a folio that is sent is the
    folio that is stored. *)
Definition sent_folio_is_stored (date_ok : string -> bool)
           (body : Body) (s : Store) : Prop :=
  forall f d s',
    folio body = Js.Num f ->
    post_documents date_ok body s
    = (inr (Created "Documento creado exitosamente" d), s') ->
    doc_folio d = Some f.

(* ================================================================== *)
(** ** Requests without the required fields *)

Definition missing_required (body : Body) : Prop :=
  Pg.text_of (type body) = None \/ Pg.text_of (company_id body) = None.

(** The claim as the specification words it: such a request is answered
    with an error and nothing is sent to the store. *)
Definition rejected_unattempted (date_ok : string -> bool)
           (body : Body) (s : Store) : Prop :=
  missing_required body ->
  exists e,
    fst (post_documents date_ok body s) = inr (Failure e) /\
    documents_id_seq (snd (post_documents date_ok body s)) = documents_id_seq s.

(* ================================================================== *)
(** ** Status updates: what stays *)

(** Every column but [status] agrees. *)
Definition same_but_status (d d' : Document) : Prop :=
  doc_id d' = doc_id d /\
  doc_type d' = doc_type d /\
  doc_folio d' = doc_folio d /\
  doc_company_id d' = doc_company_id d /\
  doc_date d' = doc_date d /\
  doc_expiration_date d' = doc_expiration_date d /\
  doc_neto d' = doc_neto d /\
  doc_tax d' = doc_tax d /\
  doc_total d' = doc_total d /\
  doc_notes d' = doc_notes d /\
  doc_payment_terms d' = doc_payment_terms d /\
  doc_delivery_time d' = doc_delivery_time d /\
  doc_warranty d' = doc_warranty d /\
  doc_reference d' = doc_reference d /\
  doc_parent_id d' = doc_parent_id d /\
  doc_driver d' = doc_driver d /\
  doc_plate d' = doc_plate d /\
  doc_dispatch_type d' = doc_dispatch_type d /\
  doc_file_url d' = doc_file_url d.

(** The document the route parameter [id] addresses. *)
Definition addressed (id : string) (d : Document) : Prop :=
  Pg.int4_in "id" (Js.Str id) = inr (Some (doc_id d)).

(* ================================================================== *)
(** ** Sequences of requests *)

Inductive request : Type :=
| PostDocuments (body : Body)
| PutDocumentStatus (id : string) (status : Js.value)
| DeleteDocument (id : string).

Definition handle (date_ok : string -> bool) (r : request) : Db Response :=
  match r with
  | PostDocuments body => post_documents date_ok body
  | PutDocumentStatus id status => put_document_status id status
  | DeleteDocument id => delete_document id
  end.

(** The requests served one after the other: the responses, in order, and
    the store at the end. *)
Fixpoint serve (date_ok : string -> bool) (rs : list request) (s : Store)
  : list (Pg.error + Response) * Store :=
  match rs with
  | [] => ([], s)
  | r :: rs' =>
      let (out, s1) := handle date_ok r s in
      let (outs, s2) := serve date_ok rs' s1 in
      (out :: outs, s2)
  end.

(** The folios handed out to documents of type [ty], in order of creation. *)
Definition created_folios (ty : string) (outs : list (Pg.error + Response))
  : list (Pg.cell Z) :=
  flat_map
    (fun out =>
       match out with
       | inr (Created _ d) =>
           if Sql.eq_text (doc_type d) (Some ty) then [doc_folio d] else []
       | _ => []
       end)
    outs.

(** The claim as the specification words it: per type, the folios in the
    store increase in creation order and no folio is ever handed out
    twice. *)
Definition folio_discipline (date_ok : string -> bool)
           (cs : list Company) (rs : list request) : Prop :=
  forall ty,
    StronglySorted Z.lt
      (folios_of_type (Some ty)
                      (tables (snd (serve date_ok rs (fresh_store cs))))) /\
    NoDup (created_folios ty (fst (serve date_ok rs (fresh_store cs)))).

(** A creation that takes the automatic folio and whose type fits the
    VARCHAR(20) column; any status update; any deletion. *)
Definition automatic (r : request) : Prop :=
  match r with
  | PostDocuments body =>
      Js.truthy (folio body) = false /\
      match Pg.text_of (type body) with
      | Some t => (String.length t <= 20)%nat
      | None => True
      end
  | _ => True
  end.

Definition folio_cell (ty : Pg.cell string) (d : Document) : list Z :=
  if Sql.eq_text (doc_type d) ty
  then match doc_folio d with Some f => [f] | None => [] end
  else [].

Definition increasing_folios (t : Tables) : Prop :=
  forall ty, StronglySorted Z.lt (folios_of_type (Some ty) t).

(* ================================================================== *)
(** ** Search: what a hit is *)

(** [needle] occurs in [hay]. *)
Definition contains (needle hay : list ascii) : Prop :=
  exists pre post, hay = pre ++ needle ++ post.

Fixpoint prefixb (p t : list ascii) : bool :=
  match p, t with
  | [], _ => true
  | c :: p', c' :: t' => Ascii.eqb c c' && prefixb p' t'
  | _ :: _, [] => false
  end.

Fixpoint containsb (needle hay : list ascii) : bool :=
  prefixb needle hay ||
  match hay with
  | [] => false
  | _ :: hay' => containsb needle hay'
  end.

(** The search term occurs, letter case aside, in a column. *)
Definition cell_contains (q : string) (c : Pg.cell string) : Prop :=
  exists t, c = Some t /\ contains (lower (chars q)) (lower (chars t)).

Definition search_hit (q : string) (r : JoinedDocument) : Prop :=
  cell_contains q (company_name r) \/
  cell_contains q (option_map text_of_Z (doc_folio (jd_doc r))) \/
  cell_contains q (doc_reference (jd_doc r)).

Definition type_matches (type : option string) (r : JoinedDocument) : Prop :=
  match type with
  | Some t => t = "" \/ doc_type (jd_doc r) = Some t
  | None => True
  end.

Definition listed (out : Pg.error + Response) (r : JoinedDocument) : Prop :=
  exists docs, out = inr (Listing docs) /\ In r (map fst docs).

(** The claim as the specification words it: with a search term, the
    documents returned are those in which the term occurs. *)
Definition search_is_substring (type : option string) (q : string)
           (s : Store) : Prop :=
  forall r,
    listed (fst (get_documents type (Some q) s)) r <->
    In r (documents_join_companies (tables s)) /\
    type_matches type r /\ search_hit q r.

(** No character of the term means something to LIKE. *)
Definition plain_char (c : ascii) : bool :=
  negb (Ascii.eqb c "%" || Ascii.eqb c "_" || Ascii.eqb c backslash).

Definition plain (q : string) : Prop := forallb plain_char (chars q) = true.

(** What the search fragment of the WHERE clause computes for a plain
    term. *)
Definition search_cell (q : string) (r : JoinedDocument) : Pg.cell bool :=
  let hit := option_map
               (fun t => containsb (lower (chars q)) (lower (chars t))) in
  Sql.or3 (Sql.or3 (hit (company_name r))
                   (hit (option_map text_of_Z (doc_folio (jd_doc r)))))
          (hit (doc_reference (jd_doc r))).

Definition type_cell (t : string) (r : JoinedDocument) : Pg.cell bool :=
  match doc_type (jd_doc r) with
  | Some a => Some (String.eqb a t)
  | None => None
  end.

(* ================================================================== *)
(** ** Worked requests *)

(** A date reader for the examples: YYYY-MM-DD. *)
Definition is_digit (c : ascii) : bool :=
  let n := nat_of_ascii c in ((48 <=? n) && (n <=? 57))%nat.

Definition iso_date (s : string) : bool :=
  match chars s with
  | [y1; y2; y3; y4; d1; m1; m2; d2; a1; a2] =>
      forallb is_digit [y1; y2; y3; y4; m1; m2; a1; a2]
      && Ascii.eqb d1 "-" && Ascii.eqb d2 "-"
  | _ => false
  end.

Definition acme : Company :=
  {| co_id := 1; co_name := Some "Acme Ltda"; co_industry := None;
     co_city := Some "Santiago"; co_address := None; co_status := None;
     co_type := Some "Cliente"; co_rut := Some "76.543.210-K";
     co_giro := None |}.

(** A request body with no field at all. *)
Definition no_fields : Body :=
  {| type := Js.Undefined; company_id := Js.Undefined; date := Js.Undefined;
     expiration_date := Js.Undefined; items := None; notes := Js.Undefined;
     payment_terms := Js.Undefined; delivery_time := Js.Undefined;
     warranty := Js.Undefined; reference := Js.Undefined;
     parent_id := Js.Undefined; status := Js.Undefined;
     driver := Js.Undefined; plate := Js.Undefined;
     dispatch_type := Js.Undefined; file_url := Js.Undefined;
     total := Js.Undefined; folio := Js.Undefined |}.

(** The usual request: type, company, date, items, and possibly a folio
    and a total. *)
Definition document_request (ty : string) (its : option (list Item))
           (fo tot : Js.value) : Body :=
  {| type := Js.Str ty; company_id := Js.Num 1; date := Js.Str "2024-05-01";
     expiration_date := Js.Undefined; items := its; notes := Js.Undefined;
     payment_terms := Js.Undefined; delivery_time := Js.Undefined;
     warranty := Js.Undefined; reference := Js.Undefined;
     parent_id := Js.Undefined; status := Js.Undefined;
     driver := Js.Undefined; plate := Js.Undefined;
     dispatch_type := Js.Undefined; file_url := Js.Undefined;
     total := tot; folio := fo |}.

Definition line (q p : Z) : Item :=
  {| product_id := Js.Undefined; name := Js.Str "Notebook";
     description := Js.Undefined; quantity := q; price := p |}.

(** The row a request without any field leaves in the table. *)
Definition null_document (id : Z) : Document :=
  {| doc_id := id; doc_type := None; doc_folio := Some 6060;
     doc_company_id := None; doc_date := None; doc_expiration_date := None;
     doc_status := Some "Emitida"; doc_neto := Some 0; doc_tax := Some 0;
     doc_total := Some 0; doc_notes := None; doc_payment_terms := None;
     doc_delivery_time := None; doc_warranty := None;
     doc_reference := Some ""; doc_parent_id := None; doc_driver := Some "";
     doc_plate := Some ""; doc_dispatch_type := Some "";
     doc_file_url := Some "" |}.

Definition store0 : Store := fresh_store [acme].

(** Two lines, 2 x 1000 and 1 x 500; the caller also sends a total of 7. *)
Definition sale : Body :=
  document_request "INV" (Some [line 2 1000; line 1 500]) Js.Undefined (Js.Num 7).

Definition sale_outcome : (Pg.error + Response) * Store :=
  Eval vm_compute in post_documents iso_date sale store0.

Definition sale_document : Document :=
  Eval vm_compute in
    match fst sale_outcome with
    | inr (Created _ d) => d
    | _ => null_document 0
    end.

Definition store1 : Store := Eval vm_compute in snd sale_outcome.

Definition sale_row : JoinedDocument := join_company sale_document acme.

(** An uploaded document: no items, total 15000. *)
Definition upload : Body :=
  document_request "INV" None Js.Undefined (Js.Num 15000).

(** The same with a folio of its own, and with a folio of 0. *)
Definition imported : Body :=
  document_request "INV" None (Js.Num 7001) (Js.Num 15000).

Definition zero_folio : Body :=
  document_request "INV" None (Js.Num 0) (Js.Num 15000).

Definition zero_folio_document : Document :=
  Eval vm_compute in
    match fst (post_documents iso_date zero_folio store0) with
    | inr (Created _ d) => d
    | _ => null_document 0
    end.

Definition imported_document : Document :=
  Eval vm_compute in
    match fst (post_documents iso_date imported store0) with
    | inr (Created _ d) => d
    | _ => null_document 0
    end.

(** A line whose price does not fit DECIMAL(12,2). *)
Definition oversized_line : Item := line 1 50000000000.

Definition broken_sale : Body :=
  document_request "INV" (Some [line 2 1000; oversized_line; line 1 500])
                   Js.Undefined Js.Undefined.

(** A type of 21 characters, the last 18 of them spaces: the column keeps
    the first 20, the folio statement compares all 21. *)
Definition padded_type : string := "INV                  ".

Definition padded : Body :=
  document_request padded_type None Js.Undefined (Js.Num 15000).

(** The sale, for a company that does not exist. *)
Definition unknown_company : Body :=
  {| type := Js.Str "INV"; company_id := Js.Num 99;
     date := Js.Str "2024-05-01"; expiration_date := Js.Undefined;
     items := Some [line 2 1000]; notes := Js.Undefined;
     payment_terms := Js.Undefined; delivery_time := Js.Undefined;
     warranty := Js.Undefined; reference := Js.Undefined;
     parent_id := Js.Undefined; status := Js.Undefined;
     driver := Js.Undefined; plate := Js.Undefined;
     dispatch_type := Js.Undefined; file_url := Js.Undefined;
     total := Js.Undefined; folio := Js.Undefined |}.

Definition create_delete_create : list request :=
  [PostDocuments upload; DeleteDocument "1"; PostDocuments upload].

Definition three_sales_one_deleted : list request :=
  [PostDocuments sale; PostDocuments upload; DeleteDocument "1";
   PutDocumentStatus "2" (Js.Str "Pagada"); PostDocuments sale].

(* ================================================================== *)
(** ** Stores that respect the keys of [initDB] *)

(** The primary and foreign keys the tables declare, and ids that came out
    of the sequence: document ids increase along the table and lie below
    the next id, every item belongs to a document of the table, every
    document with a company has that company, company ids are distinct. *)
Definition consistent (s : Store) : Prop :=
  StronglySorted Z.lt (map doc_id (documents (tables s))) /\
  Forall (fun d => doc_id d < documents_id_seq s) (documents (tables s)) /\
  Forall (fun i => references_document (tables s) (it_document_id i) = true)
         (document_items (tables s)) /\
  Forall (fun d => references_company (tables s) (doc_company_id d) = true)
         (documents (tables s)) /\
  NoDup (map co_id (companies (tables s))).

(** The ids of the documents the responses announce, in order. *)
Definition created_ids (outs : list (Pg.error + Response)) : list Z :=
  flat_map
    (fun out =>
       match out with
       | inr (Created _ d) => [doc_id d]
       | _ => []
       end)
    outs.



(** No filter: the parameter is absent or empty. *)
Definition no_filter (p : option string) : Prop := p = None \/ p = Some "".

(** Rows in the order of ORDER BY d.id DESC. *)
Definition newest_first (rows : list JoinedDocument) : Prop :=
  StronglySorted (fun a b => doc_id (jd_doc b) <= doc_id (jd_doc a)) rows.

(** COALESCE(MAX(folio), 0) + 1, the folio of the older copy. *)
Definition next_after_older (fs : list Z) : Z :=
  match fs with
  | [] => 1
  | f :: fs' => fold_right Z.max f fs' + 1
  end.

(* ================================================================== *)
(** ** The WHERE clause of the listing *)

(** A query parameter that passes [if (p)]. *)
Definition present (p : option string) : option string :=
  match p with
  | Some t => if Js.truthy (Js.Str t) then Some t else None
  | None => None
  end.

(** The conditions and the parameters GET /api/documents ends up with. *)
Definition conditions_of (type search : option string)
  : list condition * list Js.value :=
  match present type, present search with
  | Some t, Some q =>
      ([TypeEquals 1; SearchMatches 2], [Js.Str t; Js.Str ("%" ++ q ++ "%")%string])
  | Some t, None => ([TypeEquals 1], [Js.Str t])
  | None, Some q => ([SearchMatches 1], [Js.Str ("%" ++ q ++ "%")%string])
  | None, None => ([], [])
  end.

(* ================================================================== *)
(** ** Companies and contacts: tables, requests, replies *)

Record Contact : Type := {
  ct_id : Z;
  ct_company_id : Pg.cell Z;
  ct_name : Pg.cell string;
  ct_phone : Pg.cell string;
  ct_role : Pg.cell string;
  ct_next_call : Pg.cell string;
  ct_email : Pg.cell string
}.

(** The database as the handlers of companies and contacts see it: the
    store of the document handlers (which holds the companies), the
    contacts, and the SERIAL sequences of the two tables.  These handlers
    run every statement on its own, outside any transaction. *)
Record Database : Type := {
  store : Store;
  companies_id_seq : Z;
  contacts : list Contact;
  contacts_id_seq : Z
}.

(** [req.body] of POST and PUT /api/companies. *)
Module Co.
Record body : Type := {
  name : Js.value;
  industry : Js.value;
  city : Js.value;
  status : Js.value;
  address : Js.value;
  type : Js.value;
  rut : Js.value;
  giro : Js.value
}.
End Co.

(** One entry of the array POST /api/companies/import receives. *)
Module Imp.
Record entry : Type := {
  name : Js.value;
  rut : Js.value;
  giro : Js.value;
  industry : Js.value;
  city : Js.value
}.
End Imp.

(** [req.body] of POST and PUT /api/contacts. *)
Module Ct.
Record body : Type := {
  company_id : Js.value;
  name : Js.value;
  phone : Js.value;
  email : Js.value;
  role : Js.value;
  next_call : Js.value
}.
End Ct.

Inductive Reply : Type :=
| CompanyRow (row : option Company)      (* res.json(result.rows[0]) *)
| CompanyRows (rows : list Company)      (* res.json(result.rows) *)
| ContactRow (row : option Contact)
| ContactRows (rows : list Contact)
| Done (message : string)                (* res.json({ message }) *)
| Refused (status : Z) (error : string)  (* res.status(..).json({ error }) *)
| Failed (e : Pg.error).                 (* res.status(500), err.message *)

Definition Pool (A : Type) : Type := Database -> (Pg.error + A) * Database.

Definition pool_ret {A} (a : A) : Pool A := fun db => (inr a, db).

Definition pool_bind {A B} (m : Pool A) (k : A -> Pool B) : Pool B :=
  fun db =>
    match m db with
    | (inl e, db') => (inl e, db')
    | (inr a, db') => k a db'
    end.

Definition pool_try {A} (m : Pool A) (h : Pg.error -> Pool A) : Pool A :=
  fun db =>
    match m db with
    | (inl e, db') => h e db'
    | (inr a, db') => (inr a, db')
    end.

(** A handler of the documents, run on the database. *)
Definition on_store {A} (m : Db A) : Pool A :=
  fun db =>
    let (r, s) := m (store db) in
    (r, {| store := s;
           companies_id_seq := companies_id_seq db;
           contacts := contacts db;
           contacts_id_seq := contacts_id_seq db |}).

Definition with_companies (db : Database) (cs : list Company) : Database :=
  {| store :=
       with_tables (store db)
         {| companies := cs;
            documents := documents (tables (store db));
            document_items := document_items (tables (store db)) |};
     companies_id_seq := companies_id_seq db;
     contacts := contacts db;
     contacts_id_seq := contacts_id_seq db |}.

Definition with_contacts (db : Database) (cts : list Contact) : Database :=
  {| store := store db;
     companies_id_seq := companies_id_seq db;
     contacts := cts;
     contacts_id_seq := contacts_id_seq db |}.

(** ORDER BY id DESC, for any table. *)
Fixpoint insert_by_id_desc {A} (id : A -> Z) (r : A) (l : list A) : list A :=
  match l with
  | [] => [r]
  | x :: l' => if id x <? id r then r :: l else x :: insert_by_id_desc id r l'
  end.

Definition by_id_desc {A} (id : A -> Z) (l : list A) : list A :=
  fold_right (insert_by_id_desc id) [] l.

(* ================================================================== *)
(** ** Statements and handlers of companies and contacts *)

Section Directory.

(** The input function of the DATE type, as for the documents. *)
Variable date_ok : string -> bool.

(** The columns of companies, whatever the order of the statement. *)
Definition company_of_cells (id : Z)
           (name industry city address status type rut giro : Js.value)
  : Pg.error + Company :=
  conv c1 <- Pg.varchar_in 255 "name" name in
  conv c2 <- Pg.varchar_in 255 "industry" industry in
  conv c3 <- Pg.varchar_in 255 "city" city in
  conv c4 <- Pg.varchar_in 255 "address" address in
  conv c5 <- Pg.varchar_in 50 "status" status in
  conv c6 <- Pg.varchar_in 50 "type" type in
  conv c7 <- Pg.varchar_in 50 "rut" rut in
  conv c8 <- Pg.varchar_in 255 "giro" giro in
  inr {| co_id := id; co_name := c1; co_industry := c2; co_city := c3;
         co_address := c4; co_status := c5; co_type := c6; co_rut := c7;
         co_giro := c8 |}.

(** A row for the companies.  The store fits the parameters to their
    columns before it runs the statement: a value too long for its column
    is refused before an id is taken from the sequence. *)
Definition add_company (row : Pg.error + Company) : Pool Company :=
  fun db =>
    match row with
    | inl e => (inl e, db)
    | inr c =>
        (inr c,
         {| store :=
              with_tables (store db)
                {| companies := companies (tables (store db)) ++ [c];
                   documents := documents (tables (store db));
                   document_items := document_items (tables (store db)) |};
            companies_id_seq := companies_id_seq db + 1;
            contacts := contacts db;
            contacts_id_seq := contacts_id_seq db |})
    end.

(** INSERT INTO companies (name, industry, city, status, address, type,
    rut, giro) VALUES ($1, ..., $8) RETURNING * *)
Definition insert_company (params : list Js.value) : Pool Company :=
  fun db =>
    match params with
    | [p1; p2; p3; p4; p5; p6; p7; p8] =>
        add_company
          (company_of_cells (companies_id_seq db) p1 p2 p3 p5 p4 p6 p7 p8) db
    | _ => (inl (Pg.InvalidText "parameters"), db)
    end.

(** INSERT INTO companies (name, rut, giro, industry, city, type, address,
    status) VALUES ($1, ..., $8) *)
Definition insert_imported_company (params : list Js.value) : Pool Company :=
  fun db =>
    match params with
    | [p1; p2; p3; p4; p5; p6; p7; p8] =>
        add_company
          (company_of_cells (companies_id_seq db) p1 p4 p5 p7 p8 p6 p2 p3) db
    | _ => (inl (Pg.InvalidText "parameters"), db)
    end.

(** *** GET /api/companies *)

Definition get_companies (type : option string) : Pool Reply :=
  pool_try
    (fun db =>
       let rows :=
         match type with
         | Some t =>
             if Js.truthy (Js.Str t)
             then filter (fun c => Sql.eq_text (co_type c) (Some t))
                         (companies (tables (store db)))
             else companies (tables (store db))
         | None => companies (tables (store db))
         end in
       (inr (CompanyRows (by_id_desc co_id rows)), db))
    (fun e => pool_ret (Failed e)).

(** *** POST /api/companies *)

Definition post_companies (body : Co.body) : Pool Reply :=
  pool_try
    (pool_bind
       (insert_company
          [Co.name body; Co.industry body; Co.city body;
           Co.status body ||| Js.Str "Prospecto"; Co.address body ||| Js.Str "";
           Co.type body ||| Js.Str "Cliente"; Co.rut body ||| Js.Str "";
           Co.giro body ||| Js.Str ""])
       (fun row => pool_ret (CompanyRow (Some row))))
    (fun e => pool_ret (Failed e)).

(** *** PUT /api/companies/:id *)

(** UPDATE companies SET name = $1, industry = $2, city = $3, address = $4,
    type = $5, rut = $6, giro = $7 WHERE id = $8 RETURNING *: the new
    columns, once the store has read the parameters. *)
Definition company_columns
           (name industry city address type rut giro : Js.value)
  : Pg.error + (Company -> Company) :=
  conv c1 <- Pg.varchar_in 255 "name" name in
  conv c2 <- Pg.varchar_in 255 "industry" industry in
  conv c3 <- Pg.varchar_in 255 "city" city in
  conv c4 <- Pg.varchar_in 255 "address" address in
  conv c6 <- Pg.varchar_in 50 "type" type in
  conv c7 <- Pg.varchar_in 50 "rut" rut in
  conv c8 <- Pg.varchar_in 255 "giro" giro in
  inr (fun c =>
         {| co_id := co_id c; co_name := c1; co_industry := c2;
            co_city := c3; co_address := c4; co_status := co_status c;
            co_type := c6; co_rut := c7; co_giro := c8 |}).

Definition update_company (params : list Js.value) : Pool (list Company) :=
  fun db =>
    match params with
    | [p1; p2; p3; p4; p5; p6; p7; p8] =>
        match Pg.int4_in "id" p8 with
        | inl e => (inl e, db)
        | inr id =>
            let hit := fun c => Sql.eq_int (Some (co_id c)) id in
            let cs := companies (tables (store db)) in
            match company_columns p1 p2 p3 p4 p5 p6 p7 with
            | inl e => (inl e, db)
            | inr set =>
                if existsb hit cs then
                  (inr (map set (filter hit cs)),
                   with_companies db
                     (map (fun c => if hit c then set c else c) cs))
                else (inr [], db)
            end
        end
    | _ => (inl (Pg.InvalidText "parameters"), db)
    end.

Definition put_company (id : string) (body : Co.body) : Pool Reply :=
  pool_try
    (pool_bind
       (update_company
          [Co.name body; Co.industry body; Co.city body; Co.address body;
           Co.type body; Co.rut body; Co.giro body; Js.Str id])
       (fun rows => pool_ret (CompanyRow (hd_error rows))))
    (fun e => pool_ret (Failed e)).

(** *** DELETE /api/companies/:id *)

(** DELETE FROM companies WHERE id = $1: refused while a document refers
    to the company (documents.company_id REFERENCES companies(id)), and
    taking the company's contacts along (ON DELETE CASCADE). *)
Definition delete_from_companies (params : list Js.value) : Pool unit :=
  fun db =>
    match params with
    | [p1] =>
        match Pg.int4_in "id" p1 with
        | inl e => (inl e, db)
        | inr id =>
            let hit := fun c => Sql.eq_int (Some (co_id c)) id in
            let gone := filter hit (companies (tables (store db))) in
            let refers := fun (k : Pg.cell Z) =>
              existsb (fun c => Sql.eq_int k (Some (co_id c))) gone in
            if existsb (fun d => refers (doc_company_id d))
                       (documents (tables (store db)))
            then (inl (Pg.ForeignKey "company_id"), db)
            else
              (inr tt,
               with_contacts
                 (with_companies db
                    (filter (fun c => negb (hit c))
                            (companies (tables (store db)))))
                 (filter (fun ct => negb (refers (ct_company_id ct)))
                         (contacts db)))
        end
    | _ => (inl (Pg.InvalidText "parameters"), db)
    end.

Definition delete_company (id : string) : Pool Reply :=
  pool_try
    (pool_bind (delete_from_companies [Js.Str id])
               (fun _ => pool_ret (Done "Eliminado correctamente")))
    (fun e => pool_ret (Failed e)).

(** *** POST /api/companies/import *)

Definition import_params (c : Imp.entry) : list Js.value :=
  [Imp.name c; Imp.rut c; Imp.giro c; Imp.industry c; Imp.city c;
   Js.Str "Cliente"; Js.Str "Dirección pendiente"; Js.Str "Activo"].

Fixpoint import_each (cs : list Imp.entry) : Pool unit :=
  match cs with
  | [] => pool_ret tt
  | c :: cs' =>
      pool_bind (insert_imported_company (import_params c))
                (fun _ => import_each cs')
  end.

(** [companies] is [None] when the body is not an array. *)
Definition post_companies_import (companies : option (list Imp.entry))
  : Pool Reply :=
  match companies with
  | None => pool_ret (Refused 400 "Formato inválido")
  | Some cs =>
      pool_try
        (pool_bind (import_each cs)
                   (fun _ => pool_ret (Done "Importación exitosa")))
        (fun _ => pool_ret (Refused 500 "Error importando"))
  end.

(** *** Contacts *)

(** The row of a contact, once the integer and the date among the
    parameters have been read. *)
Definition contact_of_params (id : Z) (company : Pg.cell Z)
           (next_call : Pg.cell string) (name phone email role : Js.value)
  : Pg.error + Contact :=
  conv c2 <- Pg.varchar_in 100 "name" name in
  conv c3 <- Pg.varchar_in 50 "phone" phone in
  conv c4 <- Pg.varchar_in 100 "email" email in
  conv c5 <- Pg.varchar_in 100 "role" role in
  inr {| ct_id := id; ct_company_id := company; ct_name := c2;
         ct_phone := c3; ct_role := c5; ct_next_call := next_call;
         ct_email := c4 |}.

Definition next_contact_id (db : Database) : Database :=
  {| store := store db;
     companies_id_seq := companies_id_seq db;
     contacts := contacts db;
     contacts_id_seq := contacts_id_seq db + 1 |}.

(** INSERT INTO contacts (company_id, name, phone, email, role, next_call)
    VALUES ($1, ..., $6) RETURNING *, with
    company_id INTEGER REFERENCES companies(id) ON DELETE CASCADE.
    The store reads the integer and the date when it receives the
    parameters and then fits the texts to their columns; the company is
    looked up for the row, after its id has been taken from the sequence,
    and a sequence is never set back. *)
Definition insert_contact (params : list Js.value) : Pool Contact :=
  fun db =>
    match params with
    | [p1; p2; p3; p4; p5; p6] =>
        match Pg.int4_in "company_id" p1 with
        | inl e => (inl e, db)
        | inr c1 =>
            match date_in date_ok "next_call" p6 with
            | inl e => (inl e, db)
            | inr c6 =>
                match contact_of_params (contacts_id_seq db) c1 c6 p2 p3 p4 p5
                with
                | inl e => (inl e, db)
                | inr row =>
                    if references_company (tables (store db)) c1 then
                      (inr row,
                       with_contacts (next_contact_id db) (contacts db ++ [row]))
                    else (inl (Pg.ForeignKey "company_id"), next_contact_id db)
                end
            end
        end
    | _ => (inl (Pg.InvalidText "parameters"), db)
    end.

Definition post_contacts (body : Ct.body) : Pool Reply :=
  pool_try
    (pool_bind
       (insert_contact
          [Ct.company_id body; Ct.name body; Ct.phone body;
           Ct.email body ||| Js.Str ""; Ct.role body;
           Ct.next_call body ||| Js.Null])
       (fun row => pool_ret (ContactRow (Some row))))
    (fun e => pool_ret (Failed e)).

(** SELECT * FROM contacts WHERE company_id = $1 ORDER BY id DESC *)
Definition get_contacts (companyId : string) : Pool Reply :=
  pool_try
    (fun db =>
       match Pg.int4_in "company_id" (Js.Str companyId) with
       | inl e => (inl e, db)
       | inr id =>
           (inr (ContactRows
                   (by_id_desc ct_id
                      (filter (fun ct => Sql.eq_int (ct_company_id ct) id)
                              (contacts db)))), db)
       end)
    (fun e => pool_ret (Failed e)).

(** An UPDATE of contacts WHERE id = $n: [change] is the new columns, or
    the error of a value too long for its column. *)
Definition update_contacts (id : Js.value)
           (change : Pg.error + (Contact -> Contact)) : Pool unit :=
  fun db =>
    match Pg.int4_in "id" id with
    | inl e => (inl e, db)
    | inr k =>
        let hit := fun ct => Sql.eq_int (Some (ct_id ct)) k in
        match change with
        | inl e => (inl e, db)
        | inr set =>
            if existsb hit (contacts db) then
              (inr tt,
               with_contacts db
                 (map (fun ct => if hit ct then set ct else ct) (contacts db)))
            else (inr tt, db)
        end
    end.

Definition contact_details (name phone email role : Js.value)
  : Pg.error + (Contact -> Contact) :=
  conv c1 <- Pg.varchar_in 100 "name" name in
  conv c2 <- Pg.varchar_in 50 "phone" phone in
  conv c3 <- Pg.varchar_in 100 "email" email in
  conv c4 <- Pg.varchar_in 100 "role" role in
  inr (fun ct =>
         {| ct_id := ct_id ct; ct_company_id := ct_company_id ct;
            ct_name := c1; ct_phone := c2; ct_role := c4;
            ct_next_call := ct_next_call ct; ct_email := c3 |}).

Definition set_next_call (c1 : Pg.cell string) (ct : Contact) : Contact :=
  {| ct_id := ct_id ct; ct_company_id := ct_company_id ct;
     ct_name := ct_name ct; ct_phone := ct_phone ct;
     ct_role := ct_role ct; ct_next_call := c1;
     ct_email := ct_email ct |}.

(** UPDATE contacts SET name = $1, phone = $2, email = $3, role = $4
    WHERE id = $5 *)
Definition update_contact_details (params : list Js.value) : Pool unit :=
  match params with
  | [p1; p2; p3; p4; p5] => update_contacts p5 (contact_details p1 p2 p3 p4)
  | _ => fun db => (inl (Pg.InvalidText "parameters"), db)
  end.

(** UPDATE contacts SET next_call = $1 WHERE id = $2: the date is read
    when the store receives the parameters, whether a contact has the id
    or not. *)
Definition update_contact_next_call (params : list Js.value) : Pool unit :=
  match params with
  | [p1; p2] =>
      fun db =>
        match date_in date_ok "next_call" p1 with
        | inl e => (inl e, db)
        | inr c1 => update_contacts p2 (inr (set_next_call c1)) db
        end
  | _ => fun db => (inl (Pg.InvalidText "parameters"), db)
  end.

(** [v !== undefined] *)
Definition defined (v : Js.value) : bool :=
  match v with
  | Js.Undefined => false
  | _ => true
  end.

Definition put_contact (id : string) (body : Ct.body) : Pool Reply :=
  pool_try
    (pool_bind
       (if Js.truthy (Ct.name body)
        then update_contact_details
               [Ct.name body; Ct.phone body; Ct.email body; Ct.role body;
                Js.Str id]
        else pool_ret tt)
       (fun _ =>
          pool_bind
            (if defined (Ct.next_call body)
             then update_contact_next_call [Ct.next_call body; Js.Str id]
             else pool_ret tt)
            (fun _ => pool_ret (Done "Contacto actualizado"))))
    (fun e => pool_ret (Failed e)).

(** DELETE FROM contacts WHERE id = $1 *)
Definition delete_contact (id : string) : Pool Reply :=
  pool_try
    (fun db =>
       match Pg.int4_in "id" (Js.Str id) with
       | inl e => (inl e, db)
       | inr k =>
           (inr (Done "Contacto eliminado"),
            with_contacts db
              (filter (fun ct => negb (Sql.eq_int (Some (ct_id ct)) k))
                      (contacts db)))
       end)
    (fun e => pool_ret (Failed e)).

End Directory.

(* ================================================================== *)
(** ** Vocabulary for companies and contacts *)

(** The text of [v] fits a VARCHAR(n) column. *)
Definition fits (n : nat) (v : Js.value) : Prop :=
  match Pg.text_of v with
  | Some t => (String.length t <= n)%nat
  | None => True
  end.

(** The seven fields PUT /api/companies/:id writes fit their columns. *)
Definition company_fits (body : Co.body) : Prop :=
  fits 255 (Co.name body) /\ fits 255 (Co.industry body) /\
  fits 255 (Co.city body) /\ fits 255 (Co.address body) /\
  fits 50 (Co.type body) /\ fits 50 (Co.rut body) /\ fits 255 (Co.giro body).

(** The row the import statement makes of an entry. *)
Definition imported_row (id : Z) (c : Imp.entry) : Pg.error + Company :=
  company_of_cells id (Imp.name c) (Imp.industry c) (Imp.city c)
                   (Js.Str "Dirección pendiente") (Js.Str "Activo")
                   (Js.Str "Cliente") (Imp.rut c) (Imp.giro c).

Definition import_accepts (c : Imp.entry) : Prop :=
  forall id, exists row, imported_row id c = inr row.

Definition import_rejects (c : Imp.entry) : Prop :=
  forall id row, imported_row id c <> inr row.

(** What the import fixes in every row, whatever the entry says. *)
Definition imported_as_client (row : Company) : Prop :=
  co_type row = Some "Cliente" /\
  co_address row = Some "Dirección pendiente" /\
  co_status row = Some "Activo".

(** The keys of the whole database: those of the store, company and
    contact ids below the next id of their sequences, contact ids distinct,
    and every contact with its company. *)
Definition db_consistent (db : Database) : Prop :=
  consistent (store db) /\
  Forall (fun c => co_id c < companies_id_seq db)
         (companies (tables (store db))) /\
  Forall (fun ct => references_company (tables (store db)) (ct_company_id ct)
                    = true)
         (contacts db) /\
  NoDup (map ct_id (contacts db)) /\
  Forall (fun ct => ct_id ct < contacts_id_seq db) (contacts db).

(** Every request the handlers of documents, companies and contacts
    serve. *)
Inductive call : Type :=
| Documents (r : request)
| PostCompanies (body : Co.body)
| PutCompany (id : string) (body : Co.body)
| DeleteCompany (id : string)
| ImportCompanies (companies : option (list Imp.entry))
| PostContacts (body : Ct.body)
| PutContact (id : string) (body : Ct.body)
| DeleteContact (id : string).

Definition answer (date_ok : string -> bool) (c : call) (db : Database)
  : Database :=
  match c with
  | Documents r => snd (on_store (handle date_ok r) db)
  | PostCompanies body => snd (post_companies body db)
  | PutCompany id body => snd (put_company id body db)
  | DeleteCompany id => snd (delete_company id db)
  | ImportCompanies cs => snd (post_companies_import cs db)
  | PostContacts body => snd (post_contacts date_ok body db)
  | PutContact id body => snd (put_contact date_ok id body db)
  | DeleteContact id => snd (delete_contact id db)
  end.

Definition answer_all (date_ok : string -> bool) (cs : list call)
           (db : Database) : Database :=
  fold_left (fun db c => answer date_ok c db) cs db.

(** Two contacts that agree on everything but the date of the next call. *)
Definition same_but_next_call (ct ct' : Contact) : Prop :=
  ct_id ct' = ct_id ct /\
  ct_company_id ct' = ct_company_id ct /\
  ct_name ct' = ct_name ct /\
  ct_phone ct' = ct_phone ct /\
  ct_email ct' = ct_email ct /\
  ct_role ct' = ct_role ct.

(* ================================================================== *)
(** ** Worked requests to companies and contacts *)

Definition ana : Contact :=
  {| ct_id := 1; ct_company_id := Some 1; ct_name := Some "Ana Rojas";
     ct_phone := Some "+56 9 5555 0101"; ct_role := Some "Compras";
     ct_next_call := None; ct_email := Some "ana@acme.cl" |}.

(** The store after the sale, with one contact at the company. *)
Definition directory : Database :=
  {| store := store1; companies_id_seq := 2; contacts := [ana];
     contacts_id_seq := 2 |}.

(** A company of which only the name is sent. *)
Definition name_only (n : string) : Co.body :=
  {| Co.name := Js.Str n; Co.industry := Js.Undefined;
     Co.city := Js.Undefined; Co.status := Js.Undefined;
     Co.address := Js.Undefined; Co.type := Js.Undefined;
     Co.rut := Js.Undefined; Co.giro := Js.Undefined |}.

Definition beta : Company :=
  Eval vm_compute in
    match fst (post_companies (name_only "Beta SpA") directory) with
    | inr (CompanyRow (Some row)) => row
    | _ => acme
    end.

Definition renamed_acme : Company :=
  Eval vm_compute in
    match fst (put_company "1" (name_only "Acme SpA") directory) with
    | inr (CompanyRow (Some row)) => row
    | _ => acme
    end.

Definition entry (n r : string) : Imp.entry :=
  {| Imp.name := Js.Str n; Imp.rut := Js.Str r; Imp.giro := Js.Undefined;
     Imp.industry := Js.Undefined; Imp.city := Js.Undefined |}.

Definition gamma : Imp.entry := entry "Gamma Ltda" "77.111.222-3".

(** An entry whose rut does not fit VARCHAR(50). *)
Definition long_rut : Imp.entry :=
  entry "Delta Ltda"
        "rut pendiente de confirmar con el departamento de contabilidad".

Definition contact_request (company : Z) (n : Js.value) (call : Js.value)
  : Ct.body :=
  {| Ct.company_id := Js.Num company; Ct.name := n;
     Ct.phone := Js.Undefined; Ct.email := Js.Undefined;
     Ct.role := Js.Undefined; Ct.next_call := call |}.

Definition busy_day : list call :=
  [PostCompanies (name_only "Beta SpA");
   ImportCompanies (Some [gamma; long_rut; gamma]);
   PostContacts (contact_request 2 (Js.Str "Luis") (Js.Str "2024-06-01"));
   PostContacts (contact_request 99 (Js.Str "Eva") Js.Undefined);
   Documents (PostDocuments sale);
   DeleteCompany "1";
   DeleteCompany "2";
   PutCompany "3" (name_only "Gamma SpA");
   PutContact "1" (contact_request 1 (Js.Str "Ana R.") (Js.Str "tomorrow"));
   Documents (DeleteDocument "1");
   DeleteContact "1"].

(** The store after a request without any field: a document without a
    company. *)
Definition orphan_store : Store :=
  Eval vm_compute in snd (post_documents iso_date no_fields store0).

Definition sale_listing : list (JoinedDocument * list DocumentItem) :=
  Eval vm_compute in
    match fst (get_documents None None store1) with
    | inr (Listing docs) => docs
    | _ => []
    end.

(** The upload, sent to the older copy of the server. *)
Definition older_outcome : (Pg.error + Response) * Store :=
  Eval vm_compute in post_documents_older iso_date upload store0.

Definition older_document : Document :=
  Eval vm_compute in
    match fst older_outcome with
    | inr (Created _ d) => d
    | _ => null_document 0
    end.

(* ================================================================== *)
(** * Properties *)

(* ================================================================== *)
(** ** What the statements do to the store *)

Section Steps.

Variable date_ok : string -> bool.

Lemma and_then_inr {A B} (r : Pg.error + A) (k : A -> Pg.error + B) b :
  and_then r k = inr b -> exists a, r = inr a /\ k a = inr b.
Proof.
  destruct r as [e | a]; simpl; intros H; [discriminate | eauto].
Qed.

Lemma ranged_in_Num ok col n c :
  Pg.ranged_in ok col (Js.Num n) = inr c -> c = Some n /\ ok n = true.
Proof.
  unfold Pg.ranged_in; simpl.
  destruct (ok n); intros H; inversion H; auto.
Qed.


(** The row an accepted INSERT INTO documents stores, column by column. *)
Lemma document_of_params_row id body f neto tax ft d :
  document_of_params date_ok id (document_params body f neto tax ft) = inr d ->
  doc_id d = id /\
  Pg.varchar_in 20 "type" (type body) = inr (doc_type d) /\
  Pg.int4_in "folio" f = inr (doc_folio d) /\
  Pg.int4_in "company_id" (company_id body) = inr (doc_company_id d) /\
  doc_neto d = Some neto /\
  doc_tax d = Some tax /\
  Pg.numeric_in "total" ft = inr (doc_total d).
Proof.
  unfold document_params, document_of_params. intros H.
  repeat match type of H with
         | and_then _ _ = inr _ =>
             apply and_then_inr in H; destruct H as (? & ? & H)
         end.
  inversion H; subst; clear H; simpl.
  repeat match goal with
         | E : Pg.numeric_in _ (Js.Num _) = inr _ |- _ =>
             apply ranged_in_Num in E; destruct E as [-> _]
         end.
  repeat split; assumption.
Qed.

Lemma insert_document_ok params s d s' :
  insert_document date_ok params s = (inr d, s') ->
  document_of_params date_ok (documents_id_seq s) params = inr d /\
  references_company (tables s) (doc_company_id d) = true /\
  companies (tables s') = companies (tables s) /\
  documents (tables s') = documents (tables s) ++ [d] /\
  document_items (tables s') = document_items (tables s) /\
  at_begin s' = at_begin s.
Proof.
  unfold insert_document.
  destruct (document_of_params date_ok (documents_id_seq s) params) as [e | row];
    [discriminate |].
  destruct (references_company (tables s) (doc_company_id row)) eqn:Hfk;
    [| discriminate].
  intros H; inversion H; subst; simpl. repeat split; auto.
Qed.

Lemma insert_document_err params s e s' :
  insert_document date_ok params s = (inl e, s') -> s' = s.
Proof.
  unfold insert_document.
  destruct (document_of_params date_ok (documents_id_seq s) params);
    [intros H; inversion H; reflexivity |].
  destruct (references_company _ _); intros H; inversion H; reflexivity.
Qed.

Lemma insert_document_item_ok params s s' :
  insert_document_item params s = (inr tt, s') ->
  exists row,
    item_of_params (document_items_id_seq s) params = inr row /\
    companies (tables s') = companies (tables s) /\
    documents (tables s') = documents (tables s) /\
    document_items (tables s') = document_items (tables s) ++ [row] /\
    at_begin s' = at_begin s.
Proof.
  unfold insert_document_item.
  destruct (item_of_params (document_items_id_seq s) params) as [e | row];
    [discriminate |].
  destruct (references_document (tables s) (it_document_id row));
    [| discriminate].
  intros H; inversion H; subst; simpl. exists row. repeat split; auto.
Qed.

Lemma insert_document_item_err params s e s' :
  insert_document_item params s = (inl e, s') -> s' = s.
Proof.
  unfold insert_document_item.
  destruct (item_of_params (document_items_id_seq s) params);
    [intros H; inversion H; reflexivity |].
  destruct (references_document _ _); intros H; inversion H; reflexivity.
Qed.

Lemma item_of_params_document id docId item row :
  item_of_params id (item_params docId item) = inr row ->
  it_document_id row = Some docId /\
  it_quantity row = Some (quantity item) /\
  it_price row = Some (price item) /\
  it_total row = Some (quantity item * price item).
Proof.
  unfold item_params, item_of_params. intros H.
  repeat match type of H with
         | and_then _ _ = inr _ =>
             apply and_then_inr in H; destruct H as (? & ? & H)
         end.
  inversion H; subst; clear H; simpl.
  repeat match goal with
         | E : Pg.numeric_in _ (Js.Num _) = inr _ |- _ =>
             apply ranged_in_Num in E; destruct E as [-> _]
         | E : Pg.int4_in _ (Js.Num _) = inr _ |- _ =>
             apply ranged_in_Num in E; destruct E as [-> _]
         end.
  auto.
Qed.

(** Saving the items appends one row per item, in order, or stops at the
    first item the store rejects; the transaction mark is kept. *)
Lemma for_each_items docId its s r s' :
  for_each its (fun item => insert_document_item (item_params docId item)) s
  = (r, s') ->
  at_begin s' = at_begin s /\
  companies (tables s') = companies (tables s) /\
  documents (tables s') = documents (tables s) /\
  (r = inr tt ->
   exists rows,
     document_items (tables s') = document_items (tables s) ++ rows /\
     List.length rows = List.length its /\
     Forall2 (item_row docId) its rows).
Proof.
  revert s. induction its as [| item its IH]; intros s; simpl.
  - unfold ret. intros H; inversion H; subst. repeat split; auto.
    intros _. exists []. rewrite app_nil_r. auto.
  - unfold bind.
    destruct (insert_document_item (item_params docId item) s) as [[e | []] s1] eqn:E.
    + apply insert_document_item_err in E. subst s1.
      intros H; inversion H; subst. repeat split; auto. discriminate.
    + apply insert_document_item_ok in E.
      destruct E as (row & Hrow & Hc & Hd & Hi & Hb).
      intros H. apply IH in H. destruct H as (Hb' & Hc' & Hd' & Hok).
      repeat split; try congruence.
      intros ->. destruct Hok as (rows & Hrows & Hlen & Hall); [reflexivity |].
      exists (row :: rows). rewrite Hrows, Hi, <- app_assoc. simpl.
      repeat split; auto.
      constructor; auto. exists (document_items_id_seq s). exact Hrow.
Qed.

Lemma save_items_effect docId body s r s' :
  save_items docId body s = (r, s') ->
  at_begin s' = at_begin s /\
  companies (tables s') = companies (tables s) /\
  documents (tables s') = documents (tables s) /\
  (r = inr tt ->
   exists rows,
     document_items (tables s') = document_items (tables s) ++ rows /\
     List.length rows = List.length (items_of body) /\
     Forall2 (item_row docId) (items_of body) rows).
Proof.
  unfold save_items, items_of.
  destruct (items body) as [[| item its] |].
  - unfold ret; intros H; inversion H; subst. repeat split; auto.
    intros _. exists []. rewrite app_nil_r. auto.
  - apply for_each_items.
  - unfold ret; intros H; inversion H; subst. repeat split; auto.
    intros _. exists []. rewrite app_nil_r. auto.
Qed.

End Steps.

(* ================================================================== *)
(** ** The two outcomes of POST /api/documents *)

Section Outcome.

Variable date_ok : string -> bool.
Variable folio_of : Body -> Db Js.value.

(** The folio step only reads. *)
Hypothesis folio_of_reads : forall body s, snd (folio_of body s) = s.

Lemma rollback_restores s t :
  at_begin s = Some t ->
  tables (snd (ROLLBACK s)) = t /\ at_begin (snd (ROLLBACK s)) = None.
Proof. intros H. simpl. rewrite H. auto. Qed.

Lemma catch_rollback e s :
  bind ROLLBACK (fun _ => ret (Failure e)) s
  = (inr (Failure e), snd (ROLLBACK s)).
Proof. reflexivity. Qed.

Lemma post_documents_with_outcome body s :
  outcome date_ok folio_of body s (post_documents_with date_ok folio_of body s).
Proof.
  unfold post_documents_with, try_catch, bind at 1.
  set (s1 := snd (BEGIN s)).
  assert (Hs1 : BEGIN s = (inr tt, s1)) by reflexivity.
  assert (Hb1 : at_begin s1 = Some (tables s)) by reflexivity.
  assert (Ht1 : tables s1 = tables s) by reflexivity.
  assert (Hq1 : documents_id_seq s1 = documents_id_seq s) by reflexivity.
  assert (Hbegun : s1 = snd (BEGIN s)) by reflexivity.
  rewrite Hs1. clearbody s1. clear Hs1. unfold bind at 1.
  pose proof (folio_of_reads body s1) as Hrd.
  destruct (folio_of body s1) as [[e | f] s2] eqn:Ef; simpl in Hrd; subst s2.
  - rewrite catch_rollback.
    apply Rolled_back; apply (rollback_restores s1 _ Hb1).
  - destruct (resolve_totals body) as [[neto tax] ft] eqn:Et.
    unfold bind at 1.
    destruct (insert_document date_ok (document_params body f neto tax ft) s1)
      as [[e | d] s3] eqn:Ei.
    + apply insert_document_err in Ei. subst s3.
      rewrite catch_rollback.
      apply Rolled_back; apply (rollback_restores s1 _ Hb1).
    + apply insert_document_ok in Ei.
      destruct Ei as (Hrow & Hfk & Hc3 & Hd3 & Hi3 & Hb3).
      unfold bind at 1.
      destruct (save_items (doc_id d) body s3) as [[e | []] s4] eqn:Es;
        apply save_items_effect in Es;
        destruct Es as (Hb4 & Hc4 & Hd4 & Hok).
      * rewrite catch_rollback.
        assert (Hb : at_begin s4 = Some (tables s)) by congruence.
        apply Rolled_back; apply (rollback_restores s4 _ Hb).
      * destruct Hok as (rows & Hrows & _ & Hall); [reflexivity |].
        unfold bind, COMMIT, ret; simpl.
        eapply Committed with (rows := rows) (nextFolio := f);
          [ rewrite <- Hbegun, Ef; reflexivity
          | exact Et
          | rewrite <- Hq1; exact Hrow
          | rewrite <- Ht1; exact Hfk
          | simpl; congruence
          | simpl; congruence
          | simpl; congruence
          | exact Hall
          | reflexivity ].
Qed.

End Outcome.

Section Create.

Variable date_ok : string -> bool.

Lemma query_reads {A} (f : Tables -> Pg.error + A) s : snd (query f s) = s.
Proof. reflexivity. Qed.

Lemma resolve_folio_reads body s : snd (resolve_folio body s) = s.
Proof.
  unfold resolve_folio.
  destruct (negb (Js.truthy (folio body))); [| reflexivity].
  unfold bind, select_next_folio, query.
  destruct (and_then _ _); reflexivity.
Qed.

Lemma resolve_folio_older_reads body s : snd (resolve_folio_older body s) = s.
Proof.
  unfold resolve_folio_older.
  destruct (negb (Js.truthy (folio body))); [| reflexivity].
  unfold bind, select_next_folio_older, query.
  destruct (Sql.add_int4 _ _); reflexivity.
Qed.

Lemma post_documents_outcome body s :
  outcome date_ok resolve_folio body s (post_documents date_ok body s).
Proof.
  apply post_documents_with_outcome, resolve_folio_reads.
Qed.

End Create.

(** A run that answered [Created] went through every step: the facts of
    the [Committed] outcome, under fixed names. *)
Ltac committed Hrun :=
  match type of Hrun with
  | post_documents ?date_ok ?body ?s = _ =>
      let H := fresh "H" in
      pose proof (post_documents_outcome date_ok body s) as H;
      rewrite Hrun in H;
      inversion H as [| f ft neto tax d' rows s''
                        Hf Htot Hrow Hfk Hc Hd Hi Hall Hb];
      subst; clear H
  end.

(* ================================================================== *)
(** ** Totals *)







Section CreationProperties.

Variable date_ok : string -> bool.

(** C3.  POST /api/documents is all or nothing.  Whatever step fails
    (the folio statement, the header insert, the insert of the item at any
    position), the tables are afterwards exactly the tables before the
    request: no header row and no item row of the attempt remains.  When it
    succeeds, exactly one document row and one item row per entry of
    [items], each owned by the new document, have been added.  A request
    whose header the store refuses, or one of whose items it refuses,
    always ends in the failure outcome. *)
Theorem creation_all_or_nothing (body : Body) (s : Store) :
  let r := post_documents date_ok body s in
  ((exists e, fst r = inr (Failure e) /\ tables (snd r) = tables s) \/
   (exists d rows,
       fst r = inr (Created "Documento creado exitosamente" d) /\
       companies (tables (snd r)) = companies (tables s) /\
       documents (tables (snd r)) = documents (tables s) ++ [d] /\
       document_items (tables (snd r)) = document_items (tables s) ++ rows /\
       List.length rows = List.length (items_of body) /\
       Forall (fun row => it_document_id row = Some (doc_id d)) rows)) /\
  (header_rejected date_ok body ->
   exists e, fst r = inr (Failure e) /\ tables (snd r) = tables s) /\
  (forall item,
      In item (items_of body) -> item_rejected item ->
      exists e, fst r = inr (Failure e) /\ tables (snd r) = tables s).
Proof.
  intros r.
  pose proof (post_documents_outcome date_ok body s) as H.
  fold r in H. clearbody r.
  inversion H as [e s' Ht Hb Heq
                 | f ft neto tax d rows s' Hf Htot Hrow Hfk Hc Hd Hi Hall Hb Heq];
    subst r; simpl.
  - split; [left | split]; eauto.
  - split; [| split].
    + right. exists d, rows. repeat split; auto.
      * symmetry. eapply Forall2_length; eauto.
      * clear - Hall. induction Hall as [| item row its rows' Hr _ IH];
          constructor; auto.
        destruct Hr as (id & Hr).
        apply item_of_params_document in Hr. tauto.
    + intros Hrej. exfalso.
      apply (Hrej (documents_id_seq s) f d).
      rewrite Htot. exact Hrow.
    + intros item Hin Hrej. exfalso.
      clear - Hall Hin Hrej.
      induction Hall as [| item' row its rows' Hr _ IH]; simpl in Hin; [tauto |].
      destruct Hin as [-> | Hin]; [| auto].
      destruct Hr as (id & Hr). exact (Hrej _ _ _ Hr).
Qed.


End CreationProperties.

(* ================================================================== *)
(** ** Folios *)

Lemma sql_max_non_null (col : list (Pg.cell Z)) :
  match non_null col with
  | [] => Sql.max col = None
  | f :: fs => Sql.max col = Some (fold_right Z.max f fs)
  end.
Proof.
  induction col as [| [x |] col IH]; simpl; auto.
  destruct (non_null col) as [| f fs]; rewrite IH; simpl; [reflexivity |].
  f_equal. clear. induction fs as [| g fs IH]; simpl in *; lia.
Qed.

Lemma fold_max_bounds (f : Z) (fs : list Z) :
  let m := fold_right Z.max f fs in
  In m (f :: fs) /\ Forall (fun x => x <= m) (f :: fs).
Proof.
  revert f. induction fs as [| g fs IH]; intros f; cbv zeta.
  - simpl. split; [auto | repeat constructor; lia].
  - change (fold_right Z.max f (g :: fs)) with (Z.max g (fold_right Z.max f fs)).
    destruct (IH f) as [Hin Hall].
    set (m := fold_right Z.max f fs) in *.
    inversion Hall as [| ? ? Hf Hfs]; subst.
    split.
    + destruct (Z.max_spec g m) as [[_ ->] | [_ ->]].
      * destruct Hin as [<- | Hin]; [left; reflexivity | right; right; exact Hin].
      * right; left; reflexivity.
    + constructor; [lia |]. constructor; [lia |].
      eapply Forall_impl; [| exact Hfs]. simpl. intros; lia.
Qed.

(** [next_after fs] is the one number that is at least 6060, above every
    folio of [fs], and either 6060 or the successor of a folio of [fs]. *)
Lemma next_after_spec (fs : list Z) :
  let n := next_after fs in
  6060 <= n /\ Forall (fun f => f < n) fs /\ (n = 6060 \/ In (n - 1) fs).
Proof.
  destruct fs as [| f fs]; cbv zeta; unfold next_after.
  - repeat split; [lia | constructor | left; reflexivity].
  - destruct (fold_max_bounds f fs) as [Hin Hall].
    set (m := fold_right Z.max f fs) in *.
    repeat split; [lia | |].
    + eapply Forall_impl; [| exact Hall]. simpl. intros; lia.
    + destruct (Z.max_spec (m + 1) 6060) as [[_ ->] | [_ ->]]; [left; reflexivity |].
      right. replace (m + 1 - 1) with m by lia. exact Hin.
Qed.

Section Folio.

Variable date_ok : string -> bool.

(** What the folio statement returns. *)
Lemma select_next_folio_value (ty : Js.value) (s : Store) (n : Z) :
  fst (select_next_folio [ty] s) = inr n ->
  n = next_after (folios_of_type (Pg.text_of ty) (tables s)).
Proof.
  unfold select_next_folio, query, folios_of_type. simpl.
  set (rows := filter _ _).
  pose proof (sql_max_non_null (map doc_folio rows)) as Hmax.
  unfold Sql.add_int4, Sql.greatest, next_after.
  destruct (non_null (map doc_folio rows)) as [| f fs]; rewrite Hmax;
    unfold Sql.coalesce, and_then.
    all: destruct (Pg.in_int4 _); intros H; [injection H as <-; reflexivity | discriminate H].
Qed.

Lemma resolve_folio_falsy body s f :
  Js.truthy (folio body) = false ->
  fst (resolve_folio body s) = inr f ->
  f = Js.Num (next_after (folios_of_type (Pg.text_of (type body)) (tables s))).
Proof.
  unfold resolve_folio. intros ->. cbn [negb]. unfold bind.
  destruct (select_next_folio [type body] s) as [[e | n] s1] eqn:E;
    cbn [fst ret]; [discriminate |].
  intros H; inversion H; subst. f_equal.
  apply select_next_folio_value. rewrite E. reflexivity.
Qed.

Lemma resolve_folio_truthy body s :
  Js.truthy (folio body) = true ->
  resolve_folio body s = (inr (folio body), s).
Proof. unfold resolve_folio. intros ->. reflexivity. Qed.

(** The folio a created document carries when the request's [folio] is not
    truthy. *)
Lemma allocated_folio body s d s' :
  Js.truthy (folio body) = false ->
  post_documents date_ok body s
  = (inr (Created "Documento creado exitosamente" d), s') ->
  doc_folio d
  = Some (next_after (folios_of_type (Pg.text_of (type body)) (tables s))).
Proof.
  intros Hfalsy Hrun.
  committed Hrun.
  apply (resolve_folio_falsy _ _ _ Hfalsy) in Hf. subst f.
  apply document_of_params_row in Hrow.
  destruct Hrow as (_ & _ & Hfo & _).
  apply ranged_in_Num in Hfo. destruct Hfo as [-> _]. reflexivity.
Qed.

(** C2.  A request that carries no [folio] gets
    greatest(max existing folio of its type + 1, 6060): a folio that is at
    least 6060, above every folio of the type in the store, and either 6060
    or the successor of one of them; with no document of the type it is
    exactly 6060. *)
Theorem automatic_folio (body : Body) (s : Store) (d : Document) (s' : Store) :
  folio body = Js.Undefined ->
  post_documents date_ok body s
  = (inr (Created "Documento creado exitosamente" d), s') ->
  let fs := folios_of_type (Pg.text_of (type body)) (tables s) in
  exists n,
    doc_folio d = Some n /\
    n = next_after fs /\
    6060 <= n /\
    Forall (fun f => f < n) fs /\
    (n = 6060 \/ In (n - 1) fs) /\
    (fs = [] -> n = 6060).
Proof.
  intros Hno Hrun fs.
  assert (Hfalsy : Js.truthy (folio body) = false) by (rewrite Hno; reflexivity).
  exists (next_after fs). split; [exact (allocated_folio _ _ _ _ Hfalsy Hrun) |].
  destruct (next_after_spec fs) as (H1 & H2 & H3).
  repeat split; auto.
  intros ->. reflexivity.
Qed.

(** C10.  A [folio] that is sent but falsy (0, the empty string, null) is
    not used: the request takes the automatic path and the document gets
    greatest(max existing folio of its type + 1, 6060), which is at least
    6060 and so differs from a supplied 0. *)
Theorem falsy_folio_is_allocated
        (body : Body) (s : Store) (d : Document) (s' : Store) :
  folio body = Js.Num 0 \/ folio body = Js.Str "" \/ folio body = Js.Null ->
  post_documents date_ok body s
  = (inr (Created "Documento creado exitosamente" d), s') ->
  let fs := folios_of_type (Pg.text_of (type body)) (tables s) in
  doc_folio d = Some (next_after fs) /\
  6060 <= next_after fs /\
  Forall (fun f => f < next_after fs) fs /\
  doc_folio d <> Some 0.
Proof.
  intros Hsent Hrun fs.
  assert (Hfalsy : Js.truthy (folio body) = false)
    by (destruct Hsent as [-> | [-> | ->]]; reflexivity).
  pose proof (allocated_folio _ _ _ _ Hfalsy Hrun) as Hd. fold fs in Hd.
  destruct (next_after_spec fs) as (H1 & H2 & _).
  repeat split; auto.
  rewrite Hd. intros E. inversion E. lia.
Qed.

End Folio.

(* ================================================================== *)
(** ** Requests with a folio of their own *)

Lemma item_of_params_any_id (id id' : Z) (p : list Js.value) :
  match item_of_params id p, item_of_params id' p with
  | inl e, inl e' => e = e'
  | inr r, inr r' => it_document_id r = it_document_id r'
  | _, _ => False
  end.
Proof.
  unfold item_of_params.
  do 7 (destruct p as [| ? p]; [simpl; reflexivity |]).
  destruct p; [| simpl; reflexivity].
  repeat match goal with
         | |- context [and_then ?r _] => destruct r; simpl; auto
         end.
Qed.

Lemma for_each_items_response docId its sa sb :
  references_document (tables sa) (Some docId) = true ->
  references_document (tables sb) (Some docId) = true ->
  fst (for_each its (fun item => insert_document_item (item_params docId item)) sa)
  = fst (for_each its (fun item => insert_document_item (item_params docId item)) sb).
Proof.
  revert sa sb. induction its as [| item its IH]; intros sa sb Ha Hb; simpl.
  - reflexivity.
  - unfold bind, insert_document_item.
    pose proof (item_of_params_any_id (document_items_id_seq sa)
                  (document_items_id_seq sb) (item_params docId item)) as Hid.
    destruct (item_of_params (document_items_id_seq sa) (item_params docId item))
      as [ea | ra] eqn:Ea;
      destruct (item_of_params (document_items_id_seq sb) (item_params docId item))
      as [eb | rb] eqn:Eb; try contradiction.
    + subst. reflexivity.
    + apply item_of_params_document in Ea. destruct Ea as (Ea & _).
      apply item_of_params_document in Eb. destruct Eb as (Eb & _).
      rewrite Ea, Eb, Ha, Hb.
      apply IH; simpl; assumption.
Qed.

Lemma references_new_document cs ds its (d : Document) :
  references_document
    {| companies := cs; documents := ds ++ [d]; document_items := its |}
    (Some (doc_id d)) = true.
Proof.
  simpl. rewrite existsb_app. simpl. rewrite Z.eqb_refl.
  rewrite orb_true_r. reflexivity.
Qed.

Section Response.

Variable date_ok : string -> bool.
Variable folio_of : Body -> Db Js.value.

(** The response alone, step by step. *)
Lemma post_documents_with_response body s :
  fst (post_documents_with date_ok folio_of body s)
  = match folio_of body (snd (BEGIN s)) with
    | (inl e, _) => inr (Failure e)
    | (inr nextFolio, s2) =>
        let '(neto, tax, finalTotal) := resolve_totals body in
        match insert_document date_ok
                (document_params body nextFolio neto tax finalTotal) s2 with
        | (inl e, _) => inr (Failure e)
        | (inr d, s3) =>
            match fst (save_items (doc_id d) body s3) with
            | inl e => inr (Failure e)
            | inr _ => inr (Created "Documento creado exitosamente" d)
            end
        end
    end.
Proof.
  remember (snd (BEGIN s)) as s1 eqn:E1.
  unfold post_documents_with, try_catch, bind at 1.
  replace (BEGIN s) with (inr tt : Pg.error + unit, s1) by (subst; reflexivity).
  cbv iota. unfold bind at 1.
  destruct (folio_of body s1) as [[e | f] s2]; [reflexivity |].
  destruct (resolve_totals body) as [[neto tax] ft].
  unfold bind at 1.
  destruct (insert_document date_ok (document_params body f neto tax ft) s2)
    as [[e | d] s3]; [reflexivity |].
  unfold bind at 1.
  destruct (save_items (doc_id d) body s3) as [[e | u] s4]; reflexivity.
Qed.

End Response.

Section ExplicitFolio.

Variable date_ok : string -> bool.

(** C5, amended.  A [folio] that is sent and truthy (a number other than
    0, a non-empty string) reaches the INSERT unchanged: the stored folio is
    that value as the INTEGER column reads it, the number itself for a
    number.  No folio is allocated and nothing is compared with the folios
    in the store: the response depends on the companies and on the next
    document id only, not on the documents already there. *)
Theorem truthy_folio_is_stored (body : Body) (s : Store) :
  Js.truthy (folio body) = true ->
  (forall d s',
      post_documents date_ok body s
      = (inr (Created "Documento creado exitosamente" d), s') ->
      Pg.int4_in "folio" (folio body) = inr (doc_folio d) /\
      (forall f, folio body = Js.Num f -> doc_folio d = Some f)) /\
  (forall s2,
      companies (tables s2) = companies (tables s) ->
      documents_id_seq s2 = documents_id_seq s ->
      fst (post_documents date_ok body s2) = fst (post_documents date_ok body s)).
Proof.
  intros Htruthy. split.
  - intros d s' Hrun.
    committed Hrun.
    rewrite (resolve_folio_truthy _ _ Htruthy) in Hf. simpl in Hf.
    inversion Hf; subst f.
    apply document_of_params_row in Hrow.
    destruct Hrow as (_ & _ & Hfo & _).
    split; [exact Hfo |].
    intros f Ef. rewrite Ef in Hfo.
    apply ranged_in_Num in Hfo. tauto.
  - intros s2 Hco Hseq.
    unfold post_documents. rewrite !post_documents_with_response.
    rewrite !(resolve_folio_truthy _ _ Htruthy).
    destruct (resolve_totals body) as [[neto tax] ft].
    unfold insert_document.
    change (documents_id_seq (snd (BEGIN s2))) with (documents_id_seq s2).
    change (documents_id_seq (snd (BEGIN s))) with (documents_id_seq s).
    change (tables (snd (BEGIN s2))) with (tables s2).
    change (tables (snd (BEGIN s))) with (tables s).
    rewrite Hseq.
    destruct (document_of_params date_ok (documents_id_seq s)
                (document_params body (folio body) neto tax ft)) as [e | d];
      [reflexivity |].
    unfold references_company. rewrite Hco.
    match goal with
    | |- context [if ?c then _ else _] => destruct c; [| reflexivity]
    end.
    cbv beta iota. unfold save_items.
    destruct (items body) as [[| item its] |]; try reflexivity.
    match goal with
    | |- match fst (for_each ?l ?f ?A) with _ => _ end
         = match fst (for_each _ _ ?B) with _ => _ end =>
        replace (fst (for_each l f A)) with (fst (for_each l f B));
        [ reflexivity
        | apply for_each_items_response; apply references_new_document ]
    end.
Qed.

End ExplicitFolio.

(* ================================================================== *)
(** ** Requests without the required fields *)

Lemma folios_of_null_type (t : Tables) : folios_of_type None t = [].
Proof.
  unfold folios_of_type.
  replace (filter (fun d => Sql.eq_text (doc_type d) None) (documents t))
    with (@nil Document); [reflexivity |].
  induction (documents t) as [| d ds IH]; simpl; [reflexivity |].
  destruct (doc_type d); simpl; exact IH.
Qed.

Lemma select_next_folio_null_type (v : Js.value) (s : Store) :
  Pg.text_of v = None -> select_next_folio [v] s = (inr 6060, s).
Proof.
  intros Hv. unfold select_next_folio, query. rewrite Hv.
  pose proof (folios_of_null_type (tables s)) as Hnone.
  unfold folios_of_type in Hnone.
  pose proof (sql_max_non_null
                (map doc_folio
                     (filter (fun d => Sql.eq_text (doc_type d) None)
                             (documents (tables s))))) as Hmax.
  rewrite Hnone in Hmax. rewrite Hmax. reflexivity.
Qed.

Section MissingFields.

Variable date_ok : string -> bool.

Lemma no_fields_response (s : Store) :
  fst (post_documents date_ok no_fields s)
  = inr (Created "Documento creado exitosamente"
                 (null_document (documents_id_seq s))).
Proof.
  unfold post_documents. rewrite post_documents_with_response.
  unfold resolve_folio. cbn [folio no_fields Js.truthy negb type].
  unfold bind. rewrite select_next_folio_null_type by reflexivity.
  reflexivity.
Qed.

(** C6, amended.  The handler validates nothing.  A request without
    [type] or without [company_id] runs the same sequence as any other and
    the missing field is stored as NULL; without a type no row matches the
    folio statement, so an automatic folio is 6060.  A request with no
    field at all is accepted on every store and adds its row. *)
Theorem missing_fields_are_stored_as_null :
  (forall body s d s',
      post_documents date_ok body s
      = (inr (Created "Documento creado exitosamente" d), s') ->
      (Pg.text_of (type body) = None ->
       doc_type d = None /\
       (Js.truthy (folio body) = false -> doc_folio d = Some 6060)) /\
      (Pg.text_of (company_id body) = None -> doc_company_id d = None)) /\
  (forall s,
      let r := post_documents date_ok no_fields s in
      fst r = inr (Created "Documento creado exitosamente"
                           (null_document (documents_id_seq s))) /\
      documents (tables (snd r))
      = documents (tables s) ++ [null_document (documents_id_seq s)]).
Proof.
  split.
  - intros body s d s' Hrun.
    committed Hrun.
    apply document_of_params_row in Hrow.
    destruct Hrow as (_ & Hty & _ & Hco & _).
    split.
    + intros Hnone. split.
      * unfold Pg.varchar_in in Hty. rewrite Hnone in Hty.
        inversion Hty. reflexivity.
      * intros Hfalsy.
        rewrite (allocated_folio date_ok _ _ _ _ Hfalsy Hrun), Hnone, folios_of_null_type.
        reflexivity.
    + intros Hnone. unfold Pg.int4_in, Pg.ranged_in in Hco.
      rewrite Hnone in Hco. inversion Hco. reflexivity.
  - intros s r. pose proof (no_fields_response s) as Hresp. fold r in Hresp.
    split; [exact Hresp |].
    pose proof (post_documents_outcome date_ok no_fields s) as H. fold r in H.
    clearbody r.
    inversion H as [e s' Ht Hb Heq
                   | f ft neto tax d rows s' Hf Htot Hrow Hfk Hc Hd Hi Hall Hb Heq];
      subst r; simpl in *; [discriminate |].
    inversion Hresp; subst d. exact Hd.
Qed.

End MissingFields.

(* ================================================================== *)
(** ** Status updates *)

Lemma same_but_status_refl d : same_but_status d d.
Proof. unfold same_but_status. repeat split. Qed.

Lemma same_but_status_set d st : same_but_status d (set_status d st).
Proof. unfold same_but_status. simpl. repeat split. Qed.

Lemma hit_addressed id c d :
  Pg.int4_in "id" (Js.Str id) = inr c ->
  Sql.eq_int (Some (doc_id d)) c = true -> addressed id d.
Proof.
  intros Hc Hhit. unfold addressed. rewrite Hc.
  destruct c as [n |]; simpl in Hhit; [| discriminate].
  apply Z.eqb_eq in Hhit. subst. reflexivity.
Qed.

(** C9.  PUT /api/documents/:id/status leaves the companies, the items
    and the sequences alone, keeps the documents in place, and changes in
    no document any column but [status]: folio, type, company_id, neto, tax,
    total and the rest are as before.  A document the id does not address
    is unchanged altogether. *)
Theorem status_update_changes_status_only
        (id : string) (status : Js.value) (s : Store) :
  let s' := snd (put_document_status id status s) in
  companies (tables s') = companies (tables s) /\
  document_items (tables s') = document_items (tables s) /\
  documents_id_seq s' = documents_id_seq s /\
  document_items_id_seq s' = document_items_id_seq s /\
  Forall2 (fun d d' => same_but_status d d' /\ (~ addressed id d -> d' = d))
          (documents (tables s)) (documents (tables s')).
Proof.
  assert (Hsame : forall ds : list Document,
             Forall2 (fun d d' => same_but_status d d' /\ (~ addressed id d -> d' = d))
                     ds ds).
  { induction ds; constructor; auto. split; [apply same_but_status_refl | auto]. }
  unfold put_document_status, try_catch, bind, update_status.
  destruct (Pg.int4_in "id" (Js.Str id)) as [e | c] eqn:Ec; simpl.
  { repeat split; auto. }
  destruct (existsb _ _); simpl; [| repeat split; auto].
  destruct (Pg.varchar_in 50 "status" status) as [e | st]; simpl.
  { repeat split; auto. }
  repeat split; auto.
  induction (documents (tables s)) as [| d ds IH]; simpl; constructor; auto.
  match goal with
  | |- context [if ?b then set_status _ _ else _] => destruct b eqn:Hhit
  end.
  - split; [apply same_but_status_set |].
    intros Hnot. exfalso. apply Hnot. exact (hit_addressed id c d Ec Hhit).
  - split; [apply same_but_status_refl | auto].
Qed.

(* ================================================================== *)
(** ** The rendered view *)

Lemma no_joined_row (n : Z) (t : Tables) :
  (forall d, In d (documents t) -> doc_id d <> n) ->
  filter (fun r => Sql.eq_int (Some (doc_id (jd_doc r))) (Some n))
         (documents_join_companies t) = [].
Proof.
  intros Hno. unfold documents_join_companies.
  induction (documents t) as [| d ds IH]; [reflexivity |].
  cbn [flat_map]. rewrite filter_app.
  rewrite IH by (intros; apply Hno; right; assumption).
  rewrite app_nil_r.
  assert (Hd : doc_id d <> n) by (apply Hno; left; reflexivity).
  induction (filter _ (companies t)) as [| c cs IHc]; [reflexivity |].
  cbn [map filter join_company jd_doc]. unfold Sql.eq_int at 1.
  destruct (Z.eqb_spec (doc_id d) n); [contradiction | exact IHc].
Qed.


(* ================================================================== *)
(** ** Sequences of requests *)

Lemma folios_of_type_cells ty t :
  folios_of_type ty t = flat_map (folio_cell ty) (documents t).
Proof.
  unfold folios_of_type, non_null, folio_cell.
  induction (documents t) as [| d ds IH]; simpl; [reflexivity |].
  destruct (Sql.eq_text (doc_type d) ty); simpl; rewrite IH; reflexivity.
Qed.

Lemma StronglySorted_app_iff {A} (R : A -> A -> Prop) (l1 l2 : list A) :
  StronglySorted R (l1 ++ l2) <->
  StronglySorted R l1 /\ StronglySorted R l2 /\
  (forall x y, In x l1 -> In y l2 -> R x y).
Proof.
  induction l1 as [| a l1 IH]; simpl.
  - split.
    + intros H. repeat split; [constructor | exact H | tauto].
    + tauto.
  - split.
    + intros H. apply StronglySorted_inv in H. destruct H as [Hs Hall].
      apply IH in Hs. destruct Hs as (H1 & H2 & H12).
      rewrite Forall_app in Hall. destruct Hall as [Ha1 Ha2].
      repeat split; [constructor; assumption | assumption |].
      intros x y [<- | Hx] Hy; [| auto].
      rewrite Forall_forall in Ha2. auto.
    + intros (H1 & H2 & H12).
      apply StronglySorted_inv in H1. destruct H1 as [Hs Hall].
      constructor.
      * apply IH. repeat split; auto.
      * rewrite Forall_app. split; [assumption |].
        rewrite Forall_forall. auto.
Qed.

Lemma StronglySorted_lt_NoDup (l : list Z) : StronglySorted Z.lt l -> NoDup l.
Proof.
  induction 1 as [| a l Hs IH Hall]; constructor; auto.
  intros Hin. rewrite Forall_forall in Hall. specialize (Hall a Hin). lia.
Qed.

(** Removing documents keeps the remaining folios in order. *)
Lemma increasing_after_filter ty (keep : Document -> bool) (ds : list Document) :
  StronglySorted Z.lt (flat_map (folio_cell ty) ds) ->
  StronglySorted Z.lt (flat_map (folio_cell ty) (filter keep ds)).
Proof.
  induction ds as [| d ds IH]; simpl; [auto |].
  intros H. apply StronglySorted_app_iff in H. destruct H as (H1 & H2 & H12).
  destruct (keep d); simpl; [| auto].
  apply StronglySorted_app_iff. repeat split; auto.
  intros x y Hx Hy. apply H12; [assumption |].
  rewrite in_flat_map in *. destruct Hy as (d' & Hd' & Hy).
  exists d'. split; [| assumption].
  apply filter_In in Hd'. tauto.
Qed.

Lemma folio_cell_set_status ty d st :
  folio_cell ty (set_status d st) = folio_cell ty d.
Proof. reflexivity. Qed.

Lemma varchar_in_fits n col v c :
  match Pg.text_of v with
  | Some t => (String.length t <= n)%nat
  | None => True
  end ->
  Pg.varchar_in n col v = inr c -> c = Pg.text_of v.
Proof.
  unfold Pg.varchar_in. destruct (Pg.text_of v) as [t |].
  - intros Hfit. apply Nat.leb_le in Hfit. rewrite Hfit.
    intros H; inversion H; reflexivity.
  - intros _ H; inversion H; reflexivity.
Qed.

Section Discipline.

Variable date_ok : string -> bool.

Lemma put_document_status_tables id status s ty :
  folios_of_type ty (tables (snd (put_document_status id status s)))
  = folios_of_type ty (tables s).
Proof.
  unfold put_document_status, try_catch, bind, update_status.
  destruct (Pg.int4_in "id" (Js.Str id)) as [e | c]; simpl; [reflexivity |].
  destruct (existsb _ _); simpl; [| reflexivity].
  destruct (Pg.varchar_in 50 "status" status) as [e | st]; simpl;
    [reflexivity |].
  rewrite !folios_of_type_cells. simpl.
  induction (documents (tables s)) as [| d ds IH]; simpl; [reflexivity |].
  rewrite IH. f_equal.
  match goal with
  | |- context [if ?b then set_status _ _ else _] => destruct b
  end; reflexivity.
Qed.

Lemma delete_document_increasing id s :
  increasing_folios (tables s) ->
  increasing_folios (tables (snd (delete_document id s))).
Proof.
  intros Hinv ty. specialize (Hinv ty).
  unfold delete_document, try_catch, bind, delete_from_documents.
  destruct (Pg.int4_in "id" (Js.Str id)) as [e | c]; simpl; [exact Hinv |].
  rewrite folios_of_type_cells in *. simpl.
  apply increasing_after_filter. exact Hinv.
Qed.

Lemma post_documents_increasing body s :
  automatic (PostDocuments body) ->
  increasing_folios (tables s) ->
  increasing_folios (tables (snd (post_documents date_ok body s))).
Proof.
  intros [Hfalsy Hfits] Hinv ty.
  pose proof (post_documents_outcome date_ok body s) as H.
  destruct (post_documents date_ok body s) as [out s'] eqn:Hrun.
  inversion H as [e s0 Ht Hb
                 | f ft neto tax d rows s0 Hf Htot Hrow Hfk Hc Hd Hi Hall Hb];
    subst; simpl.
  - unfold folios_of_type. rewrite Ht. apply Hinv.
  - pose proof (allocated_folio date_ok body s d s' Hfalsy Hrun) as Hfolio.
    apply document_of_params_row in Hrow.
    destruct Hrow as (_ & Hty & _).
    apply (varchar_in_fits _ _ _ _ Hfits) in Hty.
    rewrite folios_of_type_cells, Hd, flat_map_app.
    apply StronglySorted_app_iff.
    rewrite <- folios_of_type_cells.
    split; [apply Hinv |].
    simpl. rewrite app_nil_r. unfold folio_cell.
    destruct (Sql.eq_text (doc_type d) (Some ty)) eqn:Eqt;
      [| repeat split; [constructor | intros x y _ []]].
    rewrite Hfolio. split; [repeat constructor |].
    intros x y Hx [<- | []].
    assert (Hsame : Pg.text_of (type body) = Some ty).
    { rewrite <- Hty. destruct (doc_type d) as [t |]; simpl in Eqt;
        [| discriminate].
      apply String.eqb_eq in Eqt. subst. reflexivity. }
    rewrite Hsame.
    destruct (next_after_spec (folios_of_type (Some ty) (tables s)))
      as (_ & Hall' & _).
    rewrite Forall_forall in Hall'. auto.
Qed.

Lemma handle_increasing r s :
  automatic r ->
  increasing_folios (tables s) ->
  increasing_folios (tables (snd (handle date_ok r s))).
Proof.
  destruct r as [body | id status | id]; simpl; intros Hauto Hinv.
  - apply post_documents_increasing; assumption.
  - intros ty. rewrite put_document_status_tables. apply Hinv.
  - apply delete_document_increasing; assumption.
Qed.

Lemma serve_increasing rs s :
  Forall automatic rs ->
  increasing_folios (tables s) ->
  increasing_folios (tables (snd (serve date_ok rs s))).
Proof.
  revert s. induction rs as [| r rs IH]; intros s Hall Hinv; simpl.
  - exact Hinv.
  - inversion Hall as [| ? ? Hr Hrs]; subst.
    pose proof (handle_increasing r s Hr Hinv) as H1.
    destruct (handle date_ok r s) as [out s1]. simpl in H1.
    specialize (IH s1 Hrs H1).
    destruct (serve date_ok rs s1) as [outs s2]. exact IH.
Qed.

(** C4, amended.  Starting without documents and serving, one after the
    other, creations that take the automatic folio (for types that fit the
    20 characters of the column), status updates and deletions, the folios
    of the documents of each type that are in the store are strictly
    increasing in creation order, hence pairwise distinct. *)
Theorem automatic_folios_increase (cs : list Company) (rs : list request) :
  Forall automatic rs ->
  forall ty,
    let fs := folios_of_type (Some ty)
                (tables (snd (serve date_ok rs (fresh_store cs)))) in
    StronglySorted Z.lt fs /\ NoDup fs.
Proof.
  intros Hauto ty fs.
  assert (H : StronglySorted Z.lt fs).
  { apply serve_increasing; [exact Hauto |].
    intros ty'. constructor. }
  split; [exact H | apply StronglySorted_lt_NoDup; exact H].
Qed.

End Discipline.

(* ================================================================== *)
(** ** Search *)

Lemma prefixb_spec p t : prefixb p t = true <-> exists post, t = p ++ post.
Proof.
  revert t. induction p as [| c p IH]; intros t; simpl.
  - split; [intros _; exists t; reflexivity | reflexivity].
  - destruct t as [| c' t].
    + split; [discriminate | intros [post H]; discriminate].
    + rewrite andb_true_iff, Ascii.eqb_eq, IH. split.
      * intros [-> [post ->]]. exists post. reflexivity.
      * intros [post H]. inversion H; subst. eauto.
Qed.

Lemma containsb_spec n h : containsb n h = true <-> contains n h.
Proof.
  unfold contains. induction h as [| c h IH]; simpl.
  - rewrite orb_false_r, prefixb_spec. split.
    + intros [post H]. exists [], post. exact H.
    + intros (pre & post & H). destruct pre; [exists post; exact H |].
      discriminate.
  - rewrite orb_true_iff, prefixb_spec, IH. split.
    + intros [[post H] | (pre & post & H)].
      * exists [], post. exact H.
      * exists (c :: pre), post. rewrite H. reflexivity.
    + intros (pre & post & H). destruct pre as [| c' pre].
      * left. exists post. exact H.
      * right. inversion H; subst. eauto.
Qed.

Lemma chars_app (s1 s2 : string) : chars (s1 ++ s2)%string = chars s1 ++ chars s2.
Proof.
  unfold chars. induction s1 as [| c s1 IH]; simpl; [reflexivity |].
  rewrite IH. reflexivity.
Qed.

Lemma plain_lower_char c : plain_char (lower_char c) = plain_char c.
Proof.
  destruct c as [[] [] [] [] [] [] [] []]; reflexivity.
Qed.

Lemma tokens_plain (l : list ascii) :
  forallb plain_char l = true ->
  Sql.tokens (l ++ ["%"%char]) = Some (map Sql.Lit l ++ [Sql.AnyRun]).
Proof.
  induction l as [| c l IH]; [reflexivity |].
  cbn [forallb]. rewrite andb_true_iff. intros [Hc Hl].
  cbn [app Sql.tokens map]. unfold plain_char in Hc.
  rewrite negb_true_iff, !orb_false_iff in Hc. destruct Hc as [[H1 H2] H3].
  rewrite H1, H2, H3, (IH Hl). reflexivity.
Qed.

(** The pattern the handler sends for a plain term. *)
Lemma tokens_search_pattern (q : string) :
  plain q ->
  Sql.tokens (lower (chars ("%" ++ q ++ "%")%string))
  = Some (Sql.AnyRun :: map Sql.Lit (lower (chars q)) ++ [Sql.AnyRun]).
Proof.
  intros Hq. rewrite !chars_app. unfold lower. rewrite !map_app.
  change (map lower_char (chars "%")) with ["%"%char].
  cbn [app Sql.tokens]. change (Ascii.eqb "%" "%") with true. cbv iota.
  rewrite tokens_plain; [reflexivity |].
  unfold plain in Hq. clear - Hq.
  induction (chars q) as [| c l IH]; [reflexivity |].
  cbn [forallb map] in *. rewrite andb_true_iff in *.
  rewrite plain_lower_char. tauto.
Qed.

Lemma matches_any_run (p : list Sql.token) (t : list ascii) :
  Sql.matches (Sql.AnyRun :: p) t
  = Sql.matches p t ||
    match t with
    | [] => false
    | _ :: t' => Sql.matches (Sql.AnyRun :: p) t'
    end.
Proof. destruct t; reflexivity. Qed.

Lemma matches_only_any_run (t : list ascii) : Sql.matches [Sql.AnyRun] t = true.
Proof.
  induction t as [| c t IH]; [reflexivity |].
  rewrite matches_any_run, IH. apply orb_true_r.
Qed.

Lemma matches_literal_prefix (n t : list ascii) :
  Sql.matches (map Sql.Lit n ++ [Sql.AnyRun]) t = prefixb n t.
Proof.
  revert t. induction n as [| c n IH]; intros t.
  - apply matches_only_any_run.
  - destruct t as [| c' t]; [reflexivity |].
    cbn [map app Sql.matches prefixb]. rewrite IH. reflexivity.
Qed.

Lemma matches_substring (n t : list ascii) :
  Sql.matches (Sql.AnyRun :: map Sql.Lit n ++ [Sql.AnyRun]) t = containsb n t.
Proof.
  induction t as [| c t IH]; rewrite matches_any_run, matches_literal_prefix.
  - reflexivity.
  - rewrite IH. reflexivity.
Qed.

Lemma ilike_plain (q : string) (c : Pg.cell string) :
  plain q ->
  Sql.ilike c ("%" ++ q ++ "%")%string
  = inr (option_map (fun t => containsb (lower (chars q)) (lower (chars t))) c).
Proof.
  intros Hq. unfold Sql.ilike. destruct c as [t |]; [| reflexivity].
  rewrite (tokens_search_pattern q Hq), matches_substring. reflexivity.
Qed.

Lemma cell_contains_spec q c :
  option_map (fun t => containsb (lower (chars q)) (lower (chars t))) c
  = Some true <-> cell_contains q c.
Proof.
  unfold cell_contains. destruct c as [t |]; simpl.
  - split.
    + intros H. inversion H as [H']. exists t. split; [reflexivity |].
      apply containsb_spec. exact H'.
    + intros (t' & Ht & H). inversion Ht; subst.
      apply containsb_spec in H. rewrite H. reflexivity.
  - split; [discriminate | intros (t & Ht & _); discriminate].
Qed.

Lemma is_true_or3 a b c :
  Sql.is_true (Sql.or3 (Sql.or3 a b) c) = true <->
  a = Some true \/ b = Some true \/ c = Some true.
Proof.
  destruct a as [[|] |], b as [[|] |], c as [[|] |]; simpl;
    intuition discriminate.
Qed.

Lemma is_true_and3 a b :
  Sql.is_true (Sql.and3 a b) = true <-> a = Some true /\ b = Some true.
Proof.
  destruct a as [[|] |], b as [[|] |]; simpl; intuition discriminate.
Qed.

Lemma select_where_total cond (f : JoinedDocument -> Pg.cell bool) rows :
  (forall r, cond r = inr (f r)) ->
  select_where cond rows = inr (filter (fun r => Sql.is_true (f r)) rows).
Proof.
  intros Hc. induction rows as [| r rows IH]; simpl; [reflexivity |].
  rewrite Hc, IH. simpl. reflexivity.
Qed.

Lemma in_insert_desc r x l : In r (insert_desc x l) <-> r = x \/ In r l.
Proof.
  induction l as [| y l IH]; simpl.
  - intuition congruence.
  - destruct (_ <? _); simpl; [intuition congruence |].
    rewrite IH. intuition congruence.
Qed.

Lemma in_order_by_id_desc r l : In r (order_by_id_desc l) <-> In r l.
Proof.
  unfold order_by_id_desc. induction l as [| x l IH]; simpl; [tauto |].
  rewrite in_insert_desc, IH. intuition congruence.
Qed.

Lemma map_fst_with_items t docs : map fst (map (with_items t) docs) = docs.
Proof.
  induction docs as [| d docs IH]; simpl; [reflexivity |].
  rewrite IH. reflexivity.
Qed.

Lemma search_cell_spec q r :
  Sql.is_true (search_cell q r) = true <-> search_hit q r.
Proof.
  unfold search_cell, search_hit.
  rewrite is_true_or3, !cell_contains_spec. reflexivity.
Qed.

Lemma type_cell_spec t r :
  type_cell t r = Some true <-> doc_type (jd_doc r) = Some t.
Proof.
  unfold type_cell. destruct (doc_type (jd_doc r)) as [a |].
  - destruct (String.eqb_spec a t); split; intros H; inversion H; congruence.
  - split; discriminate.
Qed.

Lemma listed_listing docs r : listed (inr (Listing docs)) r <-> In r (map fst docs).
Proof.
  unfold listed. split.
  - intros (docs' & H & Hin). inversion H; subst. exact Hin.
  - eauto.
Qed.

(** The listing for a WHERE clause that raises no error. *)
Lemma listing_of_conditions cs params (f : JoinedDocument -> Pg.cell bool) s :
  (forall r, eval_where params cs r = inr (f r)) ->
  fst (try_catch
         (bind (select_documents cs params) (fun docs =>
          bind (query (fun t => inr (map (with_items t) docs))) (fun items =>
          ret (Listing items))))
         (fun e => ret (Failure e)) s)
  = inr (Listing
           (map (with_items (tables s))
                (order_by_id_desc
                   (filter (fun r => Sql.is_true (f r))
                           (documents_join_companies (tables s)))))).
Proof.
  intros Hf. unfold try_catch, bind, select_documents, query.
  rewrite (select_where_total _ f _ Hf). reflexivity.
Qed.

Lemma listed_filter (f : JoinedDocument -> Pg.cell bool) t r :
  listed
    (inr (Listing
            (map (with_items t)
                 (order_by_id_desc
                    (filter (fun r => Sql.is_true (f r))
                            (documents_join_companies t)))))) r
  <-> In r (documents_join_companies t) /\ Sql.is_true (f r) = true.
Proof.
  rewrite listed_listing, map_fst_with_items, in_order_by_id_desc, filter_In.
  reflexivity.
Qed.

(** C8, amended.  For a search term in which no character is a LIKE
    wildcard or the escape ([%], [_], backslash), a document joined with its
    company is returned exactly when the term occurs, letter case aside, in
    the company's name, in the folio written as text or in the reference,
    and, if a type filter is given, the document's type is that type. *)
Theorem plain_search_is_substring (type : option string) (q : string) (s : Store) :
  q <> "" ->
  plain q ->
  forall r,
    listed (fst (get_documents type (Some q) s)) r <->
    In r (documents_join_companies (tables s)) /\
    type_matches type r /\ search_hit q r.
Proof.
  intros Hq Hplain r.
  assert (Htruthy : Js.truthy (Js.Str q) = true).
  { simpl. destruct (String.eqb_spec q ""); [contradiction | reflexivity]. }
  assert (Hsearch : forall r0,
             eval_where [Js.Str ("%" ++ q ++ "%")%string] [SearchMatches 1] r0
             = inr (Sql.and3 (search_cell q r0) (Some true))).
  { intros r0. cbn [eval_where eval_condition placeholder nth_error and_then
                      Pg.text_of].
    rewrite !(ilike_plain q _ Hplain). reflexivity. }
  assert (Hboth : forall t r0,
             eval_where [Js.Str t; Js.Str ("%" ++ q ++ "%")%string]
                        [TypeEquals 1; SearchMatches 2] r0
             = inr (Sql.and3 (type_cell t r0)
                             (Sql.and3 (search_cell q r0) (Some true)))).
  { intros t r0. cbn [eval_where eval_condition placeholder nth_error and_then
                        Pg.text_of].
    rewrite !(ilike_plain q _ Hplain). reflexivity. }
  assert (Htrue : forall c, Sql.and3 c (Some true) = Some true <-> c = Some true).
  { intros [[|] |]; simpl; intuition discriminate. }
  unfold get_documents. rewrite Htruthy.
  destruct type as [t |]; [destruct (Js.truthy (Js.Str t)) eqn:Ht |];
    cbv beta iota zeta;
    cbn [app List.length Nat.add type_matches].
  - rewrite (listing_of_conditions _ _ _ s (Hboth t)), listed_filter.
    rewrite is_true_and3, type_cell_spec, Htrue, <- search_cell_spec.
    assert (Hne : t <> "") by (intros ->; discriminate).
    destruct (search_cell q r) as [[|] |]; simpl; intuition congruence.
  - rewrite (listing_of_conditions _ _ _ s Hsearch), listed_filter.
    assert (He : t = "").
    { simpl in Ht. destruct (String.eqb_spec t ""); [assumption | discriminate]. }
    rewrite <- search_cell_spec.
    destruct (search_cell q r) as [[|] |]; simpl; intuition discriminate.
  - rewrite (listing_of_conditions _ _ _ s Hsearch), listed_filter.
    rewrite <- search_cell_spec.
    destruct (search_cell q r) as [[|] |]; simpl; intuition discriminate.
Qed.

(* ================================================================== *)
(** ** The claims on worked requests *)

Lemma creation_all_or_nothing_witness :
  In oversized_line (items_of broken_sale) /\
  item_rejected oversized_line /\
  exists e,
    fst (post_documents iso_date broken_sale store1) = inr (Failure e) /\
    tables (snd (post_documents iso_date broken_sale store1)) = tables store1.
Proof.
  assert (Hin : In oversized_line (items_of broken_sale))
    by (right; left; reflexivity).
  assert (Hrej : item_rejected oversized_line).
  { intros id docId row. unfold item_of_params, item_params, oversized_line.
    simpl. destruct (Pg.int4_in "document_id" (Js.Num docId)); simpl;
      discriminate. }
  split; [exact Hin |]. split; [exact Hrej |].
  exact (proj2 (proj2 (creation_all_or_nothing iso_date broken_sale store1))
               oversized_line Hin Hrej).
Defined.


Lemma automatic_folio_witness :
  folio sale = Js.Undefined /\
  post_documents iso_date sale store0
  = (inr (Created "Documento creado exitosamente" sale_document), store1) /\
  doc_folio sale_document = Some 6060.
Proof.
  split; [reflexivity |]. split; [reflexivity |].
  destruct (automatic_folio iso_date sale store0 sale_document store1
                            eq_refl eq_refl)
    as (n & Hn & _ & _ & _ & _ & Hnone).
  rewrite Hn. f_equal. apply Hnone. reflexivity.
Defined.

Lemma falsy_folio_is_allocated_witness :
  folio zero_folio = Js.Num 0 /\
  doc_folio zero_folio_document = Some 6060.
Proof.
  split; [reflexivity |].
  exact (proj1 (falsy_folio_is_allocated iso_date zero_folio store0
                  zero_folio_document _ (or_introl eq_refl) eq_refl)).
Defined.

Lemma truthy_folio_is_stored_witness :
  Js.truthy (folio imported) = true /\
  doc_folio imported_document = Some 7001.
Proof.
  split; [reflexivity |].
  exact (proj2 (proj1 (truthy_folio_is_stored iso_date imported store0 eq_refl)
                      imported_document _ eq_refl)
               7001 eq_refl).
Defined.

Lemma missing_fields_are_stored_as_null_witness :
  Pg.text_of (type no_fields) = None /\
  fst (post_documents iso_date no_fields store1)
  = inr (Created "Documento creado exitosamente" (null_document 2)) /\
  doc_type (null_document 2) = None.
Proof.
  split; [reflexivity |]. split; [reflexivity |].
  exact (proj1 (proj1 (proj1 (missing_fields_are_stored_as_null iso_date)
                             no_fields store1 (null_document 2) _ eq_refl)
                      eq_refl)).
Defined.


Lemma status_update_changes_status_only_witness :
  Forall2 (fun d d' => same_but_status d d' /\ (~ addressed "1" d -> d' = d))
          (documents (tables store1))
          (documents (tables (snd (put_document_status "1" (Js.Str "Pagada")
                                                       store1)))).
Proof.
  exact (proj2 (proj2 (proj2 (proj2
    (status_update_changes_status_only "1" (Js.Str "Pagada") store1))))).
Defined.

Lemma automatic_folios_increase_witness :
  Forall automatic three_sales_one_deleted /\
  folios_of_type (Some "INV")
    (tables (snd (serve iso_date three_sales_one_deleted store0)))
  = [6061; 6062] /\
  StronglySorted Z.lt [6061; 6062].
Proof.
  assert (H : Forall automatic three_sales_one_deleted).
  { repeat constructor; simpl; lia. }
  split; [exact H |]. split; [reflexivity |].
  exact (proj1 (automatic_folios_increase iso_date [acme]
                  three_sales_one_deleted H "INV")).
Defined.

Lemma plain_search_is_substring_witness :
  "acme" <> "" /\ plain "acme" /\
  listed (fst (get_documents (Some "INV") (Some "acme") store1)) sale_row.
Proof.
  assert (Hne : "acme" <> "") by discriminate.
  assert (Hplain : plain "acme") by reflexivity.
  split; [exact Hne |]. split; [exact Hplain |].
  apply (plain_search_is_substring (Some "INV") "acme" store1 Hne Hplain sale_row).
  split; [left; reflexivity |].
  split; [right; reflexivity |].
  left. exists "Acme Ltda". split; [reflexivity |].
  exists [], (chars " ltda"). reflexivity.
Defined.

(** The scan for the next folio starts again from what is left: after the
    only invoice is deleted its folio is handed out a second time. *)
Lemma folio_reused_after_delete :
  ~ folio_discipline iso_date [acme] create_delete_create.
Proof.
  intros H. destruct (H "INV") as [_ Hnd].
  change (NoDup [Some 6060; Some 6060]) in Hnd.
  inversion Hnd as [| x l Hnotin _]. apply Hnotin. left. reflexivity.
Qed.

(** A folio of 0 is sent and 6060 is stored. *)
Lemma zero_folio_is_not_stored :
  ~ sent_folio_is_stored iso_date zero_folio store0.
Proof.
  intros H.
  pose proof (H 0 zero_folio_document
                (snd (post_documents iso_date zero_folio store0))
                eq_refl eq_refl) as Hd.
  discriminate Hd.
Qed.

(** A request with no field at all is answered with the created document. *)
Lemma no_fields_request_is_created :
  ~ rejected_unattempted iso_date no_fields store0.
Proof.
  intros H. destruct (H (or_introl eq_refl)) as (e & He & _).
  discriminate He.
Qed.

(** The term [_] finds the invoice of Acme Ltda, folio 6060, in which no
    underscore occurs. *)
Lemma underscore_matches_anything :
  ~ search_is_substring None "_" store1.
Proof.
  intros H. destruct (H sale_row) as [Hhit _].
  assert (Hl : listed (fst (get_documents None (Some "_") store1)) sale_row).
  { eexists. split; [reflexivity |]. left. reflexivity. }
  destruct (Hhit Hl) as (_ & _ & [Hc | [Hc | Hc]]);
    destruct Hc as (t & Ht & Hc); inversion Ht; subst t;
    apply containsb_spec in Hc; discriminate Hc.
Qed.

(** Two requests carrying the same folio both succeed. *)
Example explicit_folio_may_repeat :
  folios_of_type (Some "INV")
    (tables (snd (serve iso_date
                        [PostDocuments imported; PostDocuments imported]
                        store0)))
  = [7001; 7001].
Proof. reflexivity. Qed.

(** A type longer than its column, cut by the store, is not found again
    by the folio statement: the folio repeats. *)
Example long_type_repeats_folio :
  map (fun d => (doc_type d, doc_folio d))
      (documents
         (tables (snd (serve iso_date
                             [PostDocuments padded; PostDocuments padded]
                             store0))))
  = [(Some "INV                 ", Some 6060);
     (Some "INV                 ", Some 6060)].
Proof. reflexivity. Qed.

(** A header the store refuses (no company 99) leaves the tables alone. *)
Example unknown_company_is_rolled_back :
  let r := post_documents iso_date unknown_company store1 in
  fst r = inr (Failure (Pg.ForeignKey "company_id")) /\
  tables (snd r) = tables store1.
Proof. split; reflexivity. Qed.

(** The older copy of the server has no floor: its first folio is 1. *)
Example older_copy_starts_at_one :
  exists d s',
    post_documents_older iso_date sale store0
    = (inr (Created "Documento creado exitosamente" d), s') /\
    doc_folio d = Some 1.
Proof. eexists. eexists. split; reflexivity. Qed.

(** A route segment that is no number takes the error path, not the 404. *)
Example render_view_of_a_word :
  fst (get_document_ver "abc" store1) = inr (Failure (Pg.InvalidText "id")).
Proof. reflexivity. Qed.

(* ================================================================== *)
(** ** Ids and keys along a run *)

Section Keys.

Variable date_ok : string -> bool.

Lemma for_each_items_seq docId its s :
  documents_id_seq
    (snd (for_each its
            (fun item => insert_document_item (item_params docId item)) s))
  = documents_id_seq s.
Proof.
  revert s. induction its as [| item its IH]; intros s; [reflexivity |].
  cbn [for_each]. unfold bind.
  destruct (insert_document_item (item_params docId item) s) as [[e | []] s1] eqn:E.
  - apply insert_document_item_err in E. subst. reflexivity.
  - cbn [snd]. rewrite IH.
    unfold insert_document_item in E.
    destruct (item_of_params _ _); [discriminate |].
    destruct (references_document _ _); inversion E; reflexivity.
Qed.

Lemma save_items_seq docId body s :
  documents_id_seq (snd (save_items docId body s)) = documents_id_seq s.
Proof.
  unfold save_items. destruct (items body) as [[| item its] |];
    try reflexivity. apply for_each_items_seq.
Qed.

(** POST /api/documents takes at most one id from the sequence, and takes
    exactly the next one for the document it announces. *)
Lemma post_documents_seq body s out s' :
  post_documents date_ok body s = (out, s') ->
  documents_id_seq s <= documents_id_seq s' /\
  forall m d,
    out = inr (Created m d) ->
    doc_id d = documents_id_seq s /\
    documents_id_seq s' = documents_id_seq s + 1.
Proof.
  unfold post_documents, post_documents_with, try_catch, bind at 1.
  remember (snd (BEGIN s)) as s1 eqn:E1.
  assert (Hq1 : documents_id_seq s1 = documents_id_seq s) by (subst; reflexivity).
  replace (BEGIN s) with (inr tt : Pg.error + unit, s1) by (subst; reflexivity).
  clear E1. cbv iota. unfold bind at 1.
  pose proof (resolve_folio_reads body s1) as Hrd.
  destruct (resolve_folio body s1) as [[e | f] s2]; simpl in Hrd; subst s2.
  { rewrite catch_rollback. intros H; inversion H; subst. simpl.
    split; [lia | discriminate]. }
  destruct (resolve_totals body) as [[neto tax] ft].
  unfold bind at 1.
  destruct (insert_document date_ok (document_params body f neto tax ft) s1)
    as [[e | d] s3] eqn:Ei.
  { apply insert_document_err in Ei. subst s3.
    rewrite catch_rollback. intros H; inversion H; subst. simpl.
    split; [lia | discriminate]. }
  assert (Hq3 : documents_id_seq s3 = documents_id_seq s + 1 /\
                doc_id d = documents_id_seq s).
  { unfold insert_document in Ei.
    destruct (document_of_params date_ok (documents_id_seq s1)
                (document_params body f neto tax ft)) as [e | row] eqn:Er;
      [discriminate |].
    destruct (references_company _ _); [| discriminate].
    inversion Ei; subst. simpl.
    apply document_of_params_row in Er. destruct Er as (Hid & _).
    rewrite Hid. lia. }
  destruct Hq3 as [Hq3 Hid].
  unfold bind at 1.
  pose proof (save_items_seq (doc_id d) body s3) as Hq4.
  destruct (save_items (doc_id d) body s3) as [[e | []] s4]; simpl in Hq4.
  { rewrite catch_rollback. intros H; inversion H; subst. simpl.
    split; [lia | discriminate]. }
  unfold bind, COMMIT, ret. intros H; inversion H; subst. simpl.
  split; [lia |].
  intros m d' H'. inversion H'; subst. split; [assumption | lia].
Qed.

Lemma put_document_status_seq id status s :
  documents_id_seq (snd (put_document_status id status s)) = documents_id_seq s.
Proof.
  unfold put_document_status, try_catch, bind, update_status.
  destruct (Pg.int4_in "id" (Js.Str id)); simpl; [reflexivity |].
  destruct (existsb _ _); simpl; [| reflexivity].
  destruct (Pg.varchar_in 50 "status" status); reflexivity.
Qed.

Lemma delete_document_seq id s :
  documents_id_seq (snd (delete_document id s)) = documents_id_seq s.
Proof.
  unfold delete_document, try_catch, bind, delete_from_documents.
  destruct (Pg.int4_in "id" (Js.Str id)); reflexivity.
Qed.

Lemma handle_seq r s out s' :
  handle date_ok r s = (out, s') ->
  documents_id_seq s <= documents_id_seq s' /\
  forall m d,
    out = inr (Created m d) ->
    doc_id d = documents_id_seq s /\
    documents_id_seq s' = documents_id_seq s + 1.
Proof.
  destruct r as [body | id status | id]; cbn [handle].
  - apply post_documents_seq.
  - intros H. pose proof (put_document_status_seq id status s) as Hq.
    rewrite H in Hq. simpl in Hq. split; [lia |].
    revert H. unfold put_document_status, try_catch, bind, update_status.
    destruct (Pg.int4_in "id" (Js.Str id)); simpl;
      [intros H; inversion H; discriminate |].
    destruct (existsb _ _); simpl; [| intros H; inversion H; discriminate].
    destruct (Pg.varchar_in 50 "status" status);
      intros H; inversion H; discriminate.
  - intros H. pose proof (delete_document_seq id s) as Hq.
    rewrite H in Hq. simpl in Hq. split; [lia |].
    revert H. unfold delete_document, try_catch, bind, delete_from_documents.
    destruct (Pg.int4_in "id" (Js.Str id));
      intros H; inversion H; discriminate.
Qed.

Lemma serve_created_ids rs s :
  StronglySorted Z.lt (created_ids (fst (serve date_ok rs s))) /\
  Forall (fun id => documents_id_seq s <= id)
         (created_ids (fst (serve date_ok rs s))).
Proof.
  revert s. induction rs as [| r rs IH]; intros s.
  - split; constructor.
  - cbn [serve].
    destruct (handle date_ok r s) as [out s1] eqn:Eh.
    destruct (handle_seq r s out s1 Eh) as [Hle Hcreated]. cbn [fst snd] in *.
    destruct (IH s1) as [Hsorted Hall].
    destruct (serve date_ok rs s1) as [outs s2]. cbn [fst snd] in *.
    unfold created_ids in *. cbn [flat_map].
    assert (Hall' : Forall (fun id => documents_id_seq s <= id)
                           (flat_map
                              (fun out =>
                                 match out with
                                 | inr (Created _ d) => [doc_id d]
                                 | _ => []
                                 end) outs)).
    { eapply Forall_impl; [| exact Hall]. cbv beta. intros; lia. }
    destruct out as [e | [m d | | | | |]]; cbn [app]; try (split; assumption).
    destruct (Hcreated m d eq_refl) as [Hid Hseq].
    split.
    + constructor; [assumption |].
      eapply Forall_impl; [| exact Hall]. cbv beta. intros; lia.
    + constructor; [lia | assumption].
Qed.

(** X3.  Document ids are never handed out twice: along any sequence of
    requests, on any store, the ids of the documents announced as created
    are strictly increasing, so pairwise distinct, also across deletions and
    attempts that were rolled back, and none is below the store's next id
    at the start. *)
Theorem document_ids_never_repeat (rs : list request) (s : Store) :
  let ids := created_ids (fst (serve date_ok rs s)) in
  StronglySorted Z.lt ids /\ NoDup ids /\
  Forall (fun id => documents_id_seq s <= id) ids.
Proof.
  intros ids. destruct (serve_created_ids rs s) as [H1 H2].
  split; [exact H1 |]. split; [apply StronglySorted_lt_NoDup; exact H1 | exact H2].
Qed.

End Keys.

(* ================================================================== *)
(** ** Keys are kept *)

Lemma StronglySorted_map_filter {A B} (R : B -> B -> Prop) (g : A -> B)
      (keep : A -> bool) (l : list A) :
  StronglySorted R (map g l) -> StronglySorted R (map g (filter keep l)).
Proof.
  induction l as [| a l IH]; simpl; [auto |].
  intros H. apply StronglySorted_inv in H. destruct H as [Hs Hall].
  destruct (keep a); simpl; [| auto].
  constructor; [auto |].
  rewrite Forall_forall in *. intros y Hy. apply Hall.
  rewrite in_map_iff in *. destruct Hy as (x & Hx & Hin).
  exists x. split; [assumption |]. apply filter_In in Hin. tauto.
Qed.

Lemma references_document_spec (t : Tables) (c : Pg.cell Z) :
  references_document t c = true <->
  c = None \/ exists d, In d (documents t) /\ c = Some (doc_id d).
Proof.
  unfold references_document. destruct c as [k |].
  - rewrite existsb_exists. split.
    + intros (d & Hin & Hk). apply Z.eqb_eq in Hk. right. exists d.
      split; [assumption | congruence].
    + intros [H | (d & Hin & Hk)]; [discriminate |].
      exists d. split; [assumption |]. inversion Hk. apply Z.eqb_refl.
  - split; [auto | reflexivity].
Qed.

Lemma references_company_companies (t t' : Tables) (c : Pg.cell Z) :
  companies t' = companies t ->
  references_company t' c = references_company t c.
Proof. unfold references_company. intros ->. reflexivity. Qed.

Section KeysKept.

Variable date_ok : string -> bool.

Lemma post_documents_consistent body s :
  consistent s -> consistent (snd (post_documents date_ok body s)).
Proof.
  intros (Hsorted & Hbelow & Hitems & Hdocs & Hcos).
  pose proof (post_documents_outcome date_ok body s) as H.
  destruct (post_documents date_ok body s) as [out s'] eqn:Hrun.
  destruct (post_documents_seq date_ok body s out s' Hrun) as [Hle Hnew].
  cbn [snd].
  inversion H as [e s0 Ht Hb
                 | f ft neto tax d rows s0 Hf Htot Hrow Hfk Hc Hd Hi Hall Hb];
    subst.
  - unfold consistent. rewrite Ht. repeat split; auto.
    eapply Forall_impl; [| exact Hbelow]. cbv beta. intros; lia.
  - destruct (Hnew _ d eq_refl) as [Hid Hseq].
    unfold consistent. rewrite Hd, Hi, Hc, Hseq. repeat split.
    + rewrite map_app. apply StronglySorted_app_iff.
      split; [assumption |]. split; [repeat constructor |].
      intros x y Hx [<- | []]. rewrite Hid.
      rewrite in_map_iff in Hx. destruct Hx as (d0 & <- & Hin).
      rewrite Forall_forall in Hbelow. auto.
    + apply Forall_app. split.
      * eapply Forall_impl; [| exact Hbelow]. cbv beta. intros; lia.
      * constructor; [lia | constructor].
    + apply Forall_app. split.
      * eapply Forall_impl; [| exact Hitems]. cbv beta. intros i Hi0.
        apply references_document_spec in Hi0.
        apply references_document_spec. rewrite Hd.
        destruct Hi0 as [-> | (d0 & Hin & ->)]; [left; reflexivity |].
        right. exists d0. split; [apply in_or_app; left; assumption | reflexivity].
      * clear - Hall Hd.
        induction Hall as [| item row its rows' Hr _ IH]; constructor; auto.
        destruct Hr as (id & Hr). apply item_of_params_document in Hr.
        destruct Hr as (Hr & _). rewrite Hr.
        apply references_document_spec. right. exists d.
        split; [rewrite Hd; apply in_or_app; right; left; reflexivity
               | reflexivity].
    + apply Forall_app. split.
      * eapply Forall_impl; [| exact Hdocs]. cbv beta. intros d0 H0.
        rewrite (references_company_companies (tables s) (tables s')); auto.
      * constructor; [| constructor].
        rewrite (references_company_companies (tables s) (tables s')); auto.
    + assumption.
Qed.

Lemma put_document_status_consistent id status s :
  consistent s -> consistent (snd (put_document_status id status s)).
Proof.
  intros Hcons.
  unfold put_document_status, try_catch, bind, update_status.
  destruct (Pg.int4_in "id" (Js.Str id)) as [e | c]; simpl; [exact Hcons |].
  destruct (existsb _ _); simpl; [| exact Hcons].
  destruct (Pg.varchar_in 50 "status" status) as [e | st]; simpl;
    [exact Hcons |].
  destruct Hcons as (Hsorted & Hbelow & Hitems & Hdocs & Hcos).
  unfold consistent. simpl.
  match goal with |- context [map ?g (documents (tables s))] => set (f := g) end.
  assert (Hid : forall d, doc_id (f d) = doc_id d).
  { intros d. unfold f.
    match goal with |- context [if ?b then _ else _] => destruct b end;
      reflexivity. }
  assert (Hco : forall d, doc_company_id (f d) = doc_company_id d).
  { intros d. unfold f.
    match goal with |- context [if ?b then _ else _] => destruct b end;
      reflexivity. }
  repeat split.
  - rewrite map_map. rewrite (map_ext _ doc_id Hid). assumption.
  - rewrite Forall_map. eapply Forall_impl; [| exact Hbelow].
    cbv beta. intros d. rewrite Hid. auto.
  - eapply Forall_impl; [| exact Hitems]. cbv beta. intros i.
    rewrite !references_document_spec. simpl.
    intros [-> | (d & Hin & ->)]; [left; reflexivity |].
    right. exists (f d). split; [apply in_map; assumption |].
    rewrite Hid. reflexivity.
  - rewrite Forall_map. eapply Forall_impl; [| exact Hdocs].
    cbv beta. intros d. rewrite Hco. auto.
  - assumption.
Qed.

Lemma delete_document_consistent id s :
  consistent s -> consistent (snd (delete_document id s)).
Proof.
  intros Hcons.
  unfold delete_document, try_catch, bind, delete_from_documents.
  destruct (Pg.int4_in "id" (Js.Str id)) as [e | c]; simpl; [exact Hcons |].
  destruct Hcons as (Hsorted & Hbelow & Hitems & Hdocs & Hcos).
  unfold consistent. simpl. repeat split.
  - apply StronglySorted_map_filter. assumption.
  - rewrite Forall_forall in *. intros d Hd. apply filter_In in Hd.
    apply Hbelow. tauto.
  - rewrite Forall_forall in *. intros i Hi. apply filter_In in Hi.
    destruct Hi as [Hi Hkeep].
    specialize (Hitems i Hi). rewrite references_document_spec in *. simpl.
    destruct Hitems as [-> | (d & Hin & Hd)]; [left; reflexivity |].
    right. exists d. split; [| assumption].
    apply filter_In. split; [assumption |].
    change (negb (Sql.eq_int (Some (doc_id d)) c) = true).
    destruct (Sql.eq_int (Some (doc_id d)) c) eqn:Hhit; [| reflexivity].
    exfalso. apply negb_true_iff in Hkeep.
    assert (Hgone : existsb
                      (fun d0 => Sql.eq_int (it_document_id i) (Some (doc_id d0)))
                      (filter (fun d0 => Sql.eq_int (Some (doc_id d0)) c)
                              (documents (tables s))) = true).
    { apply existsb_exists. exists d. split.
      - apply filter_In. split; assumption.
      - rewrite Hd. simpl. apply Z.eqb_refl. }
    assert (Hnot : existsb
                     (fun d0 => Sql.eq_int (it_document_id i) (Some (doc_id d0)))
                     (filter (fun d0 => Sql.eq_int (Some (doc_id d0)) c)
                             (documents (tables s))) = false) by exact Hkeep.
    congruence.
  - rewrite Forall_forall in *. intros d Hd. apply filter_In in Hd.
    apply Hdocs. tauto.
  - assumption.
Qed.

Lemma handle_consistent r s :
  consistent s -> consistent (snd (handle date_ok r s)).
Proof.
  destruct r as [body | id status | id]; cbn [handle].
  - apply post_documents_consistent.
  - apply put_document_status_consistent.
  - apply delete_document_consistent.
Qed.

(** X2.  The keys hold along every run.  If the store respects the keys
    of [initDB], then after any sequence of creations, status updates and
    deletions it still does: no item is left without its document, no
    document refers to a company that is not there, document ids are in
    increasing order and below the next id. *)
Theorem keys_hold_along_any_run (rs : list request) (s : Store) :
  consistent s ->
  let s' := snd (serve date_ok rs s) in
  consistent s' /\
  (forall i, In i (document_items (tables s')) ->
             it_document_id i = None \/
             exists d, In d (documents (tables s')) /\
                       it_document_id i = Some (doc_id d)).
Proof.
  intros Hcons s'.
  assert (H : consistent s').
  { subst s'. revert s Hcons. induction rs as [| r rs IH]; intros s Hcons.
    - exact Hcons.
    - cbn [serve]. pose proof (handle_consistent r s Hcons) as H1.
      destruct (handle date_ok r s) as [out s1]. cbn [snd] in H1.
      specialize (IH s1 H1).
      destruct (serve date_ok rs s1) as [outs s2]. exact IH. }
  split; [exact H |].
  destruct H as (_ & _ & Hitems & _).
  rewrite Forall_forall in Hitems. intros i Hi.
  apply references_document_spec. auto.
Qed.

End KeysKept.

(* ================================================================== *)
(** ** Deleting, and reading back *)

Lemma select_document_rows id n s :
  Pg.int4_in "id" (Js.Str id) = inr (Some n) ->
  select_document [Js.Str id] s
  = (inr (filter (fun r => Sql.eq_int (Some (doc_id (jd_doc r))) (Some n))
                 (documents_join_companies (tables s))), s).
Proof.
  intros Hn. unfold select_document, query. rewrite Hn. reflexivity.
Qed.

Lemma get_document_ver_none id n s :
  Pg.int4_in "id" (Js.Str id) = inr (Some n) ->
  filter (fun r => Sql.eq_int (Some (doc_id (jd_doc r))) (Some n))
         (documents_join_companies (tables s)) = [] ->
  fst (get_document_ver id s) = inr (NotFound "Documento no encontrado").
Proof.
  intros Hn Hnone. unfold get_document_ver, try_catch, bind.
  rewrite (select_document_rows id n s Hn), Hnone. reflexivity.
Qed.



(** X1.  DELETE /api/documents/:id cascades and composes with the reads.
    On a store that respects its keys, after deleting the document the
    integer id [n] addresses: the answer is the success message, the
    documents left are those with another id, the items lookup for [n] is
    empty and the one for any other id is as before, and the rendered view
    of [n] is the 404. *)
Theorem delete_cascades (id : string) (n : Z) (s : Store) :
  consistent s ->
  Pg.int4_in "id" (Js.Str id) = inr (Some n) ->
  let s' := snd (delete_document id s) in
  fst (delete_document id s)
  = inr (Message "Documento eliminado correctamente") /\
  (forall d, In d (documents (tables s')) <->
             In d (documents (tables s)) /\ doc_id d <> n) /\
  select_items (Some n) (tables s') = [] /\
  (forall m, m <> n ->
             select_items (Some m) (tables s') = select_items (Some m) (tables s)) /\
  fst (get_document_ver id s') = inr (NotFound "Documento no encontrado").
Proof.
  intros (_ & _ & Hitems & _) Hn s'. subst s'.
  unfold delete_document, try_catch, bind, delete_from_documents.
  rewrite Hn. cbn [fst snd ret with_tables tables documents document_items].
  set (gone := filter (fun d => Sql.eq_int (Some (doc_id d)) (Some n))
                      (documents (tables s))).
  assert (Hgone : forall d, In d gone <-> In d (documents (tables s)) /\ doc_id d = n).
  { intros d. unfold gone. rewrite filter_In. simpl. rewrite Z.eqb_eq. tauto. }
  assert (Hdocs : forall d,
             In d (filter (fun d => negb (Sql.eq_int (Some (doc_id d)) (Some n)))
                          (documents (tables s)))
             <-> In d (documents (tables s)) /\ doc_id d <> n).
  { intros d. rewrite filter_In. simpl. rewrite negb_true_iff, Z.eqb_neq. tauto. }
  split; [reflexivity |]. split; [exact Hdocs |]. split; [| split].
  - unfold select_items. cbn [document_items].
    rewrite Forall_forall in Hitems.
    induction (document_items (tables s)) as [| i its IH]; [reflexivity |].
    cbn [filter].
    assert (IH' := IH (fun x Hx => Hitems x (or_intror Hx))).
    destruct (negb (existsb _ gone)) eqn:Hkeep; [| exact IH'].
    cbn [filter].
    destruct (Sql.eq_int (it_document_id i) (Some n)) eqn:Hi; [| exact IH'].
    exfalso.
    destruct (it_document_id i) as [k |] eqn:Ek; [| discriminate].
    simpl in Hi. apply Z.eqb_eq in Hi. subst k.
    specialize (Hitems i (or_introl eq_refl)).
    rewrite Ek in Hitems. apply references_document_spec in Hitems.
    destruct Hitems as [H | (d & Hin & Hd)]; [discriminate |].
    inversion Hd as [Hd']. apply negb_true_iff in Hkeep.
    assert (existsb (fun d0 => Sql.eq_int (Some n) (Some (doc_id d0))) gone = true).
    { apply existsb_exists. exists d. split.
      - apply Hgone. split; [assumption | congruence].
      - simpl. rewrite Hd'. apply Z.eqb_refl. }
    congruence.
  - intros m Hm. clear Hitems. unfold select_items. cbn [document_items].
    induction (document_items (tables s)) as [| i its IH]; [reflexivity |].
    cbn [filter].
    destruct (Sql.eq_int (it_document_id i) (Some m)) eqn:Hi.
    + assert (Hkeep : negb (existsb
                (fun d => Sql.eq_int (it_document_id i) (Some (doc_id d))) gone)
                          = true).
      { apply negb_true_iff. apply not_true_is_false. intros Hex.
        apply existsb_exists in Hex. destruct Hex as (d & Hd & Heq).
        apply Hgone in Hd. destruct Hd as [_ Hd].
        destruct (it_document_id i) as [k |]; [| discriminate].
        simpl in Hi, Heq. apply Z.eqb_eq in Hi. apply Z.eqb_eq in Heq. lia. }
      rewrite Hkeep. cbn [filter]. rewrite Hi, IH. reflexivity.
    + destruct (negb (existsb _ gone)); [cbn [filter]; rewrite Hi |]; exact IH.
  - apply (get_document_ver_none id n _ Hn).
    apply no_joined_row. cbn [tables documents].
    intros d Hd. apply Hdocs in Hd. tauto.
Qed.

Section ReadBack.

Variable date_ok : string -> bool.




End ReadBack.

(* ================================================================== *)
(** ** The listing *)

Lemma get_documents_conditions ty q s :
  get_documents ty q s
  = try_catch
      (bind (select_documents (fst (conditions_of ty q)) (snd (conditions_of ty q)))
            (fun docs =>
               bind (query (fun t => inr (map (with_items t) docs)))
                    (fun items => ret (Listing items))))
      (fun e => ret (Failure e)) s.
Proof.
  unfold get_documents, conditions_of, present.
  destruct ty as [t |], q as [q |];
    try destruct (Js.truthy (Js.Str t)); try destruct (Js.truthy (Js.Str q));
    reflexivity.
Qed.

Lemma select_where_incl cond rows out :
  select_where cond rows = inr out -> incl out rows.
Proof.
  revert out. induction rows as [| r rows IH]; intros out; simpl.
  - intros H; inversion H. apply incl_refl.
  - destruct (cond r) as [e | keep]; simpl; [discriminate |].
    destruct (select_where cond rows) as [e | rest]; simpl; [discriminate |].
    specialize (IH rest eq_refl).
    intros H; inversion H; subst.
    destruct (Sql.is_true keep).
    + intros x [<- | Hx]; [left; reflexivity | right; auto].
    + intros x Hx. right. auto.
Qed.

Lemma select_where_ext cond cond' rows :
  (forall r, cond r = cond' r) ->
  select_where cond rows = select_where cond' rows.
Proof.
  intros Hext. induction rows as [| r rows IH]; simpl; [reflexivity |].
  rewrite Hext, IH. reflexivity.
Qed.

(** The response of the listing, from the rows the WHERE clause selects. *)
Lemma listing_response cs params s :
  fst (try_catch
         (bind (select_documents cs params) (fun docs =>
          bind (query (fun t => inr (map (with_items t) docs))) (fun items =>
          ret (Listing items))))
         (fun e => ret (Failure e)) s)
  = match select_where (eval_where params cs)
                       (documents_join_companies (tables s)) with
    | inl e => inr (Failure e)
    | inr rows =>
        inr (Listing (map (with_items (tables s)) (order_by_id_desc rows)))
    end.
Proof.
  unfold try_catch, bind, select_documents, query.
  destruct (select_where _ _); reflexivity.
Qed.

Lemma insert_desc_newest_first r l :
  newest_first l -> newest_first (insert_desc r l).
Proof.
  unfold newest_first. induction l as [| x l IH]; intros Hs; simpl.
  - repeat constructor.
  - apply StronglySorted_inv in Hs. destruct Hs as [Hs Hall].
    destruct (Z.ltb_spec (doc_id (jd_doc x)) (doc_id (jd_doc r))).
    + constructor; [constructor; assumption |].
      constructor; [lia |].
      eapply Forall_impl; [| exact Hall]. cbv beta. intros; lia.
    + constructor; [auto |].
      rewrite Forall_forall in *. intros y Hy.
      apply in_insert_desc in Hy. destruct Hy as [-> | Hy]; [lia | auto].
Qed.

Lemma order_by_id_desc_newest_first l : newest_first (order_by_id_desc l).
Proof.
  unfold order_by_id_desc. induction l as [| x l IH]; simpl.
  - constructor.
  - apply insert_desc_newest_first. exact IH.
Qed.

Lemma insert_desc_permutation r l : Permutation (insert_desc r l) (r :: l).
Proof.
  induction l as [| x l IH]; simpl; [reflexivity |].
  destruct (_ <? _); [reflexivity |].
  rewrite IH. apply perm_swap.
Qed.

Lemma order_by_id_desc_permutation l : Permutation (order_by_id_desc l) l.
Proof.
  unfold order_by_id_desc. induction l as [| x l IH]; simpl; [reflexivity |].
  rewrite insert_desc_permutation, IH. reflexivity.
Qed.

Lemma joined_row_origin (t : Tables) (r : JoinedDocument) :
  In r (documents_join_companies t) ->
  In (jd_doc r) (documents t) /\
  exists c, In c (companies t) /\ doc_company_id (jd_doc r) = Some (co_id c).
Proof.
  unfold documents_join_companies. rewrite in_flat_map.
  intros (d & Hd & Hr). rewrite in_map_iff in Hr.
  destruct Hr as (c & <- & Hc). apply filter_In in Hc.
  destruct Hc as [Hc Heq]. cbn [join_company jd_doc].
  split; [assumption |]. exists c. split; [assumption |].
  destruct (doc_company_id d) as [k |]; [| discriminate].
  simpl in Heq. apply Z.eqb_eq in Heq. congruence.
Qed.

Lemma listing_rows_are_joined type search s docs :
  fst (get_documents type search s) = inr (Listing docs) ->
  exists rows,
    select_where (eval_where (snd (conditions_of type search))
                             (fst (conditions_of type search)))
                 (documents_join_companies (tables s)) = inr rows /\
    docs = map (with_items (tables s)) (order_by_id_desc rows) /\
    incl (map fst docs) (documents_join_companies (tables s)).
Proof.
  rewrite get_documents_conditions, listing_response.
  destruct (select_where _ _) as [e | rows] eqn:Hrows; [discriminate |].
  intros H; inversion H; subst; clear H.
  exists rows. split; [reflexivity |]. split; [reflexivity |].
  rewrite map_fst_with_items.
  intros r Hr. rewrite in_order_by_id_desc in Hr.
  exact (select_where_incl _ _ _ Hrows r Hr).
Qed.

Lemma filter_none {A} (p : A -> bool) (l : list A) :
  (forall x, In x l -> p x = false) -> filter p l = [].
Proof.
  induction l as [| a l IH]; intros H; [reflexivity |].
  cbn [filter]. rewrite (H a (or_introl eq_refl)).
  apply IH. intros x Hx. apply H. right. assumption.
Qed.

(** X6.  Whatever the filters, a listing is ordered by document id,
    newest first, holds only documents joined with their company, and pairs
    each with exactly the item rows that carry its id. *)
Theorem listing_is_newest_first
        (type search : option string) (s : Store)
        (docs : list (JoinedDocument * list DocumentItem)) :
  fst (get_documents type search s) = inr (Listing docs) ->
  newest_first (map fst docs) /\
  incl (map fst docs) (documents_join_companies (tables s)) /\
  Forall (fun p => snd p = select_items (Some (doc_id (jd_doc (fst p)))) (tables s))
         docs.
Proof.
  intros Hdocs.
  destruct (listing_rows_are_joined type search s docs Hdocs)
    as (rows & _ & -> & Hincl).
  split; [| split; [exact Hincl |]].
  - rewrite map_fst_with_items. apply order_by_id_desc_newest_first.
  - rewrite Forall_map. apply Forall_forall. intros r _. reflexivity.
Qed.

Lemma select_where_all rows :
  select_where (fun _ => inr (Some true)) rows = inr rows.
Proof.
  induction rows as [| r rows IH]; simpl; [reflexivity |].
  rewrite IH. reflexivity.
Qed.

Lemma present_no_filter p : no_filter p -> present p = None.
Proof. intros [-> | ->]; reflexivity. Qed.

Lemma present_filter t : t <> "" -> present (Some t) = Some t.
Proof.
  intros Ht. unfold present. simpl.
  destruct (String.eqb_spec t ""); [contradiction | reflexivity].
Qed.

(** X7.  Without a search term (absent or empty) the listing never fails:
    with no type filter either it holds every document that has its
    company, each as often as in the join; with a type filter it holds
    exactly those whose type is the filter. *)
Theorem listing_without_search (type search : option string) (s : Store) :
  no_filter search ->
  exists docs,
    fst (get_documents type search s) = inr (Listing docs) /\
    (no_filter type ->
     Permutation (map fst docs) (documents_join_companies (tables s))) /\
    (forall t, type = Some t -> t <> "" ->
               forall r, In r (map fst docs) <->
                         In r (documents_join_companies (tables s)) /\
                         doc_type (jd_doc r) = Some t).
Proof.
  intros Hq. rewrite get_documents_conditions, listing_response.
  unfold conditions_of. rewrite (present_no_filter search Hq).
  destruct (present type) as [t |] eqn:Ht; cbn [fst snd].
  - assert (Htype : type = Some t /\ t <> "").
    { unfold present in Ht. destruct type as [t' |]; [| discriminate].
      destruct (Js.truthy (Js.Str t')) eqn:Htr; inversion Ht; subst.
      split; [reflexivity |]. intros ->. discriminate. }
    destruct Htype as [-> Hne].
    rewrite (select_where_total _
               (fun r => Sql.and3 (type_cell t r) (Some true)))
      by (intros r; reflexivity).
    eexists. split; [reflexivity |]. rewrite map_fst_with_items. split.
    + intros [H | H]; [discriminate | inversion H; contradiction].
    + intros t' Ht' _ r. inversion Ht'; subst t'.
      rewrite in_order_by_id_desc, filter_In, is_true_and3, type_cell_spec.
      tauto.
  - rewrite (select_where_ext _ (fun _ => inr (Some true)))
      by (intros r; reflexivity).
    rewrite select_where_all.
    eexists. split; [reflexivity |]. rewrite map_fst_with_items. split.
    + intros _. apply order_by_id_desc_permutation.
    + intros t -> Hne. rewrite (present_filter t Hne) in Ht. discriminate.
Qed.

Lemma unique_document_id (ds : list Document) (d d' : Document) :
  StronglySorted Z.lt (map doc_id ds) ->
  In d ds -> In d' ds -> doc_id d = doc_id d' -> d = d'.
Proof.
  induction ds as [| x ds IH]; simpl; [tauto |].
  intros Hs. apply StronglySorted_inv in Hs. destruct Hs as [Hs Hall].
  rewrite Forall_forall in Hall.
  assert (Hlt : forall y, In y ds -> doc_id x < doc_id y)
    by (intros y Hy; apply Hall, in_map; assumption).
  intros [-> | Hd] [-> | Hd'] Heq; auto.
  - specialize (Hlt d' Hd'). lia.
  - specialize (Hlt d Hd). lia.
Qed.

(** X5.  A document without a company cannot be read.  On a store that
    respects its keys, a document whose company_id is NULL (as one created
    without company_id is) appears in no listing, whatever the filters, and
    the rendered view of its id is the 404. *)
Theorem document_without_company_is_not_served (s : Store) (d : Document) :
  consistent s ->
  In d (documents (tables s)) ->
  doc_company_id d = None ->
  (forall type search r,
      listed (fst (get_documents type search s)) r -> jd_doc r <> d) /\
  (forall id,
      addressed id d ->
      fst (get_document_ver id s) = inr (NotFound "Documento no encontrado")).
Proof.
  intros (Hsorted & _) Hd Hnull. split.
  - intros type search r (docs & Hdocs & Hr) Heq. subst d.
    destruct (listing_rows_are_joined type search s docs Hdocs)
      as (rows & _ & _ & Hincl).
    apply Hincl in Hr. apply joined_row_origin in Hr.
    destruct Hr as (_ & c & _ & Hc). congruence.
  - intros id Haddr. apply (get_document_ver_none id (doc_id d) s Haddr).
    apply filter_none. intros r Hr.
    apply joined_row_origin in Hr. destruct Hr as (Hin & c & _ & Hc).
    simpl. apply Z.eqb_neq. intros Heq.
    pose proof (unique_document_id _ _ _ Hsorted Hin Hd Heq) as E.
    congruence.
Qed.

(* ================================================================== *)
(** ** Letter case of the search term *)

Lemma ilike_same_lower (c : Pg.cell string) (p p' : string) :
  lower (chars p) = lower (chars p') -> Sql.ilike c p = Sql.ilike c p'.
Proof. unfold Sql.ilike. intros ->. reflexivity. Qed.

Lemma lower_search_pattern (q : string) :
  lower (chars ("%" ++ q ++ "%")%string)
  = "%"%char :: lower (chars q) ++ ["%"%char].
Proof.
  rewrite !chars_app. unfold lower. rewrite !map_app. reflexivity.
Qed.

Lemma present_same_lower (q q' : string) :
  lower (chars q) = lower (chars q') ->
  (present (Some q) = None /\ present (Some q') = None) \/
  (present (Some q) = Some q /\ present (Some q') = Some q').
Proof.
  destruct q as [| c q], q' as [| c' q']; simpl; intros H;
    try discriminate; auto.
Qed.

(** X11.  The letter case of the search term does not matter: two terms
    that differ only in the case of their letters get the same response,
    whatever else they contain. *)
Theorem search_ignores_case_of_term
        (type : option string) (q q' : string) (s : Store) :
  lower (chars q) = lower (chars q') ->
  fst (get_documents type (Some q) s) = fst (get_documents type (Some q') s).
Proof.
  intros Hlow. rewrite !get_documents_conditions, !listing_response.
  assert (Hpat : lower (chars ("%" ++ q ++ "%")%string)
                 = lower (chars ("%" ++ q' ++ "%")%string))
    by (rewrite !lower_search_pattern, Hlow; reflexivity).
  unfold conditions_of.
  destruct (present_same_lower q q' Hlow) as [[-> ->] | [-> ->]];
    [reflexivity |].
  destruct (present type) as [t |]; cbn [fst snd].
  - rewrite (select_where_ext
               (eval_where [Js.Str t; Js.Str ("%" ++ q ++ "%")%string]
                           [TypeEquals 1; SearchMatches 2])
               (eval_where [Js.Str t; Js.Str ("%" ++ q' ++ "%")%string]
                           [TypeEquals 1; SearchMatches 2])); [reflexivity |].
    intros r. cbn [eval_where eval_condition placeholder nth_error and_then
                     Pg.text_of].
    rewrite !(ilike_same_lower _ _ _ Hpat). reflexivity.
  - rewrite (select_where_ext
               (eval_where [Js.Str ("%" ++ q ++ "%")%string] [SearchMatches 1])
               (eval_where [Js.Str ("%" ++ q' ++ "%")%string] [SearchMatches 1]));
      [reflexivity |].
    intros r. cbn [eval_where eval_condition placeholder nth_error and_then
                     Pg.text_of].
    rewrite !(ilike_same_lower _ _ _ Hpat). reflexivity.
Qed.

(* ================================================================== *)
(** ** Status updates and ids that address nothing *)


Lemma existsb_addressed (n : Z) (ds : list Document) :
  existsb (fun d => Sql.eq_int (Some (doc_id d)) (Some n)) ds = true <->
  exists d, In d ds /\ doc_id d = n.
Proof.
  rewrite existsb_exists. split; intros (d & Hd & H); exists d;
    (split; [assumption |]); simpl in *; apply Z.eqb_eq; assumption.
Qed.


Lemma filter_all {A} (p : A -> bool) (l : list A) :
  (forall x, In x l -> p x = true) -> filter p l = l.
Proof.
  induction l as [| a l IH]; intros H; [reflexivity |].
  cbn [filter]. rewrite (H a (or_introl eq_refl)). f_equal.
  apply IH. intros x Hx. apply H. right. assumption.
Qed.

(** X10.  An id that addresses no document is not an error.  For an
    integer id that no document carries, the status update (with a status
    that fits) and the deletion both answer with their success message and
    leave the store exactly as it was. *)
Theorem unknown_id_is_acknowledged
        (id : string) (n : Z) (status : Js.value) (s : Store) :
  Pg.int4_in "id" (Js.Str id) = inr (Some n) ->
  (forall d, In d (documents (tables s)) -> doc_id d <> n) ->
  match Pg.text_of status with
  | Some t => (String.length t <= 50)%nat
  | None => True
  end ->
  put_document_status id status s = (inr (Message "Estado actualizado"), s) /\
  delete_document id s = (inr (Message "Documento eliminado correctamente"), s).
Proof.
  intros Hn Hno _.
  assert (Hnone : existsb (fun d => Sql.eq_int (Some (doc_id d)) (Some n))
                          (documents (tables s)) = false).
  { apply not_true_is_false. intros H. apply existsb_addressed in H.
    destruct H as (d & Hd & Hid). exact (Hno d Hd Hid). }
  split.
  - unfold put_document_status, try_catch, bind, update_status.
    rewrite Hn, Hnone. reflexivity.
  - unfold delete_document, try_catch, bind, delete_from_documents.
    rewrite Hn. cbn [ret]. f_equal.
    rewrite (filter_none (fun d => Sql.eq_int (Some (doc_id d)) (Some n))).
    + rewrite filter_all.
      * rewrite filter_all by reflexivity.
        destruct s as [[cs ds its] q1 q2 b]. reflexivity.
      * intros d Hd. apply negb_true_iff, not_true_is_false.
        simpl. rewrite Z.eqb_eq. apply Hno. assumption.
    + intros d Hd. apply not_true_is_false.
      simpl. rewrite Z.eqb_eq. apply Hno. assumption.
Qed.

(* ================================================================== *)
(** ** The older copy of the server, and defaults *)

Lemma next_after_older_spec (fs : list Z) :
  let n := next_after_older fs in
  Forall (fun f => f < n) fs /\ (fs = [] \/ In (n - 1) fs).
Proof.
  destruct fs as [| f fs]; cbv zeta; unfold next_after_older.
  - split; [constructor | left; reflexivity].
  - destruct (fold_max_bounds f fs) as [Hin Hall].
    set (m := fold_right Z.max f fs) in *. split.
    + eapply Forall_impl; [| exact Hall]. cbv beta. intros; lia.
    + right. replace (m + 1 - 1) with m by lia. exact Hin.
Qed.

Section OlderCopy.

Variable date_ok : string -> bool.

Lemma select_next_folio_older_value (ty : Js.value) (s : Store) (n : Z) :
  fst (select_next_folio_older [ty] s) = inr n ->
  n = next_after_older (folios_of_type (Pg.text_of ty) (tables s)).
Proof.
  unfold select_next_folio_older, query, folios_of_type. cbn [fst].
  set (rows := filter _ _).
  pose proof (sql_max_non_null (map doc_folio rows)) as Hmax.
  unfold Sql.add_int4, next_after_older.
  destruct (non_null (map doc_folio rows)) as [| f fs]; rewrite Hmax;
    unfold Sql.coalesce.
  all: destruct (Pg.in_int4 _); intros H;
    [injection H as <-; reflexivity | discriminate H].
Qed.

(** X12.  The older copy of the server numbers without a floor.  There a
    request without a truthy folio gets max existing folio of its type + 1:
    a folio above every folio of the type, the successor of one of them,
    and 1 when the type has no document. *)
Theorem older_copy_folio (body : Body) (s : Store) (d : Document) (s' : Store) :
  Js.truthy (folio body) = false ->
  post_documents_older date_ok body s
  = (inr (Created "Documento creado exitosamente" d), s') ->
  let fs := folios_of_type (Pg.text_of (type body)) (tables s) in
  exists n,
    doc_folio d = Some n /\
    n = next_after_older fs /\
    Forall (fun f => f < n) fs /\
    (fs = [] \/ In (n - 1) fs) /\
    (fs = [] -> n = 1).
Proof.
  intros Hfalsy Hrun fs.
  pose proof (post_documents_with_outcome date_ok resolve_folio_older
                resolve_folio_older_reads body s) as H.
  unfold post_documents_older in Hrun. rewrite Hrun in H.
  inversion H as [| f ft neto tax d' rows s'' Hf Htot Hrow Hfk Hc Hd Hi Hall Hb];
    subst.
  assert (Hfolio : f = Js.Num (next_after_older fs)).
  { revert Hf. unfold resolve_folio_older. rewrite Hfalsy. cbn [negb].
    unfold bind.
    destruct (select_next_folio_older [type body] _)
      as [[e | n] s1] eqn:E; cbn [fst ret]; [discriminate |].
    intros Hn. inversion Hn; subst. f_equal.
    apply (select_next_folio_older_value (type body) (snd (BEGIN s))).
    rewrite E. reflexivity. }
  subst f. apply document_of_params_row in Hrow.
  destruct Hrow as (_ & _ & Hfo & _).
  apply ranged_in_Num in Hfo. destruct Hfo as [Hfo _].
  exists (next_after_older fs).
  destruct (next_after_older_spec fs) as [H1 H2].
  repeat split; auto.
  intros E. unfold fs in *. rewrite E. reflexivity.
Qed.

End OlderCopy.

Section Defaults.

Variable date_ok : string -> bool.

(** The descriptive columns of the row an accepted INSERT stores. *)
Lemma document_of_params_descriptive id body f neto tax ft d :
  document_of_params date_ok id (document_params body f neto tax ft) = inr d ->
  date_in date_ok "expiration_date" (expiration_date body ||| Js.Null)
  = inr (doc_expiration_date d) /\
  Pg.varchar_in 50 "status" (status body ||| Js.Str "Emitida")
  = inr (doc_status d) /\
  Pg.varchar_in 255 "reference" (reference body ||| Js.Str "")
  = inr (doc_reference d) /\
  Pg.int4_in "parent_id" (parent_id body ||| Js.Null) = inr (doc_parent_id d) /\
  Pg.varchar_in 255 "driver" (driver body ||| Js.Str "") = inr (doc_driver d) /\
  Pg.varchar_in 255 "plate" (plate body ||| Js.Str "") = inr (doc_plate d) /\
  Pg.varchar_in 255 "dispatch_type" (dispatch_type body ||| Js.Str "")
  = inr (doc_dispatch_type d) /\
  Pg.varchar_in 500 "file_url" (file_url body ||| Js.Str "")
  = inr (doc_file_url d).
Proof.
  unfold document_params, document_of_params. intros H.
  repeat match type of H with
         | and_then _ _ = inr _ =>
             apply and_then_inr in H; destruct H as (? & ? & H)
         end.
  inversion H; subst; clear H; simpl.
  repeat split; assumption.
Qed.

(** X13.  What a created document gets for fields that are not sent, or
    sent falsy: status "Emitida"; reference, driver, plate, dispatch type
    and file url the empty string; expiration date and parent id NULL (so a
    parent id of 0 is stored as NULL). *)
Theorem creation_defaults (body : Body) (s : Store) (d : Document) (s' : Store) :
  post_documents date_ok body s
  = (inr (Created "Documento creado exitosamente" d), s') ->
  (Js.truthy (status body) = false -> doc_status d = Some "Emitida") /\
  (Js.truthy (reference body) = false -> doc_reference d = Some "") /\
  (Js.truthy (driver body) = false -> doc_driver d = Some "") /\
  (Js.truthy (plate body) = false -> doc_plate d = Some "") /\
  (Js.truthy (dispatch_type body) = false -> doc_dispatch_type d = Some "") /\
  (Js.truthy (file_url body) = false -> doc_file_url d = Some "") /\
  (Js.truthy (expiration_date body) = false -> doc_expiration_date d = None) /\
  (Js.truthy (parent_id body) = false -> doc_parent_id d = None).
Proof.
  intros Hrun. committed Hrun.
  apply document_of_params_descriptive in Hrow.
  destruct Hrow as (He & Hs & Hr & Hp & Hdr & Hpl & Hdt & Hfu).
  unfold Js.or in *.
  repeat split; intros Hfalsy;
    match goal with
    | E : context [Js.truthy ?v] |- _ =>
        match type of Hfalsy with
        | Js.truthy v = false => rewrite Hfalsy in E; inversion E; reflexivity
        end
    end.
Qed.

End Defaults.

(* ================================================================== *)
(** ** The import of companies *)

Lemma company_of_cells_id id n i c a st ty r g row :
  company_of_cells id n i c a st ty r g = inr row -> co_id row = id.
Proof.
  unfold company_of_cells. intros H.
  repeat match type of H with
         | and_then _ _ = inr _ =>
             apply and_then_inr in H; destruct H as (? & ? & H)
         end.
  inversion H. reflexivity.
Qed.

Lemma varchar_in_Str_fits n col t :
  (String.length t <= n)%nat -> Pg.varchar_in n col (Js.Str t) = inr (Some t).
Proof.
  intros H. unfold Pg.varchar_in. cbn [Pg.text_of].
  apply Nat.leb_le in H. rewrite H. reflexivity.
Qed.

Lemma imported_row_fixed id c row :
  imported_row id c = inr row ->
  co_id row = id /\ imported_as_client row /\
  Pg.varchar_in 255 "name" (Imp.name c) = inr (co_name row) /\
  Pg.varchar_in 50 "rut" (Imp.rut c) = inr (co_rut row).
Proof.
  unfold imported_row, company_of_cells. intros H.
  repeat match type of H with
         | and_then _ _ = inr _ =>
             apply and_then_inr in H; destruct H as (? & ? & H)
         end.
  inversion H; subst; clear H. unfold imported_as_client. cbn.
  repeat match goal with
         | E : Pg.varchar_in _ _ (Js.Str _) = inr _ |- _ =>
             rewrite varchar_in_Str_fits in E by (cbn; lia);
             inversion E; subst; clear E
         end.
  repeat split; assumption.
Qed.

Lemma import_step c cs db :
  import_each (c :: cs) db
  = match imported_row (companies_id_seq db) c with
    | inl e => (inl e, db)
    | inr row =>
        import_each cs
          {| store :=
               with_tables (store db)
                 {| companies := companies (tables (store db)) ++ [row];
                    documents := documents (tables (store db));
                    document_items := document_items (tables (store db)) |};
             companies_id_seq := companies_id_seq db + 1;
             contacts := contacts db;
             contacts_id_seq := contacts_id_seq db |}
    end.
Proof.
  cbn [import_each]. unfold pool_bind, insert_imported_company.
  cbn [import_params]. fold (imported_row (companies_id_seq db) c).
  destruct (imported_row (companies_id_seq db) c); reflexivity.
Qed.

(** What the loop of the import leaves behind: rows appended to the
    companies, each with the fixed type, address and status; nothing else
    is touched. *)
Lemma import_each_effect cs db :
  exists rows,
    companies (tables (store (snd (import_each cs db))))
    = companies (tables (store db)) ++ rows /\
    documents (tables (store (snd (import_each cs db))))
    = documents (tables (store db)) /\
    document_items (tables (store (snd (import_each cs db))))
    = document_items (tables (store db)) /\
    contacts (snd (import_each cs db)) = contacts db /\
    companies_id_seq db <= companies_id_seq (snd (import_each cs db)) /\
    Forall imported_as_client rows /\
    Forall (fun row => companies_id_seq db <= co_id row) rows /\
    StronglySorted Z.lt (map co_id rows) /\
    documents_id_seq (store (snd (import_each cs db)))
    = documents_id_seq (store db) /\
    Forall (fun row => co_id row < companies_id_seq (snd (import_each cs db)))
           rows /\
    contacts_id_seq (snd (import_each cs db)) = contacts_id_seq db.
Proof.
  revert db. induction cs as [| c cs IH]; intros db.
  - exists []. cbn. rewrite app_nil_r.
    repeat split; try constructor; lia.
  - rewrite import_step.
    destruct (imported_row (companies_id_seq db) c) as [e | row] eqn:Erow.
    + exists []. cbn. rewrite app_nil_r.
      repeat split; try constructor; lia.
    + match goal with
      | |- context [import_each cs ?db1] =>
          destruct (IH db1)
            as (rows & Hc & Hd & Hi & Hct & Hseq & Hfix & Hge & Hsorted & Hdq
                & Hlt & Hcq)
      end.
      cbn [store tables companies documents document_items contacts
             companies_id_seq with_tables documents_id_seq contacts_id_seq]
        in Hc, Hd, Hi, Hct, Hseq, Hge, Hdq, Hlt, Hcq.
      apply imported_row_fixed in Erow. destruct Erow as (Hid & Hcl & _).
      exists (row :: rows).
      rewrite Hc, Hd, Hi, Hct, Hdq, Hcq, <- app_assoc. cbn [app List.length].
      split; [reflexivity |]. split; [reflexivity |].
      split; [reflexivity |]. split; [reflexivity |].
      split; [lia |]. split; [constructor; assumption |].
      split; [| split; [| split; [| split]]].
      * constructor; [lia |].
        eapply Forall_impl; [| exact Hge]. cbv beta. intros; lia.
      * cbn [map]. constructor; [assumption |].
        rewrite Forall_map. eapply Forall_impl; [| exact Hge].
        cbv beta. intros; lia.
      * reflexivity.
      * constructor; [lia |].
        eapply Forall_impl; [| exact Hlt]. cbv beta. intros; lia.
      * reflexivity.
Qed.

Lemma import_each_stops pre bad post db :
  Forall import_accepts pre -> import_rejects bad ->
  (exists e, fst (import_each (pre ++ bad :: post) db) = inl e) /\
  List.length (companies (tables (store (snd (import_each (pre ++ bad :: post) db)))))
  = (List.length (companies (tables (store db))) + List.length pre)%nat.
Proof.
  intros Hpre Hbad. revert db.
  induction Hpre as [| c pre Hc _ IH]; intros db; cbn [app];
    rewrite import_step.
  - destruct (imported_row (companies_id_seq db) bad) as [e | row] eqn:E.
    + split; [exists e; reflexivity | cbn [snd store List.length]; lia].
    + exfalso. exact (Hbad _ _ E).
  - destruct (Hc (companies_id_seq db)) as (row & ->).
    match goal with
    | |- context [import_each _ ?db1] => destruct (IH db1) as [He Hl]
    end.
    split; [exact He |]. rewrite Hl. cbn. rewrite length_app. cbn. lia.
Qed.

Lemma import_each_all cs db :
  Forall import_accepts cs ->
  fst (import_each cs db) = inr tt /\
  List.length (companies (tables (store (snd (import_each cs db)))))
  = (List.length (companies (tables (store db))) + List.length cs)%nat.
Proof.
  intros Hcs. revert db.
  induction Hcs as [| c cs Hc _ IH]; intros db.
  - cbn. split; [reflexivity | lia].
  - rewrite import_step. destruct (Hc (companies_id_seq db)) as (row & ->).
    match goal with
    | |- context [import_each _ ?db1] => destruct (IH db1) as [He Hl]
    end.
    split; [exact He |]. rewrite Hl. cbn. rewrite length_app. cbn. lia.
Qed.

(** X14.  POST /api/companies/import is not all or nothing.  The entries
    are inserted one statement at a time: when the store rejects an entry,
    the answer is the 500 "Error importando" and the companies of all the
    entries before it stay in the table; when it rejects none, all are
    added.  Every imported row has type "Cliente", address "Dirección
    pendiente" and status "Activo"; documents, items and contacts are not
    touched. *)
Theorem import_is_not_atomic (cs : list Imp.entry) (db : Database) :
  let r := post_companies_import (Some cs) db in
  (exists rows,
      companies (tables (store (snd r)))
      = companies (tables (store db)) ++ rows /\
      Forall imported_as_client rows /\
      documents (tables (store (snd r))) = documents (tables (store db)) /\
      document_items (tables (store (snd r)))
      = document_items (tables (store db)) /\
      contacts (snd r) = contacts db) /\
  (forall pre bad post,
      cs = pre ++ bad :: post ->
      Forall import_accepts pre -> import_rejects bad ->
      fst r = inr (Refused 500 "Error importando") /\
      List.length (companies (tables (store (snd r))))
      = (List.length (companies (tables (store db))) + List.length pre)%nat) /\
  (Forall import_accepts cs ->
   fst r = inr (Done "Importación exitosa") /\
   List.length (companies (tables (store (snd r))))
   = (List.length (companies (tables (store db))) + List.length cs)%nat).
Proof.
  intros r.
  assert (Hr : r = match import_each cs db with
                   | (inl _, db') => (inr (Refused 500 "Error importando"), db')
                   | (inr _, db') => (inr (Done "Importación exitosa"), db')
                   end).
  { subst r. unfold post_companies_import, pool_try, pool_bind, pool_ret.
    destruct (import_each cs db) as [[e | []] db']; reflexivity. }
  assert (Hsnd : snd r = snd (import_each cs db)).
  { rewrite Hr. destruct (import_each cs db) as [[e | []] db']; reflexivity. }
  rewrite Hsnd. split; [| split].
  - destruct (import_each_effect cs db)
      as (rows & Hc & Hd & Hi & Hct & _ & Hfix & _).
    exists rows. repeat split; assumption.
  - intros pre bad post -> Hpre Hbad.
    destruct (import_each_stops pre bad post db Hpre Hbad) as [[e He] Hl].
    split; [| exact Hl]. rewrite Hr.
    destruct (import_each _ db) as [[e' | []] db']; cbn in *;
      [reflexivity | discriminate].
  - intros Hcs. destruct (import_each_all cs db Hcs) as [He Hl].
    split; [| exact Hl]. rewrite Hr.
    destruct (import_each cs db) as [[e' | []] db']; cbn in *;
      [discriminate | reflexivity].
Qed.

(* ================================================================== *)
(** ** The keys of the whole database *)

Lemma references_document_documents (t t' : Tables) (c : Pg.cell Z) :
  documents t' = documents t ->
  references_document t' c = references_document t c.
Proof. unfold references_document. intros ->. reflexivity. Qed.

Lemma references_company_spec (t : Tables) (c : Pg.cell Z) :
  references_company t c = true <->
  c = None \/ exists co, In co (companies t) /\ c = Some (co_id co).
Proof.
  unfold references_company. destruct c as [k |].
  - rewrite existsb_exists. split.
    + intros (co & Hin & Hk). apply Z.eqb_eq in Hk. right. exists co.
      split; [assumption | congruence].
    + intros [H | (co & Hin & Hk)]; [discriminate |].
      exists co. split; [assumption |]. inversion Hk. apply Z.eqb_refl.
  - split; [auto | reflexivity].
Qed.

(** Changing the companies only: the keys of the store hold again if the
    new company ids are distinct and every company a document refers to is
    still there. *)
Lemma consistent_other_companies (s s' : Store) :
  consistent s ->
  documents (tables s') = documents (tables s) ->
  document_items (tables s') = document_items (tables s) ->
  documents_id_seq s' = documents_id_seq s ->
  NoDup (map co_id (companies (tables s'))) ->
  (forall d, In d (documents (tables s)) ->
             references_company (tables s') (doc_company_id d) = true) ->
  consistent s'.
Proof.
  intros (Hsorted & Hbelow & Hitems & Hdocs & Hcos) Hd Hi Hq Hnd Href.
  unfold consistent. rewrite Hd, Hi, Hq. repeat split; auto.
  - eapply Forall_impl; [| exact Hitems]. cbv beta. intros i H.
    rewrite (references_document_documents (tables s) (tables s')); auto.
  - apply Forall_forall. exact Href.
Qed.

Lemma NoDup_map_filter {A B} (g : A -> B) (keep : A -> bool) (l : list A) :
  NoDup (map g l) -> NoDup (map g (filter keep l)).
Proof.
  induction l as [| a l IH]; simpl; [auto |].
  intros H. inversion H as [| ? ? Hnot Hrest]; subst.
  destruct (keep a); simpl; [| auto].
  constructor; [| auto].
  intros Hin. apply Hnot. rewrite in_map_iff in *.
  destruct Hin as (x & Hx & Hin). exists x. split; [assumption |].
  apply filter_In in Hin. tauto.
Qed.

Lemma NoDup_new_id (ids : list Z) (q : Z) (rows : list Z) :
  NoDup ids -> Forall (fun i => i < q) ids ->
  Forall (fun i => q <= i) rows -> StronglySorted Z.lt rows ->
  NoDup (ids ++ rows).
Proof.
  intros Hnd Hlt Hge Hs. induction ids as [| a ids IH]; cbn [app].
  - apply StronglySorted_lt_NoDup. assumption.
  - inversion Hnd as [| ? ? Hnot Hrest]; subst.
    inversion Hlt as [| ? ? Ha Hlt']; subst.
    constructor; [| auto].
    intros Hin. apply in_app_or in Hin. destruct Hin as [Hin | Hin];
      [contradiction |].
    rewrite Forall_forall in Hge. specialize (Hge a Hin). lia.
Qed.

Section DatabaseKeys.

Variable date_ok : string -> bool.

Lemma handle_companies r s :
  companies (tables (snd (handle date_ok r s))) = companies (tables s).
Proof.
  destruct r as [body | id status | id]; cbn [handle].
  - pose proof (post_documents_outcome date_ok body s) as H.
    destruct (post_documents date_ok body s) as [out s'].
    inversion H as [e s0 Ht Hb
                   | f ft neto tax d rows s0 Hf Htot Hrow Hfk Hc Hd Hi Hall Hb];
      subst; cbn [snd]; [rewrite Ht; reflexivity | exact Hc].
  - unfold put_document_status, try_catch, bind, update_status.
    destruct (Pg.int4_in "id" (Js.Str id)); simpl; [reflexivity |].
    destruct (existsb _ _); simpl; [| reflexivity].
    destruct (Pg.varchar_in 50 "status" status); reflexivity.
  - unfold delete_document, try_catch, bind, delete_from_documents.
    destruct (Pg.int4_in "id" (Js.Str id)); reflexivity.
Qed.

Lemma documents_keep_db_consistent r db :
  db_consistent db -> db_consistent (snd (on_store (handle date_ok r) db)).
Proof.
  intros (Hs & Hco & Hct & Hids). unfold on_store.
  pose proof (handle_consistent date_ok r (store db) Hs) as Hs'.
  pose proof (handle_companies r (store db)) as Hc.
  destruct (handle date_ok r (store db)) as [out s']. cbn [snd] in *.
  unfold db_consistent. cbn [store companies_id_seq contacts].
  rewrite Hc. split; [exact Hs' |]. split; [exact Hco |].
  split; [| exact Hids].
  eapply Forall_impl; [| exact Hct]. cbv beta. intros ct H.
  rewrite (references_company_companies (tables (store db)) (tables s')); auto.
Qed.

(** Rows appended to the companies, with fresh ids. *)
Lemma more_companies_keep_db_consistent db db' rows :
  db_consistent db ->
  companies (tables (store db')) = companies (tables (store db)) ++ rows ->
  documents (tables (store db')) = documents (tables (store db)) ->
  document_items (tables (store db')) = document_items (tables (store db)) ->
  documents_id_seq (store db') = documents_id_seq (store db) ->
  contacts db' = contacts db ->
  contacts_id_seq db' = contacts_id_seq db ->
  companies_id_seq db <= companies_id_seq db' ->
  Forall (fun row => companies_id_seq db <= co_id row) rows ->
  Forall (fun row => co_id row < companies_id_seq db') rows ->
  StronglySorted Z.lt (map co_id rows) ->
  db_consistent db'.
Proof.
  intros (Hs & Hco & Hct & Hids) Hc Hd Hi Hq Hcts Hcq Hseq Hge Hlt Hsorted.
  assert (Hmono : forall k, references_company (tables (store db)) k = true ->
                            references_company (tables (store db')) k = true).
  { intros k. rewrite !references_company_spec, Hc.
    intros [-> | (co & Hin & ->)]; [left; reflexivity |].
    right. exists co. split; [apply in_or_app; left; assumption | reflexivity]. }
  unfold db_consistent. split; [| split; [| split]].
  - apply (consistent_other_companies (store db)); auto.
    + rewrite Hc, map_app.
      destruct Hs as (_ & _ & _ & _ & Hnd).
      apply (NoDup_new_id _ (companies_id_seq db)); auto.
      * rewrite Forall_map. exact Hco.
      * rewrite Forall_map. exact Hge.
    + destruct Hs as (_ & _ & _ & Hdocs & _).
      rewrite Forall_forall in Hdocs. intros d Hin. apply Hmono. auto.
  - rewrite Hc. apply Forall_app. split; [| exact Hlt].
    eapply Forall_impl; [| exact Hco]. cbv beta. intros; lia.
  - rewrite Hcts. eapply Forall_impl; [| exact Hct]. cbv beta. auto.
  - rewrite Hcts, Hcq. exact Hids.
Qed.

Lemma post_companies_keeps body db :
  db_consistent db -> db_consistent (snd (post_companies body db)).
Proof.
  intros H. unfold post_companies, pool_try, pool_bind, pool_ret,
              insert_company, add_company.
  match goal with
  | |- context [company_of_cells ?i ?a ?b ?c ?d ?e ?f ?g ?h] =>
      destruct (company_of_cells i a b c d e f g h) as [e0 | row] eqn:E
  end; cbn [snd]; [exact H |].
  apply company_of_cells_id in E.
  apply (more_companies_keep_db_consistent db _ [row]); cbn; auto;
    try lia.
  - constructor; [lia | constructor].
  - constructor; [lia | constructor].
  - repeat constructor.
Qed.

Lemma import_keeps cs db :
  db_consistent db -> db_consistent (snd (post_companies_import cs db)).
Proof.
  intros H. destruct cs as [cs |]; [| exact H].
  assert (Hsnd : snd (post_companies_import (Some cs) db)
                 = snd (import_each cs db)).
  { unfold post_companies_import, pool_try, pool_bind, pool_ret.
    destruct (import_each cs db) as [[e | []] db']; reflexivity. }
  rewrite Hsnd.
  destruct (import_each_effect cs db)
    as (rows & Hc & Hd & Hi & Hct & Hseq & _ & Hge & Hsorted & Hdq & Hlt
        & Hcq).
  apply (more_companies_keep_db_consistent db _ rows); auto.
Qed.

Lemma existsb_map_same_id {A} (id : A -> Z) (g : A -> A) (k : Z) (l : list A) :
  (forall a, id (g a) = id a) ->
  existsb (fun a => id a =? k) (map g l) = existsb (fun a => id a =? k) l.
Proof.
  intros Hg. induction l as [| a l IH]; cbn; [reflexivity |].
  rewrite Hg, IH. reflexivity.
Qed.

Lemma put_company_keeps id body db :
  db_consistent db -> db_consistent (snd (put_company id body db)).
Proof.
  intros H. unfold put_company, pool_try, pool_bind, pool_ret, update_company.
  destruct (Pg.int4_in "id" (Js.Str id)) as [e | k]; cbn [snd]; [exact H |].
  destruct (company_columns _ _ _ _ _ _ _) as [e | set] eqn:E;
    cbn [snd]; [exact H |].
  destruct (existsb _ _); cbn [snd]; [| exact H].
  assert (Hid : forall c, co_id (set c) = co_id c).
  { unfold company_columns in E.
    repeat match type of E with
           | and_then _ _ = inr _ =>
               apply and_then_inr in E; destruct E as (? & ? & E)
           end.
    inversion E. reflexivity. }
  match goal with
  | |- context [map ?g (companies _)] => set (f := g)
  end.
  assert (Hf : forall c, co_id (f c) = co_id c).
  { intros c. unfold f. destruct (Sql.eq_int _ _); auto. }
  assert (Hmap : map co_id (map f (companies (tables (store db))))
                 = map co_id (companies (tables (store db)))).
  { rewrite map_map. apply map_ext. exact Hf. }
  destruct H as (Hs & Hco & Hct & Hids).
  assert (Href : forall c,
             references_company
               (tables (store (with_companies db
                                 (map f (companies (tables (store db))))))) c
             = references_company (tables (store db)) c).
  { intros [c |]; [| reflexivity]. unfold references_company.
    cbn [with_companies store with_tables tables companies].
    apply (existsb_map_same_id co_id f c). exact Hf. }
  unfold db_consistent. split; [| split; [| split; [| exact Hids]]].
  - apply (consistent_other_companies (store db)); auto.
    + cbn [with_companies store with_tables tables companies]. rewrite Hmap.
      destruct Hs as (_ & _ & _ & _ & Hnd). exact Hnd.
    + destruct Hs as (_ & _ & _ & Hdocs & _).
      rewrite Forall_forall in Hdocs. intros d Hin. rewrite Href. auto.
  - cbn [with_companies store with_tables tables companies companies_id_seq].
    rewrite Forall_map. eapply Forall_impl; [| exact Hco]. cbv beta.
    intros c Hc. rewrite Hf. exact Hc.
  - cbn [with_companies contacts].
    eapply Forall_impl; [| exact Hct]. cbv beta. intros ct Hc.
    rewrite Href. exact Hc.
Qed.

Lemma delete_company_keeps id db :
  db_consistent db -> db_consistent (snd (delete_company id db)).
Proof.
  intros H. unfold delete_company, pool_try, pool_bind, pool_ret,
              delete_from_companies.
  destruct (Pg.int4_in "id" (Js.Str id)) as [e | k]; cbn [snd]; [exact H |].
  match goal with
  | |- context [existsb ?p (documents _)] =>
      destruct (existsb p (documents (tables (store db)))) eqn:Eref
  end; cbn [snd]; [exact H |].
  set (hit := fun c : Company => Sql.eq_int (Some (co_id c)) k) in *.
  set (gone := filter hit (companies (tables (store db)))) in *.
  set (refers := fun c : Pg.cell Z =>
                   existsb (fun co => Sql.eq_int c (Some (co_id co))) gone)
    in *.
  destruct H as (Hs & Hco & Hct & Hnd & Hlt).
  assert (Hkeep : forall c,
             refers c = false ->
             references_company (tables (store db)) c = true ->
             references_company
               {| companies := filter (fun co => negb (hit co))
                                      (companies (tables (store db)));
                  documents := documents (tables (store db));
                  document_items := document_items (tables (store db)) |} c
             = true).
  { intros c Hno. rewrite !references_company_spec.
    intros [-> | (co & Hin & ->)]; [left; reflexivity |].
    right. exists co. split; [| reflexivity]. cbn [companies].
    apply filter_In. split; [assumption |].
    destruct (hit co) eqn:Ehit; [| reflexivity]. exfalso.
    assert (Hex : refers (Some (co_id co)) = true).
    { unfold refers. apply existsb_exists. exists co. split.
      - unfold gone. apply filter_In. split; assumption.
      - cbn. apply Z.eqb_refl. }
    congruence. }
  unfold db_consistent. split; [| split; [| split; [| split]]].
  - apply (consistent_other_companies (store db)); auto.
    + cbn [with_contacts with_companies store with_tables tables companies].
      apply NoDup_map_filter. destruct Hs as (_ & _ & _ & _ & Hn). exact Hn.
    + destruct Hs as (_ & _ & _ & Hdocs & _).
      rewrite Forall_forall in Hdocs. intros d Hin.
      cbn [with_contacts with_companies store with_tables tables].
      apply Hkeep; [| auto].
      destruct (refers (doc_company_id d)) eqn:E; [| reflexivity].
      exfalso. apply not_true_iff_false in Eref. apply Eref.
      apply existsb_exists. exists d. split; [assumption | exact E].
  - cbn [with_contacts with_companies store with_tables tables companies
           companies_id_seq].
    apply Forall_forall. intros c Hin. apply filter_In in Hin.
    rewrite Forall_forall in Hco. apply Hco. tauto.
  - cbn [with_contacts with_companies store with_tables tables contacts].
    apply Forall_forall. intros ct Hin. apply filter_In in Hin.
    destruct Hin as [Hin Hno]. apply Hkeep.
    + apply negb_true_iff in Hno. exact Hno.
    + rewrite Forall_forall in Hct. auto.
  - cbn [with_contacts contacts]. apply NoDup_map_filter. exact Hnd.
  - cbn [with_contacts with_companies contacts contacts_id_seq].
    apply Forall_forall. intros ct Hin. apply filter_In in Hin.
    rewrite Forall_forall in Hlt. apply Hlt. tauto.
Qed.

Lemma next_contact_id_keeps db :
  db_consistent db -> db_consistent (next_contact_id db).
Proof.
  intros (Hs & Hco & Hct & Hnd & Hlt). unfold db_consistent, next_contact_id.
  cbn [store companies_id_seq contacts contacts_id_seq].
  repeat (split; [assumption |]).
  eapply Forall_impl; [| exact Hlt]. cbv beta. intros; lia.
Qed.

Lemma contact_of_params_row id company next_call n p e r row :
  contact_of_params id company next_call n p e r = inr row ->
  ct_id row = id /\ ct_company_id row = company /\
  ct_next_call row = next_call /\
  Pg.varchar_in 100 "email" e = inr (ct_email row).
Proof.
  unfold contact_of_params. intros E.
  repeat match type of E with
         | and_then _ _ = inr _ =>
             apply and_then_inr in E; destruct E as (? & ? & E)
         end.
  inversion E; subst; clear E. cbn. repeat split. assumption.
Qed.

Lemma post_contacts_keeps body db :
  db_consistent db -> db_consistent (snd (post_contacts date_ok body db)).
Proof.
  intros H. unfold post_contacts, pool_try, pool_bind, pool_ret,
              insert_contact.
  destruct (Pg.int4_in "company_id" _) as [e | c1]; cbn [snd]; [exact H |].
  destruct (date_in date_ok "next_call" _) as [e | c6]; cbn [snd];
    [exact H |].
  destruct (contact_of_params _ _ _ _ _ _ _) as [e | row] eqn:E; cbn [snd];
    [exact H |].
  destruct (references_company _ _) eqn:Eref; cbn [snd];
    [| apply next_contact_id_keeps; exact H].
  apply contact_of_params_row in E. destruct E as (Hid & Hco' & _).
  destruct H as (Hs & Hco & Hct & Hnd & Hlt).
  unfold db_consistent, with_contacts, next_contact_id.
  cbn [store companies_id_seq contacts contacts_id_seq].
  split; [exact Hs |]. split; [exact Hco |]. split; [| split].
  - apply Forall_app. split; [exact Hct |].
    constructor; [rewrite Hco'; exact Eref | constructor].
  - rewrite map_app. apply (NoDup_new_id _ (contacts_id_seq db)).
    + exact Hnd.
    + rewrite Forall_map. exact Hlt.
    + cbn. constructor; [lia | constructor].
    + cbn. repeat constructor.
  - apply Forall_app. split.
    + eapply Forall_impl; [| exact Hlt]. cbv beta. intros; lia.
    + constructor; [lia | constructor].
Qed.

Lemma update_contacts_keeps id change db :
  (forall set ct, change = inr set ->
                  ct_company_id (set ct) = ct_company_id ct /\
                  ct_id (set ct) = ct_id ct) ->
  db_consistent db -> db_consistent (snd (update_contacts id change db)).
Proof.
  intros Hset H. unfold update_contacts.
  destruct (Pg.int4_in "id" id) as [e | k]; cbn [snd]; [exact H |].
  destruct change as [e | set]; cbn [snd]; [exact H |].
  destruct (existsb _ _); cbn [snd]; [| exact H].
  destruct H as (Hs & Hco & Hct & Hnd & Hlt).
  match goal with
  | |- context [map ?g (contacts db)] => set (f := g)
  end.
  assert (Hf : forall ct, ct_company_id (f ct) = ct_company_id ct /\
                          ct_id (f ct) = ct_id ct).
  { intros ct. unfold f. destruct (Sql.eq_int _ _); [| split; reflexivity].
    exact (Hset set ct eq_refl). }
  unfold db_consistent. cbn [with_contacts store companies_id_seq contacts
                               contacts_id_seq].
  split; [exact Hs |]. split; [exact Hco |]. split; [| split].
  - rewrite Forall_map. eapply Forall_impl; [| exact Hct]. cbv beta.
    intros ct Hc. rewrite (proj1 (Hf ct)). exact Hc.
  - rewrite map_map.
    rewrite (map_ext (fun ct => ct_id (f ct)) ct_id (fun ct => proj2 (Hf ct))).
    exact Hnd.
  - rewrite Forall_map. eapply Forall_impl; [| exact Hlt]. cbv beta.
    intros ct Hc. rewrite (proj2 (Hf ct)). exact Hc.
Qed.

Lemma contact_details_keys n p e r set ct :
  contact_details n p e r = inr set ->
  ct_company_id (set ct) = ct_company_id ct /\ ct_id (set ct) = ct_id ct.
Proof.
  unfold contact_details. intros E.
  repeat match type of E with
         | and_then _ _ = inr _ =>
             apply and_then_inr in E; destruct E as (? & ? & E)
         end.
  inversion E. split; reflexivity.
Qed.

Lemma set_next_call_same c1 ct : same_but_next_call ct (set_next_call c1 ct).
Proof. unfold same_but_next_call. cbn. repeat split; reflexivity. Qed.

Lemma put_contact_keeps id body db :
  db_consistent db -> db_consistent (snd (put_contact date_ok id body db)).
Proof.
  intros H. unfold put_contact, pool_try, pool_bind, pool_ret.
  assert (H1 : db_consistent
                 (snd ((if Js.truthy (Ct.name body)
                        then update_contact_details
                               [Ct.name body; Ct.phone body; Ct.email body;
                                Ct.role body; Js.Str id]
                        else fun db => (inr tt, db)) db))).
  { destruct (Js.truthy (Ct.name body)); [| exact H].
    cbn [update_contact_details]. apply update_contacts_keeps; [| exact H].
    intros set ct E. exact (contact_details_keys _ _ _ _ set ct E). }
  match type of H1 with
  | db_consistent (snd ?m) => destruct m as [[e | []] db1]
  end; cbn [snd] in *; [exact H1 |].
  assert (H2 : db_consistent
                 (snd ((if defined (Ct.next_call body)
                        then update_contact_next_call date_ok
                               [Ct.next_call body; Js.Str id]
                        else fun db => (inr tt, db)) db1))).
  { destruct (defined (Ct.next_call body)); [| exact H1].
    cbn [update_contact_next_call].
    destruct (date_in date_ok "next_call" _) as [e | c1]; [exact H1 |].
    apply update_contacts_keeps; [| exact H1].
    intros set ct E. inversion E. split; reflexivity. }
  match type of H2 with
  | db_consistent (snd ?m) => destruct m as [[e | []] db2]
  end; cbn [snd] in *; exact H2.
Qed.

Lemma delete_contact_keeps id db :
  db_consistent db -> db_consistent (snd (delete_contact id db)).
Proof.
  intros H. unfold delete_contact, pool_try, pool_ret.
  destruct (Pg.int4_in "id" (Js.Str id)) as [e | k]; cbn [snd]; [exact H |].
  destruct H as (Hs & Hco & Hct & Hnd & Hlt).
  unfold db_consistent. cbn [with_contacts store companies_id_seq contacts
                               contacts_id_seq].
  split; [exact Hs |]. split; [exact Hco |]. split; [| split].
  - apply Forall_forall. intros ct Hin. apply filter_In in Hin.
    rewrite Forall_forall in Hct. apply Hct. tauto.
  - apply NoDup_map_filter. exact Hnd.
  - apply Forall_forall. intros ct Hin. apply filter_In in Hin.
    rewrite Forall_forall in Hlt. apply Hlt. tauto.
Qed.

Lemma answer_keeps c db :
  db_consistent db -> db_consistent (answer date_ok c db).
Proof.
  destruct c; cbn [answer].
  - apply documents_keep_db_consistent.
  - apply post_companies_keeps.
  - apply put_company_keeps.
  - apply delete_company_keeps.
  - apply import_keeps.
  - apply post_contacts_keeps.
  - apply put_contact_keeps.
  - apply delete_contact_keeps.
Qed.

(** X15.  The keys of the database hold along any sequence of requests to
    the handlers of documents, companies and contacts: ids are never
    shared, every item has its document, every document and every contact
    its company (or none), whatever the requests carry and whichever of
    them fail. *)
Theorem database_keys_hold_along_any_run (cs : list call) (db : Database) :
  db_consistent db -> db_consistent (answer_all date_ok cs db).
Proof.
  revert db. induction cs as [| c cs IH]; intros db H; cbn; [exact H |].
  apply IH. apply answer_keeps. exact H.
Qed.

End DatabaseKeys.

(* ================================================================== *)
(** ** Companies *)

Lemma refers_gone (cs : list Company) (n : Z) (k : Pg.cell Z) :
  existsb (fun c => Sql.eq_int k (Some (co_id c)))
          (filter (fun c => Sql.eq_int (Some (co_id c)) (Some n)) cs) = true
  <-> k = Some n /\ exists c, In c cs /\ co_id c = n.
Proof.
  rewrite existsb_exists. split.
  - intros (c & Hin & Hk). apply filter_In in Hin. destruct Hin as [Hin Hhit].
    cbn in Hhit. apply Z.eqb_eq in Hhit.
    destruct k as [k |]; [| discriminate]. cbn in Hk. apply Z.eqb_eq in Hk.
    split; [congruence |]. exists c. split; assumption.
  - intros (-> & c & Hin & Hc). exists c. split.
    + apply filter_In. split; [assumption |]. cbn. apply Z.eqb_eq. exact Hc.
    + cbn. apply Z.eqb_eq. auto.
Qed.

Lemma document_refers_to_company n db d :
  In d (documents (tables (store db))) -> doc_company_id d = Some n ->
  (exists c, In c (companies (tables (store db))) /\ co_id c = n) ->
  existsb
    (fun d =>
       existsb (fun c => Sql.eq_int (doc_company_id d) (Some (co_id c)))
               (filter (fun c => Sql.eq_int (Some (co_id c)) (Some n))
                       (companies (tables (store db)))))
    (documents (tables (store db))) = true.
Proof.
  intros Hin Hd Hc. apply existsb_exists. exists d. split; [assumption |].
  apply refers_gone. split; assumption.
Qed.

(** X16.  DELETE /api/companies/:id.  A company some document refers to
    is not deleted: the store refuses the statement and nothing changes.
    A company no document refers to is deleted together with all its
    contacts; the other companies and contacts, and all documents and
    items, stay. *)
Theorem company_delete (id : string) (n : Z) (db : Database) :
  db_consistent db ->
  Pg.int4_in "id" (Js.Str id) = inr (Some n) ->
  let r := delete_company id db in
  ((exists d, In d (documents (tables (store db))) /\
              doc_company_id d = Some n) ->
   r = (inr (Failed (Pg.ForeignKey "company_id")), db)) /\
  ((forall d, In d (documents (tables (store db))) ->
              doc_company_id d <> Some n) ->
   fst r = inr (Done "Eliminado correctamente") /\
   (forall c, In c (companies (tables (store (snd r)))) <->
              In c (companies (tables (store db))) /\ co_id c <> n) /\
   (forall ct, In ct (contacts (snd r)) <->
               In ct (contacts db) /\ ct_company_id ct <> Some n) /\
   documents (tables (store (snd r))) = documents (tables (store db)) /\
   document_items (tables (store (snd r)))
   = document_items (tables (store db))).
Proof.
  intros (Hs & Hco & Hct & _) Hid r. subst r.
  unfold delete_company, pool_try, pool_bind, pool_ret, delete_from_companies.
  rewrite Hid. split.
  - intros (d & Hin & Hd).
    assert (Hc : exists c, In c (companies (tables (store db))) /\ co_id c = n).
    { destruct Hs as (_ & _ & _ & Hdocs & _).
      rewrite Forall_forall in Hdocs. specialize (Hdocs d Hin).
      rewrite Hd in Hdocs. apply references_company_spec in Hdocs.
      destruct Hdocs as [H | (c & Hc & Hk)]; [discriminate |].
      exists c. split; [assumption | congruence]. }
    rewrite (document_refers_to_company n db d Hin Hd Hc).
    reflexivity.
  - intros Hfree.
    match goal with
    | |- context [existsb ?p (documents _)] =>
        assert (Hno : existsb p (documents (tables (store db))) = false)
    end.
    { apply not_true_iff_false. intros H. apply existsb_exists in H.
      destruct H as (d & Hin & H). apply refers_gone in H.
      exact (Hfree d Hin (proj1 H)). }
    rewrite Hno. cbn [fst snd with_contacts with_companies store with_tables
                        tables companies documents document_items contacts].
    split; [reflexivity |]. split; [| split; [| split; reflexivity]].
    + intros c. rewrite filter_In. cbn. rewrite negb_true_iff, Z.eqb_neq.
      reflexivity.
    + intros ct. rewrite filter_In, negb_true_iff, <- not_true_iff_false.
      rewrite refers_gone. split.
      * intros [Hin Hnot]. split; [assumption |]. intros Hk. apply Hnot.
        split; [assumption |].
        rewrite Forall_forall in Hct. specialize (Hct ct Hin).
        rewrite Hk in Hct. apply references_company_spec in Hct.
        destruct Hct as [H | (c & Hc & Hn)]; [discriminate |].
        exists c. split; [assumption | congruence].
      * intros [Hin Hk]. split; [assumption |]. intros [H _]. exact (Hk H).
Qed.

Lemma fits_varchar_in n col v :
  fits n v -> Pg.varchar_in n col v = inr (Pg.text_of v).
Proof.
  unfold fits, Pg.varchar_in. destruct (Pg.text_of v) as [t |];
    [| reflexivity].
  intros H. apply Nat.leb_le in H. rewrite H. reflexivity.
Qed.

Lemma company_columns_row n i c a ty r g set c0 :
  company_columns n i c a ty r g = inr set ->
  co_id (set c0) = co_id c0 /\ co_status (set c0) = co_status c0 /\
  Pg.varchar_in 255 "name" n = inr (co_name (set c0)) /\
  Pg.varchar_in 255 "industry" i = inr (co_industry (set c0)) /\
  Pg.varchar_in 255 "city" c = inr (co_city (set c0)) /\
  Pg.varchar_in 255 "address" a = inr (co_address (set c0)) /\
  Pg.varchar_in 50 "type" ty = inr (co_type (set c0)) /\
  Pg.varchar_in 50 "rut" r = inr (co_rut (set c0)) /\
  Pg.varchar_in 255 "giro" g = inr (co_giro (set c0)).
Proof.
  unfold company_columns. intros E.
  repeat match type of E with
         | and_then _ _ = inr _ =>
             apply and_then_inr in E; destruct E as (? & ? & E)
         end.
  inversion E; subst; clear E. cbn. repeat split; assumption.
Qed.

Lemma existsb_none {A} (p : A -> bool) (l : list A) :
  (forall a, In a l -> p a = false) -> existsb p l = false.
Proof.
  intros H. apply not_true_iff_false. intros E. apply existsb_exists in E.
  destruct E as (a & Hin & Ha). rewrite (H a Hin) in Ha. discriminate.
Qed.

Lemma company_columns_fits body :
  company_fits body ->
  exists set,
    company_columns (Co.name body) (Co.industry body) (Co.city body)
                    (Co.address body) (Co.type body) (Co.rut body)
                    (Co.giro body) = inr set.
Proof.
  intros (H1 & H2 & H3 & H4 & H5 & H6 & H7). unfold company_columns.
  rewrite (fits_varchar_in _ _ _ H1), (fits_varchar_in _ _ _ H2),
    (fits_varchar_in _ _ _ H3), (fits_varchar_in _ _ _ H4),
    (fits_varchar_in _ _ _ H5), (fits_varchar_in _ _ _ H6),
    (fits_varchar_in _ _ _ H7).
  cbn [and_then]. eexists. reflexivity.
Qed.

(** X17.  PUT /api/companies/:id overwrites the seven columns of the
    statement with what the request carries, so a field the request does
    not send becomes NULL; the status and the id of the company are kept,
    and the companies with another id are left as they are.  For an id no
    company has, the answer is an empty one and nothing changes. *)
Theorem company_update_overwrites (id : string) (n : Z) (body : Co.body)
        (db : Database) :
  Pg.int4_in "id" (Js.Str id) = inr (Some n) ->
  let r := put_company id body db in
  (forall row,
      fst r = inr (CompanyRow (Some row)) ->
      (exists c0, In c0 (companies (tables (store db))) /\ co_id c0 = n /\
                  co_id row = n /\ co_status row = co_status c0) /\
      In row (companies (tables (store (snd r)))) /\
      Pg.varchar_in 255 "name" (Co.name body) = inr (co_name row) /\
      Pg.varchar_in 255 "industry" (Co.industry body) = inr (co_industry row) /\
      Pg.varchar_in 255 "city" (Co.city body) = inr (co_city row) /\
      Pg.varchar_in 255 "address" (Co.address body) = inr (co_address row) /\
      Pg.varchar_in 50 "type" (Co.type body) = inr (co_type row) /\
      Pg.varchar_in 50 "rut" (Co.rut body) = inr (co_rut row) /\
      Pg.varchar_in 255 "giro" (Co.giro body) = inr (co_giro row) /\
      (Co.address body = Js.Undefined -> co_address row = None) /\
      (Co.rut body = Js.Undefined -> co_rut row = None) /\
      (Co.giro body = Js.Undefined -> co_giro row = None)) /\
  (forall c, In c (companies (tables (store db))) -> co_id c <> n ->
             In c (companies (tables (store (snd r))))) /\
  ((forall c, In c (companies (tables (store db))) -> co_id c <> n) ->
   company_fits body ->
   r = (inr (CompanyRow None), db)) /\
  documents (tables (store (snd r))) = documents (tables (store db)) /\
  contacts (snd r) = contacts db.
Proof.
  intros Hid r. subst r.
  unfold put_company, pool_try, pool_bind, pool_ret, update_company.
  rewrite Hid.
  set (hit := fun c : Company => Sql.eq_int (Some (co_id c)) (Some n)).
  assert (Hhit : forall c, hit c = true <-> co_id c = n).
  { intros c. unfold hit. cbn. apply Z.eqb_eq. }
  destruct (company_columns _ _ _ _ _ _ _) as [e | set] eqn:Ecols;
    cbn [fst snd].
  - split; [intros row H; discriminate H |].
    split; [auto |]. split; [| split; reflexivity].
    intros _ Hfits. destruct (company_columns_fits body Hfits) as (set & E).
    rewrite E in Ecols. discriminate Ecols.
  - destruct (existsb hit (companies (tables (store db)))) eqn:Eex;
      cbn [fst snd hd_error].
    + split; [| split; [| split; [| split; reflexivity]]].
      * intros row Hrow. inversion Hrow as [Hhd]; clear Hrow.
        destruct (filter hit (companies (tables (store db)))) as [| c0 rest]
          eqn:Efil; [discriminate |].
        cbn in Hhd. inversion Hhd; subst row; clear Hhd.
        assert (Hin0 : In c0 (filter hit (companies (tables (store db))))).
        { rewrite Efil. left. reflexivity. }
        apply filter_In in Hin0. destruct Hin0 as [Hin0 Hc0].
        destruct (company_columns_row _ _ _ _ _ _ _ set c0 Ecols)
          as (Hi & Hst & Hn & Hind & Hci & Hadd & Hty & Hrut & Hgi).
        apply Hhit in Hc0.
        split; [exists c0; repeat split; congruence |].
        split.
        { cbn [with_companies store with_tables tables companies].
          apply in_map_iff. exists c0. split; [| assumption].
          apply Hhit in Hc0.
          change ((if hit c0 then set c0 else c0) = set c0).
          rewrite Hc0. reflexivity. }
        repeat (split; [assumption |]).
        split; [| split].
        -- intros Hu. rewrite Hu in Hadd. cbn in Hadd. congruence.
        -- intros Hu. rewrite Hu in Hrut. cbn in Hrut. congruence.
        -- intros Hu. rewrite Hu in Hgi. cbn in Hgi. congruence.
      * intros c Hin Hc.
        cbn [with_companies store with_tables tables companies].
        apply in_map_iff. exists c. split; [| assumption].
        change ((if hit c then set c else c) = c).
        destruct (hit c) eqn:E; [| reflexivity].
        apply Hhit in E. contradiction.
      * intros Hnone. exfalso. apply existsb_exists in Eex.
        destruct Eex as (c & Hin & Hc). apply (Hnone c Hin).
        apply Hhit. exact Hc.
    + split; [intros row H; discriminate H |].
      split; [auto |]. split; [reflexivity |]. split; reflexivity.
Qed.

(* ================================================================== *)
(** ** Contacts *)

Lemma Forall2_same_but_next_call_refl (l : list Contact) :
  Forall2 same_but_next_call l l.
Proof.
  induction l; constructor; [| assumption].
  unfold same_but_next_call. repeat split; reflexivity.
Qed.

Lemma Forall2_map_right {A} (R : A -> A -> Prop) (g : A -> A) (l : list A) :
  (forall a, R a (g a)) -> Forall2 R l (map g l).
Proof. intros H. induction l; cbn; constructor; auto. Qed.

Section ContactUpdate.

Variable date_ok : string -> bool.

Lemma update_next_call_same id v db :
  Forall2 same_but_next_call (contacts db)
          (contacts (snd (update_contact_next_call date_ok [v; id] db))) /\
  store (snd (update_contact_next_call date_ok [v; id] db)) = store db.
Proof.
  cbn [update_contact_next_call].
  destruct (date_in date_ok "next_call" v) as [e | c1]; cbn [snd];
    [split; [apply Forall2_same_but_next_call_refl | reflexivity] |].
  unfold update_contacts.
  destruct (Pg.int4_in "id" id) as [e | k]; cbn [snd];
    [split; [apply Forall2_same_but_next_call_refl | reflexivity] |].
  destruct (existsb _ _); cbn [snd];
    [| split; [apply Forall2_same_but_next_call_refl | reflexivity]].
  split; [| reflexivity]. cbn [with_contacts contacts].
  apply Forall2_map_right. intros ct.
  destruct (Sql.eq_int _ _).
  - apply set_next_call_same.
  - unfold same_but_next_call. repeat split; reflexivity.
Qed.

(** X18.  PUT /api/contacts/:id with no name (or an empty one) leaves the
    name, phone, email and role of every contact as they are, whatever the
    request carries for them: only the date of the next call can change.
    With no next_call either, no statement is sent at all: the answer is
    "Contacto actualizado" for any id, also one that is no number. *)
Theorem contact_update_without_name (id : string) (body : Ct.body)
        (db : Database) :
  Js.truthy (Ct.name body) = false ->
  let r := put_contact date_ok id body db in
  Forall2 same_but_next_call (contacts db) (contacts (snd r)) /\
  store (snd r) = store db /\
  (Ct.next_call body = Js.Undefined ->
   r = (inr (Done "Contacto actualizado"), db)).
Proof.
  intros Hname r. subst r. unfold put_contact, pool_try, pool_bind, pool_ret.
  rewrite Hname.
  destruct (defined (Ct.next_call body)) eqn:Edef.
  - pose proof (update_next_call_same (Js.Str id) (Ct.next_call body) db)
      as [Hsame Hstore].
    destruct (update_contact_next_call date_ok _ db) as [[e | []] db'];
      cbn [snd] in *.
    + split; [assumption |]. split; [assumption |].
      intros Hu. rewrite Hu in Edef. discriminate.
    + split; [assumption |]. split; [assumption |].
      intros Hu. rewrite Hu in Edef. discriminate.
  - cbn [snd]. split; [apply Forall2_same_but_next_call_refl |].
    split; reflexivity.
Qed.


End ContactUpdate.

(* ================================================================== *)
(** ** The listings of companies and contacts *)

Lemma in_insert_by_id_desc {A} (id : A -> Z) (r x : A) (l : list A) :
  In x (insert_by_id_desc id r l) <-> x = r \/ In x l.
Proof.
  induction l as [| a l IH]; cbn.
  - intuition congruence.
  - destruct (id a <? id r); cbn; [intuition congruence |].
    rewrite IH. intuition congruence.
Qed.

Lemma in_by_id_desc {A} (id : A -> Z) (x : A) (l : list A) :
  In x (by_id_desc id l) <-> In x l.
Proof.
  induction l as [| a l IH]; cbn; [tauto |].
  rewrite in_insert_by_id_desc, IH. intuition congruence.
Qed.

Lemma insert_by_id_desc_sorted {A} (id : A -> Z) (r : A) (l : list A) :
  StronglySorted (fun a b => id b <= id a) l ->
  StronglySorted (fun a b => id b <= id a) (insert_by_id_desc id r l).
Proof.
  induction l as [| a l IH]; cbn; intros Hs.
  - repeat constructor.
  - apply StronglySorted_inv in Hs. destruct Hs as [Hs Hall].
    destruct (id a <? id r) eqn:E.
    + apply Z.ltb_lt in E. constructor; [constructor; assumption |].
      constructor; [lia |].
      eapply Forall_impl; [| exact Hall]. cbv beta. intros; lia.
    + apply Z.ltb_ge in E. constructor; [auto |].
      apply Forall_forall. intros x Hx. apply in_insert_by_id_desc in Hx.
      destruct Hx as [-> | Hx]; [assumption |].
      rewrite Forall_forall in Hall. auto.
Qed.

Lemma by_id_desc_sorted {A} (id : A -> Z) (l : list A) :
  StronglySorted (fun a b => id b <= id a) (by_id_desc id l).
Proof.
  induction l as [| a l IH]; cbn; [constructor |].
  apply insert_by_id_desc_sorted. exact IH.
Qed.

Lemma insert_by_id_desc_length {A} (id : A -> Z) (r : A) (l : list A) :
  List.length (insert_by_id_desc id r l) = S (List.length l).
Proof.
  induction l as [| b l IH]; cbn; [reflexivity |].
  destruct (id b <? id r); cbn; [reflexivity |]. rewrite IH. reflexivity.
Qed.

Lemma by_id_desc_length {A} (id : A -> Z) (l : list A) :
  List.length (by_id_desc id l) = List.length l.
Proof.
  induction l as [| a l IH]; [reflexivity |].
  cbn [by_id_desc fold_right List.length].
  rewrite insert_by_id_desc_length. f_equal. exact IH.
Qed.

(** X20.  GET /api/companies answers with the companies of the asked type,
    newest id first; with no type, or an empty one, with all companies.
    The database is not changed. *)
Theorem companies_listing (type : option string) (db : Database) :
  exists rows,
    get_companies type db = (inr (CompanyRows rows), db) /\
    StronglySorted (fun a b => co_id b <= co_id a) rows /\
    (type = None \/ type = Some "" ->
     (forall c, In c rows <-> In c (companies (tables (store db)))) /\
     List.length rows = List.length (companies (tables (store db)))) /\
    (forall t, type = Some t -> t <> "" ->
               forall c, In c rows <->
                         In c (companies (tables (store db))) /\
                         co_type c = Some t).
Proof.
  unfold get_companies, pool_try. eexists. split; [reflexivity |].
  split; [apply by_id_desc_sorted |]. split.
  - intros [-> | ->]; cbn; split;
      [intros c; apply in_by_id_desc | apply by_id_desc_length
       | intros c; apply in_by_id_desc | apply by_id_desc_length].
  - intros t -> Ht c. cbn [Js.truthy].
    assert (E : (t =? "")%string = false) by (apply String.eqb_neq; exact Ht).
    rewrite E. cbn [negb]. rewrite in_by_id_desc, filter_In.
    unfold Sql.eq_text. destruct (co_type c) as [x |].
    + rewrite String.eqb_eq. intuition congruence.
    + intuition congruence.
Qed.

(** X21.  GET /api/contacts/:companyId answers with the contacts of that
    company and no others, newest id first, and changes nothing. *)
Theorem contacts_listing (companyId : string) (n : Z) (db : Database) :
  Pg.int4_in "company_id" (Js.Str companyId) = inr (Some n) ->
  exists rows,
    get_contacts companyId db = (inr (ContactRows rows), db) /\
    StronglySorted (fun a b => ct_id b <= ct_id a) rows /\
    (forall ct, In ct rows <->
                In ct (contacts db) /\ ct_company_id ct = Some n).
Proof.
  intros Hid. unfold get_contacts, pool_try. rewrite Hid.
  eexists. split; [reflexivity |]. split; [apply by_id_desc_sorted |].
  intros ct. rewrite in_by_id_desc, filter_In.
  unfold Sql.eq_int. destruct (ct_company_id ct) as [k |].
  - rewrite Z.eqb_eq. intuition congruence.
  - intuition congruence.
Qed.

(* ================================================================== *)
(** ** Creating companies and contacts *)

Lemma text_of_truthy (v : Js.value) :
  Js.truthy v = true -> Pg.text_of v <> None.
Proof. destruct v as [| | [|] | n | s]; cbn; congruence. Qed.

Lemma varchar_in_not_null n col v c :
  Pg.text_of v <> None -> Pg.varchar_in n col v = inr c -> c <> None.
Proof.
  unfold Pg.varchar_in. destruct (Pg.text_of v) as [t |]; [| congruence].
  intros _. destruct (_ <=? _)%nat; [congruence |].
  destruct (all_spaces _); congruence.
Qed.

Lemma or_default_text (v : Js.value) (t : string) :
  Pg.text_of (v ||| Js.Str t) <> None.
Proof.
  unfold Js.or. destruct (Js.truthy v) eqn:E; [| cbn; congruence].
  apply text_of_truthy. exact E.
Qed.

Lemma or_default_falsy (v : Js.value) (t : string) n col :
  Js.truthy v = false -> (String.length t <= n)%nat ->
  Pg.varchar_in n col (v ||| Js.Str t) = inr (Some t).
Proof.
  intros E Hl. unfold Js.or. rewrite E. apply varchar_in_Str_fits. exact Hl.
Qed.

(** X22.  POST /api/companies.  A created company is appended with the
    next id of the sequence, and its status, address, type, rut and giro
    are never NULL: a field the request leaves out (or sends empty) gets
    its default, "Prospecto" for the status and "Cliente" for the type.
    When the store refuses the row, no table is changed. *)
Theorem company_creation_defaults (body : Co.body) (db : Database) :
  let r := post_companies body db in
  (forall row,
      fst r = inr (CompanyRow (Some row)) ->
      companies (tables (store (snd r)))
      = companies (tables (store db)) ++ [row] /\
      co_id row = companies_id_seq db /\
      co_status row <> None /\ co_address row <> None /\
      co_type row <> None /\ co_rut row <> None /\ co_giro row <> None /\
      (Js.truthy (Co.status body) = false -> co_status row = Some "Prospecto") /\
      (Js.truthy (Co.type body) = false -> co_type row = Some "Cliente") /\
      (Js.truthy (Co.address body) = false -> co_address row = Some "")) /\
  (forall e, fst r = inr (Failed e) ->
             store (snd r) = store db /\ contacts (snd r) = contacts db).
Proof.
  intros r. subst r.
  unfold post_companies, pool_try, pool_bind, pool_ret, insert_company,
    add_company.
  match goal with
  | |- context [company_of_cells ?i ?a ?b ?c ?d ?e ?f ?g ?h] =>
      destruct (company_of_cells i a b c d e f g h) as [e0 | row0] eqn:E
  end; cbn [fst snd].
  - split; [intros row H; discriminate H | split; reflexivity].
  - split; [| intros e H; discriminate H].
    intros row H. inversion H; subst row0; clear H.
    pose proof (company_of_cells_id _ _ _ _ _ _ _ _ _ _ E) as Hid.
    unfold company_of_cells in E.
    repeat match type of E with
           | and_then _ _ = inr _ =>
               apply and_then_inr in E; destruct E as (? & ? & E)
           end.
    inversion E; subst; clear E.
    cbn [with_tables tables store companies co_id co_status co_address
           co_type co_rut co_giro].
    split; [reflexivity |]. split; [reflexivity |].
    match goal with
    | H : Pg.varchar_in 50 "status" _ = inr _ |- _ => rename H into Hstatus
    end.
    match goal with
    | H : Pg.varchar_in 255 "address" _ = inr _ |- _ => rename H into Haddress
    end.
    match goal with
    | H : Pg.varchar_in 50 "type" _ = inr _ |- _ => rename H into Htype
    end.
    match goal with
    | H : Pg.varchar_in 50 "rut" _ = inr _ |- _ => rename H into Hrut
    end.
    match goal with
    | H : Pg.varchar_in 255 "giro" _ = inr _ |- _ => rename H into Hgiro
    end.
    split; [exact (varchar_in_not_null _ _ _ _ (or_default_text _ _) Hstatus) |].
    split; [exact (varchar_in_not_null _ _ _ _ (or_default_text _ _) Haddress) |].
    split; [exact (varchar_in_not_null _ _ _ _ (or_default_text _ _) Htype) |].
    split; [exact (varchar_in_not_null _ _ _ _ (or_default_text _ _) Hrut) |].
    split; [exact (varchar_in_not_null _ _ _ _ (or_default_text _ _) Hgiro) |].
    split; [| split].
    + intros F. rewrite (or_default_falsy _ _ 50 "status" F) in Hstatus
        by (cbn; lia).
      congruence.
    + intros F. rewrite (or_default_falsy _ _ 50 "type" F) in Htype
        by (cbn; lia).
      congruence.
    + intros F. rewrite (or_default_falsy _ _ 255 "address" F) in Haddress
        by (cbn; lia).
      congruence.
Qed.

Section ContactCreation.

Variable date_ok : string -> bool.

(** X23.  POST /api/contacts.  A contact is only created for a company
    that exists (or for none): with the id of no company the request
    fails and no table is changed.  A created contact is appended with the
    next id of its sequence, its email is never NULL, and a next_call
    left out or sent empty is stored as NULL. *)
Theorem contact_creation (body : Ct.body) (db : Database) :
  let r := post_contacts date_ok body db in
  (forall row,
      fst r = inr (ContactRow (Some row)) ->
      contacts (snd r) = contacts db ++ [row] /\
      store (snd r) = store db /\
      ct_id row = contacts_id_seq db /\
      (ct_company_id row = None \/
       exists c, In c (companies (tables (store db))) /\
                 ct_company_id row = Some (co_id c)) /\
      ct_email row <> None /\
      (Js.truthy (Ct.next_call body) = false -> ct_next_call row = None)) /\
  (forall n,
      Pg.int4_in "company_id" (Ct.company_id body) = inr (Some n) ->
      (forall c, In c (companies (tables (store db))) -> co_id c <> n) ->
      (exists e, fst r = inr (Failed e)) /\
      contacts (snd r) = contacts db /\ store (snd r) = store db).
Proof.
  intros r. subst r.
  unfold post_contacts, pool_try, pool_bind, pool_ret, insert_contact.
  destruct (Pg.int4_in "company_id" _) as [e | c1] eqn:E1; cbn [fst snd].
  { split; [intros row Hrow; discriminate Hrow |]. intros n Hn. discriminate Hn. }
  destruct (date_in date_ok "next_call" _) as [e | c6] eqn:E6; cbn [fst snd].
  { split; [intros row Hrow; discriminate Hrow |]. intros n _ _.
    split; [exists e; reflexivity | split; reflexivity]. }
  destruct (contact_of_params _ _ _ _ _ _ _) as [e | row0] eqn:E;
    cbn [fst snd].
  { split; [intros row Hrow; discriminate Hrow |]. intros n _ _.
    split; [exists e; reflexivity | split; reflexivity]. }
  apply contact_of_params_row in E. destruct E as (Hid & Hco & Hnc & Hem).
  destruct (references_company _ _) eqn:Eref; cbn [fst snd].
  - split.
    + intros row Hrow. inversion Hrow; subst row; clear Hrow.
      cbn [with_contacts next_contact_id contacts store].
      split; [reflexivity |]. split; [reflexivity |].
      split; [exact Hid |].
      split; [rewrite Hco; apply references_company_spec in Eref; exact Eref |].
      split.
      * exact (varchar_in_not_null _ _ _ _ (or_default_text _ _) Hem).
      * intros F. rewrite Hnc. unfold Js.or in E6. rewrite F in E6.
        cbn in E6. congruence.
    + intros n Hn Hnone. exfalso.
      apply references_company_spec in Eref.
      destruct Eref as [Hnull | (c & Hin & Hc)]; [congruence |].
      apply (Hnone c Hin). congruence.
  - split; [intros row Hrow; discriminate Hrow |]. intros n _ _.
    split; [eexists; reflexivity | split; reflexivity].
Qed.

End ContactCreation.

(* ================================================================== *)
(** ** The properties on the worked requests *)

Lemma store0_consistent : consistent store0.
Proof.
  unfold consistent. cbn.
  repeat split; repeat constructor. intros [].
Qed.

Lemma store1_consistent : consistent store1.
Proof.
  unfold consistent. cbn.
  repeat split; repeat constructor; try lia. intros [].
Qed.

Lemma orphan_store_consistent : consistent orphan_store.
Proof.
  unfold consistent. cbn.
  repeat split; repeat constructor; try lia. intros [].
Qed.

Lemma directory_consistent : db_consistent directory.
Proof.
  unfold db_consistent. split; [exact store1_consistent |]. cbn.
  repeat split; repeat constructor; try lia. intros [].
Qed.

Lemma sale_is_created :
  post_documents iso_date sale store0
  = (inr (Created "Documento creado exitosamente" sale_document), store1).
Proof. reflexivity. Qed.

Lemma delete_cascades_witness :
  consistent store1 /\
  Pg.int4_in "id" (Js.Str "1") = inr (Some 1) /\
  select_items (Some 1) (tables (snd (delete_document "1" store1))) = [] /\
  fst (get_document_ver "1" (snd (delete_document "1" store1)))
  = inr (NotFound "Documento no encontrado").
Proof.
  split; [exact store1_consistent |]. split; [reflexivity |].
  pose proof (delete_cascades "1" 1 store1 store1_consistent eq_refl) as H.
  cbv zeta in H. destruct H as (_ & _ & H3 & _ & H5).
  split; [exact H3 | exact H5].
Defined.

Lemma keys_hold_along_any_run_witness :
  consistent store0 /\
  consistent (snd (serve iso_date three_sales_one_deleted store0)).
Proof.
  split; [exact store0_consistent |].
  exact (proj1 (keys_hold_along_any_run iso_date three_sales_one_deleted
                  store0 store0_consistent)).
Defined.


Lemma document_without_company_is_not_served_witness :
  consistent orphan_store /\
  In (null_document 1) (documents (tables orphan_store)) /\
  fst (get_document_ver "1" orphan_store)
  = inr (NotFound "Documento no encontrado").
Proof.
  split; [exact orphan_store_consistent |].
  assert (Hin : In (null_document 1) (documents (tables orphan_store))).
  { left. reflexivity. }
  split; [exact Hin |].
  exact (proj2 (document_without_company_is_not_served orphan_store
                  (null_document 1) orphan_store_consistent Hin eq_refl)
               "1" eq_refl).
Defined.

Lemma listing_is_newest_first_witness :
  fst (get_documents None None store1) = inr (Listing sale_listing) /\
  newest_first (map fst sale_listing).
Proof.
  split; [reflexivity |].
  exact (proj1 (listing_is_newest_first None None store1 sale_listing
                  eq_refl)).
Defined.

Lemma listing_without_search_witness :
  no_filter None /\
  exists docs,
    fst (get_documents (Some "INV") None store1) = inr (Listing docs) /\
    forall r, In r (map fst docs) <->
              In r (documents_join_companies (tables store1)) /\
              doc_type (jd_doc r) = Some "INV".
Proof.
  assert (Hnone : no_filter None) by (left; reflexivity).
  split; [exact Hnone |].
  destruct (listing_without_search (Some "INV") None store1 Hnone)
    as (docs & H1 & _ & H3).
  exists docs. split; [exact H1 |].
  apply (H3 "INV" eq_refl). discriminate.
Defined.



Lemma unknown_id_is_acknowledged_witness :
  Pg.int4_in "id" (Js.Str "7") = inr (Some 7) /\
  (forall d, In d (documents (tables store1)) -> doc_id d <> 7) /\
  put_document_status "7" (Js.Str "Pagada") store1
  = (inr (Message "Estado actualizado"), store1) /\
  delete_document "7" store1
  = (inr (Message "Documento eliminado correctamente"), store1).
Proof.
  assert (Hd : forall d, In d (documents (tables store1)) -> doc_id d <> 7).
  { intros d [<- | []]. discriminate. }
  assert (Hfit : match Pg.text_of (Js.Str "Pagada") with
                 | Some t => (String.length t <= 50)%nat
                 | None => True
                 end) by (cbn; lia).
  split; [reflexivity |]. split; [exact Hd |].
  exact (unknown_id_is_acknowledged "7" 7 (Js.Str "Pagada") store1 eq_refl
           Hd Hfit).
Defined.

Lemma search_ignores_case_of_term_witness :
  lower (chars "ACME") = lower (chars "acme") /\
  fst (get_documents None (Some "ACME") store1)
  = fst (get_documents None (Some "acme") store1).
Proof.
  split; [reflexivity |].
  exact (search_ignores_case_of_term None "ACME" "acme" store1 eq_refl).
Defined.

Lemma older_copy_folio_witness :
  Js.truthy (folio upload) = false /\
  post_documents_older iso_date upload store0
  = (inr (Created "Documento creado exitosamente" older_document),
     snd older_outcome) /\
  doc_folio older_document = Some 1.
Proof.
  split; [reflexivity |]. split; [reflexivity |].
  destruct (older_copy_folio iso_date upload store0 older_document
              (snd older_outcome) eq_refl eq_refl)
    as (n & H1 & _ & _ & _ & H5).
  rewrite H1. f_equal. apply H5. reflexivity.
Defined.

Lemma creation_defaults_witness :
  Js.truthy (status sale) = false /\
  doc_status sale_document = Some "Emitida" /\
  doc_expiration_date sale_document = None.
Proof.
  split; [reflexivity |].
  pose proof (creation_defaults iso_date sale store0 sale_document store1
                sale_is_created) as (H1 & _ & _ & _ & _ & _ & H7 & _).
  split; [exact (H1 eq_refl) | exact (H7 eq_refl)].
Defined.

Lemma import_is_not_atomic_witness :
  Forall import_accepts [gamma] /\
  import_rejects long_rut /\
  fst (post_companies_import (Some [gamma; long_rut; gamma]) directory)
  = inr (Refused 500 "Error importando") /\
  List.length
    (companies
       (tables (store (snd (post_companies_import
                              (Some [gamma; long_rut; gamma]) directory)))))
  = 2%nat.
Proof.
  assert (Hok : Forall import_accepts [gamma]).
  { constructor; [| constructor]. intros id. eexists. reflexivity. }
  assert (Hbad : import_rejects long_rut).
  { intros id row H. discriminate H. }
  split; [exact Hok |]. split; [exact Hbad |].
  exact (proj1 (proj2 (import_is_not_atomic [gamma; long_rut; gamma] directory))
               [gamma] long_rut [gamma] eq_refl Hok Hbad).
Defined.

Lemma database_keys_hold_along_any_run_witness :
  db_consistent directory /\
  db_consistent (answer_all iso_date busy_day directory).
Proof.
  split; [exact directory_consistent |].
  exact (database_keys_hold_along_any_run iso_date busy_day directory
           directory_consistent).
Defined.

Lemma company_delete_witness :
  db_consistent directory /\
  Pg.int4_in "id" (Js.Str "1") = inr (Some 1) /\
  delete_company "1" directory
  = (inr (Failed (Pg.ForeignKey "company_id")), directory).
Proof.
  split; [exact directory_consistent |]. split; [reflexivity |].
  apply (proj1 (company_delete "1" 1 directory directory_consistent eq_refl)).
  exists sale_document. split; [left; reflexivity | reflexivity].
Defined.

Lemma company_update_overwrites_witness :
  Pg.int4_in "id" (Js.Str "1") = inr (Some 1) /\
  fst (put_company "1" (name_only "Acme SpA") directory)
  = inr (CompanyRow (Some renamed_acme)) /\
  co_rut renamed_acme = None /\
  In renamed_acme
     (companies
        (tables (store (snd (put_company "1" (name_only "Acme SpA")
                                         directory))))).
Proof.
  split; [reflexivity |]. split; [reflexivity |].
  destruct (proj1 (company_update_overwrites "1" 1 (name_only "Acme SpA")
                     directory eq_refl) renamed_acme eq_refl)
    as (_ & Hin & _ & _ & _ & _ & _ & _ & _ & _ & Hrut & _).
  split; [exact (Hrut eq_refl) | exact Hin].
Defined.

Lemma contact_update_without_name_witness :
  Js.truthy (Ct.name (contact_request 1 Js.Undefined (Js.Str "2024-06-01")))
  = false /\
  Forall2 same_but_next_call (contacts directory)
    (contacts
       (snd (put_contact iso_date "1"
               (contact_request 1 Js.Undefined (Js.Str "2024-06-01"))
               directory))).
Proof.
  split; [reflexivity |].
  exact (proj1 (contact_update_without_name iso_date "1"
                  (contact_request 1 Js.Undefined (Js.Str "2024-06-01"))
                  directory eq_refl)).
Defined.


Lemma companies_listing_witness :
  exists rows,
    get_companies (Some "") directory = (inr (CompanyRows rows), directory) /\
    List.length rows = List.length (companies (tables (store directory))).
Proof.
  destruct (companies_listing (Some "") directory) as (rows & H1 & _ & H3 & _).
  exists rows. split; [exact H1 |].
  exact (proj2 (H3 (or_intror eq_refl))).
Defined.

Lemma contacts_listing_witness :
  Pg.int4_in "company_id" (Js.Str "1") = inr (Some 1) /\
  exists rows,
    get_contacts "1" directory = (inr (ContactRows rows), directory) /\
    In ana rows.
Proof.
  split; [reflexivity |].
  destruct (contacts_listing "1" 1 directory eq_refl) as (rows & H1 & _ & H3).
  exists rows. split; [exact H1 |].
  apply H3. split; [left; reflexivity | reflexivity].
Defined.

Lemma company_creation_defaults_witness :
  fst (post_companies (name_only "Beta SpA") directory)
  = inr (CompanyRow (Some beta)) /\
  co_id beta = companies_id_seq directory /\
  co_status beta = Some "Prospecto" /\
  co_type beta = Some "Cliente".
Proof.
  split; [reflexivity |].
  destruct (proj1 (company_creation_defaults (name_only "Beta SpA") directory)
                  beta eq_refl)
    as (_ & Hid & _ & _ & _ & _ & _ & Hst & Hty & _).
  split; [exact Hid |]. split; [exact (Hst eq_refl) | exact (Hty eq_refl)].
Defined.

Lemma contact_creation_witness :
  Pg.int4_in "company_id"
             (Ct.company_id (contact_request 99 (Js.Str "Eva") Js.Undefined))
  = inr (Some 99) /\
  (exists e,
      fst (post_contacts iso_date
             (contact_request 99 (Js.Str "Eva") Js.Undefined) directory)
      = inr (Failed e)) /\
  contacts (snd (post_contacts iso_date
                   (contact_request 99 (Js.Str "Eva") Js.Undefined) directory))
  = contacts directory.
Proof.
  split; [reflexivity |].
  destruct (proj2 (contact_creation iso_date
                     (contact_request 99 (Js.Str "Eva") Js.Undefined)
                     directory) 99 eq_refl)
    as (He & Hc & _).
  { intros c [<- | []]. discriminate. }
  split; [exact He | exact Hc].
Defined.
